(** * Work-item lifecycle engine: queue, processing manifest, pipeline
      executor and recovery processor

    A shallow embedding of the JavaScript sources

    - [queue-manager.js]        (class [WorkQueueManager])
    - [processing-manifest.js]  (class [ProcessingManifest])
    - [completion-log.js]       (class [CompletionLog])
    - [main-processor.js]       (class [MainProcessor])
    - [recovery-processor.js]   (class [RecoveryProcessor])

    Every persisted JSON document is a value that the operations take and
    return (load, mutate, save).  A manager method that throws returns
    [Err]; the processors run in a state monad over the documents, the
    clock and the history of attempts and waits, in which a call returns,
    throws or (in the model only) runs out of fuel.  Time is a clock
    reading in milliseconds that waits advance.  The stage collaborators
    (the agents) are an oracle indexed by the number of executions made so
    far.

    The first part holds the definitions, module by module as in the
    sources, and sample documents; the second part the properties. *)

From Stdlib Require Import ZArith List String Bool Lia Sorted DecimalString.
From stdpp Require Import base gmap strings list.
Import ListNotations.

Local Open Scope Z_scope.

(** ** JavaScript helpers *)

Module Js.

(** A computation that either returns or throws [Error(message)]. *)
Inductive result (A : Type) : Type :=
| Ok (a : A)
| Err (message : string).
Arguments Ok {A} a.
Arguments Err {A} message.

Definition bind {A B} (r : result A) (k : A -> result B) : result B :=
  match r with
  | Ok a => k a
  | Err m => Err m
  end.

(** [String.prototype.includes] *)
Fixpoint includes (s sub : string) : bool :=
  match s with
  | EmptyString => String.prefix sub s
  | String _ rest => String.prefix sub s || includes rest sub
  end.

(** Template literal of a number: [`${n}`]. *)
Definition string_of_Z (n : Z) : string :=
  NilZero.string_of_int (Z.to_int n).

(** [Array.prototype.findIndex]; [None] stands for [-1]. *)
Fixpoint findIndex {A} (p : A -> bool) (l : list A) : option nat :=
  match l with
  | [] => None
  | x :: rest => if p x then Some O else option_map S (findIndex p rest)
  end.

(** [array.splice(index, 1)]: the array without the element at [index]. *)
Definition splice1 {A} (index : nat) (l : list A) : list A :=
  firstn index l ++ skipn (S index) l.

(** [Array.prototype.sort(compare)], stable as ECMAScript 2019 requires:
    an element moves in front of another only when [compare] is
    negative or, at zero, when it was already in front. *)
Fixpoint sort_insert {A} (compare : A -> A -> Z) (x : A) (sorted : list A)
  : list A :=
  match sorted with
  | [] => [x]
  | y :: rest =>
      if compare x y <=? 0 then x :: y :: rest
      else y :: sort_insert compare x rest
  end.

Definition sort {A} (compare : A -> A -> Z) (l : list A) : list A :=
  fold_right (sort_insert compare) [] l.

(** [x || d] on a string: the empty string is falsy. *)
Definition truthy_string (s : string) : option string :=
  if String.eqb s "" then None else Some s.

End Js.

Import Js.

Notation "x <- c ;; k" := (Js.bind c (fun x => k))
  (at level 100, c at next level, right associativity).

(** ** queue-manager.js *)

Module Queue.

(** The [metadata] argument; only [metadata.source] is read. *)
Record Metadata := { meta_source : option string }.

Definition no_metadata : Metadata := {| meta_source := None |}.

Record FileRef := {
  path : string;
  size_bytes : Z;
  hash : option string;
  source : string
}.

Record WorkItem := {
  id : string;
  type : string;
  priority : Z;
  created_at : Z;
  file : FileRef;
  required_agents : list string;
  context : Metadata
}.

(** [work-queue.json] *)
Record QueueDoc := {
  version : string;
  last_updated : option Z;
  queue : list WorkItem
}.

(** What [load] returns when the document cannot be read. *)
Definition empty_doc : QueueDoc :=
  {| version := "1.0"; last_updated := None; queue := [] |}.

(** The part of [fs], [path] and [crypto] that [addToQueue] consults.
    [stat p = None] when [fs.existsSync p] is false; [st_sha256] is
    [calculateHash], [None] when the file cannot be read. *)
Record FileStat := { st_size : Z; st_sha256 : option string }.

Record FileSystem := {
  isAbsolute : string -> bool;
  join : string -> string -> string;
  stat : string -> option FileStat
}.

Definition source_is (metadata : Metadata) (s : string) : bool :=
  match meta_source metadata with
  | Some src => String.eqb src s
  | None => false
  end.

Definition detectType (filePath : string) (metadata : Metadata) : string :=
  if source_is metadata "git-commit" then "git-commit"
  else if source_is metadata "web-clipper" then "web-clip"
  else if includes filePath "00_Inbox" then "inbox-file"
  else "unknown".

Definition calculatePriority (filePath : string) (metadata : Metadata) : Z :=
  if source_is metadata "git-commit" then 1
  else if source_is metadata "web-clipper" then 2
  else if includes filePath "00_Inbox" then 3
  else 4.

Definition determineAgents (filePath : string) (metadata : Metadata)
  : list string :=
  let t := detectType filePath metadata in
  if String.eqb t "git-commit" then
    ["normalization"; "keyword-extraction"; "linking"; "tagging"; "filing"]
  else if String.eqb t "web-clip" then
    ["normalization"; "keyword-extraction"; "linking"; "filing"]
  else if String.eqb t "inbox-file" then
    ["normalization"; "keyword-extraction"; "linking"; "filing"]
  else ["normalization"; "filing"].

Definition path_matches (filePath : string) (item : WorkItem) : bool :=
  String.eqb (path (file item)) filePath.

(** [addToQueue(filePath, metadata)].  [now] is the clock reading of the
    call.  The result is the new id, or [None] for the [null] that the
    source returns both for a path already queued and for a missing
    file. *)
Definition addToQueue (fs : FileSystem) (vaultPath : string) (now : Z)
    (filePath : string) (metadata : Metadata) (doc : QueueDoc)
  : option string * QueueDoc :=
  if existsb (path_matches filePath) (queue doc) then (None, doc)
  else
    let absolutePath :=
      if isAbsolute fs filePath then filePath
      else join fs vaultPath filePath in
    match stat fs absolutePath with
    | None => (None, doc)
    | Some stats =>
        let item := {|
          id := "wq-" +:+ string_of_Z now;
          type := detectType filePath metadata;
          priority := calculatePriority filePath metadata;
          created_at := now;
          file := {|
            path := filePath;
            size_bytes := st_size stats;
            hash := match st_sha256 stats with
                  | Some h => option_map (fun h' => "sha256:" +:+ h')
                                (truthy_string h)
                  | None => None
                  end;
            source := match meta_source metadata with
                      | Some s => match truthy_string s with
                                  | Some s' => s'
                                  | None => "unknown"
                                  end
                      | None => "unknown"
                      end
          |};
          required_agents := determineAgents filePath metadata;
          context := metadata
        |} in
        (Some (id item),
         {| version := version doc;
            last_updated := Some now;
            queue := queue doc ++ [item] |})
    end.

Definition by_priority (a b : WorkItem) : Z := priority a - priority b.

(** [getNext()]: the sorted copy is not saved. *)
Definition getNext (doc : QueueDoc) : option WorkItem :=
  if (length (queue doc) =? 0)%nat then None
  else hd_error (Js.sort by_priority (queue doc)).

Definition has_id (workItemId : string) (item : WorkItem) : bool :=
  String.eqb (id item) workItemId.

(** [startProcessing(workItemId)] *)
Definition startProcessing (now : Z) (workItemId : string) (doc : QueueDoc)
  : result (WorkItem * QueueDoc) :=
  match findIndex (has_id workItemId) (queue doc) with
  | None => Err ("Work item " +:+ workItemId +:+ " not found in queue")
  | Some index =>
      match nth_error (queue doc) index with
      | None => Err "Cannot read properties of undefined"
      | Some item =>
          Ok (item,
              {| version := version doc;
                 last_updated := Some now;
                 queue := splice1 index (queue doc) |})
      end
  end.

(** [remove(workItemId)] *)
Definition remove (now : Z) (workItemId : string) (doc : QueueDoc)
  : bool * QueueDoc :=
  match findIndex (has_id workItemId) (queue doc) with
  | None => (false, doc)
  | Some index =>
      (true,
       {| version := version doc;
          last_updated := Some now;
          queue := splice1 index (queue doc) |})
  end.

Definition getAll (doc : QueueDoc) : list WorkItem := queue doc.

(** Steps 1 and 2 of [MainProcessor.processNext]
    (main-processor.js, lines 25 to 40): [getNext()], the idle return on
    an empty queue, then [startProcessing(nextWork.id)]. *)
Definition dequeueNext (now : Z) (doc : QueueDoc)
  : result (option (WorkItem * QueueDoc)) :=
  match getNext doc with
  | None => Ok None
  | Some nextWork =>
      r <- startProcessing now (id nextWork) doc ;;
      Ok (Some r)
  end.

(** A history of the queue: calls of the manager and time passing. *)
Inductive Op :=
| Enqueue (fs : FileSystem) (filePath : string) (metadata : Metadata)
| Remove (workItemId : string)
| StartProcessing (workItemId : string)
| Elapse (ms : Z).

Record State := { clock : Z; doc : QueueDoc }.

Definition step (vaultPath : string) (st : State) (op : Op) : State :=
  match op with
  | Enqueue fs filePath metadata =>
      {| clock := clock st;
         doc := snd (addToQueue fs vaultPath (clock st) filePath metadata
                       (doc st)) |}
  | Remove workItemId =>
      {| clock := clock st;
         doc := snd (remove (clock st) workItemId (doc st)) |}
  | StartProcessing workItemId =>
      {| clock := clock st;
         doc := match startProcessing (clock st) workItemId (doc st) with
                | Ok (_, d) => d
                | Err _ => doc st
                end |}
  | Elapse ms => {| clock := clock st + ms; doc := doc st |}
  end.

Definition run (vaultPath : string) (ops : list Op) (st : State) : State :=
  fold_left (step vaultPath) ops st.

(** Time does not run backwards. *)
Definition forward (op : Op) : Prop :=
  match op with
  | Elapse ms => 0 <= ms
  | _ => True
  end.

(** [acc[key] = (acc[key] || 0) + 1] *)
Definition tally (key : string) (acc : gmap string Z) : gmap string Z :=
  <[key := match acc !! key with
           | Some n => n + 1
           | None => 1
           end]> acc.

(** The object that [getStats] returns: [total_items], [by_type] and
    [by_priority]. *)
Record QueueStats := {
  total_items : Z;
  count_by_type : gmap string Z;
  count_by_priority : gmap string Z
}.

Definition priorityKey (item : WorkItem) : string :=
  "priority_" +:+ string_of_Z (priority item).

(** [getStats()] *)
Definition getStats (doc : QueueDoc) : QueueStats :=
  {| total_items := Z.of_nat (length (queue doc));
     count_by_type :=
       fold_left (fun acc item => tally (type item) acc) (queue doc) ∅;
     count_by_priority :=
       fold_left (fun acc item => tally (priorityKey item) acc)
         (queue doc) ∅ |}.

End Queue.

(** ** processing-manifest.js *)

Module Manifest.

Inductive Status := pending | in_progress | completed | failed | skipped.

Definition status_eqb (a b : Status) : bool :=
  match a, b with
  | pending, pending | in_progress, in_progress | completed, completed
  | failed, failed | skipped, skipped => true
  | _, _ => false
  end.

(** The optional [output] argument of [updateAgent]. *)
Inductive Payload :=
| AgentResult (duration_ms : Z) (current_step : option string)
| ErrorInfo (error stack : string).

Record AgentEntry := {
  name : string;
  status : Status;
  started_at : option Z;
  current_step : option string;
  completed_at : option Z;
  duration_ms : option Z;
  output : option Payload;
  failed_at : option Z;
  error : option Payload;
  skipped_at : option Z;
  reason : option Payload
}.

Record ErrorEntry := {
  err_agent : string;
  err_error : option Payload;
  err_timestamp : Z
}.

Record FinalOutput := {
  final_path : string;
  keywords_extracted : Z;
  links_created : Z;
  tags_added : list string;
  destination_folder : string
}.

(** One entry of [current_processing].  [retries] is the counter that
    [add] creates and [incrementRetry] maintains; [retry_count] is the
    field that the recovery processor reads (only the failure
    simulation script writes it).  Both may be absent. *)
Record ProcessingRecord := {
  work_id : string;
  file_path : string;
  record_started_at : Z;
  agent_pipeline : list AgentEntry;
  errors : list ErrorEntry;
  retries : option Z;
  retry_count : option Z;
  record_completed_at : option Z;
  total_duration_ms : option Z;
  final_output : option FinalOutput
}.

(** [processing-manifest.json] *)
Record ManifestDoc := {
  version : string;
  current_processing : list ProcessingRecord
}.

Definition empty_doc : ManifestDoc :=
  {| version := "1.0"; current_processing := [] |}.

Definition with_processing (doc : ManifestDoc) (l : list ProcessingRecord)
  : ManifestDoc :=
  {| version := version doc; current_processing := l |}.

Definition has_work_id (workId : string) (p : ProcessingRecord) : bool :=
  String.eqb (work_id p) workId.

Definition has_name (agentName : string) (a : AgentEntry) : bool :=
  String.eqb (name a) agentName.

(** The object that [find] returns is mutated in place: the first
    element that satisfies [p] is replaced. *)
Fixpoint replace_first {A} (p : A -> bool) (x : A) (l : list A) : list A :=
  match l with
  | [] => []
  | y :: rest => if p y then x :: rest else y :: replace_first p x rest
  end.

Definition pending_entry (n : string) : AgentEntry :=
  {| name := n; status := pending; started_at := None;
     current_step := None; completed_at := None; duration_ms := None;
     output := None; failed_at := None; error := None;
     skipped_at := None; reason := None |}.

(** [add(workItem)] *)
Definition add (now : Z) (workItem : Queue.WorkItem) (doc : ManifestDoc)
  : ProcessingRecord * ManifestDoc :=
  let processing := {|
    work_id := Queue.id workItem;
    file_path := Queue.path (Queue.file workItem);
    record_started_at := now;
    agent_pipeline := map pending_entry (Queue.required_agents workItem);
    errors := [];
    retries := Some 0;
    retry_count := None;
    record_completed_at := None;
    total_duration_ms := None;
    final_output := None
  |} in
  (processing,
   with_processing doc (current_processing doc ++ [processing])).

Definition output_step (o : option Payload) : option string :=
  match o with
  | Some (AgentResult _ (Some s)) => truthy_string s
  | _ => None
  end.

(** The assignments that [updateAgent] makes to the stage object. *)
Definition set_status (now : Z) (st : Status) (o : option Payload)
    (a : AgentEntry) : AgentEntry :=
  match st with
  | pending =>
      {| name := name a; status := pending; started_at := started_at a;
         current_step := current_step a; completed_at := completed_at a;
         duration_ms := duration_ms a; output := output a;
         failed_at := failed_at a; error := error a;
         skipped_at := skipped_at a; reason := reason a |}
  | in_progress =>
      {| name := name a; status := in_progress; started_at := Some now;
         current_step := output_step o; completed_at := completed_at a;
         duration_ms := duration_ms a; output := output a;
         failed_at := failed_at a; error := error a;
         skipped_at := skipped_at a; reason := reason a |}
  | completed =>
      {| name := name a; status := completed; started_at := started_at a;
         current_step := current_step a; completed_at := Some now;
         duration_ms := match started_at a with
                        | Some t => Some (now - t)
                        | None => duration_ms a
                        end;
         output := o;
         failed_at := failed_at a; error := error a;
         skipped_at := skipped_at a; reason := reason a |}
  | failed =>
      {| name := name a; status := failed; started_at := started_at a;
         current_step := current_step a; completed_at := completed_at a;
         duration_ms := duration_ms a; output := output a;
         failed_at := Some now; error := o;
         skipped_at := skipped_at a; reason := reason a |}
  | skipped =>
      {| name := name a; status := skipped; started_at := started_at a;
         current_step := current_step a; completed_at := completed_at a;
         duration_ms := duration_ms a; output := output a;
         failed_at := failed_at a; error := error a;
         skipped_at := Some now; reason := o |}
  end.

Definition with_pipeline (p : ProcessingRecord) (pipeline : list AgentEntry)
    (errs : list ErrorEntry) : ProcessingRecord :=
  {| work_id := work_id p; file_path := file_path p;
     record_started_at := record_started_at p;
     agent_pipeline := pipeline; errors := errs;
     retries := retries p; retry_count := retry_count p;
     record_completed_at := record_completed_at p;
     total_duration_ms := total_duration_ms p;
     final_output := final_output p |}.

(** [updateAgent(workId, agentName, status, output = null)] *)
Definition updateAgent (now : Z) (workId agentName : string) (st : Status)
    (o : option Payload) (doc : ManifestDoc) : result ManifestDoc :=
  match find (has_work_id workId) (current_processing doc) with
  | None => Err ("Processing item " +:+ workId +:+ " not found")
  | Some processing =>
      match find (has_name agentName) (agent_pipeline processing) with
      | None =>
          Err ("Agent " +:+ agentName +:+ " not found in pipeline for "
               +:+ workId)
      | Some agent =>
          let agent' := set_status now st o agent in
          let errs :=
            match st with
            | failed =>
                errors processing ++
                [{| err_agent := agentName; err_error := o;
                    err_timestamp := now |}]
            | _ => errors processing
            end in
          let processing' :=
            with_pipeline processing
              (replace_first (has_name agentName) agent'
                 (agent_pipeline processing)) errs in
          Ok (with_processing doc
                (replace_first (has_work_id workId) processing'
                   (current_processing doc)))
      end
  end.

Definition get (workId : string) (doc : ManifestDoc)
  : option ProcessingRecord :=
  find (has_work_id workId) (current_processing doc).

Definition getAll (doc : ManifestDoc) : list ProcessingRecord :=
  current_processing doc.

Definition is_status (st : Status) (a : AgentEntry) : bool :=
  status_eqb (status a) st.

(** [hasFailed(workId)] *)
Definition hasFailed (workId : string) (doc : ManifestDoc) : bool :=
  match get workId doc with
  | None => false
  | Some processing => existsb (is_status failed) (agent_pipeline processing)
  end.

(** [isComplete(workId)] *)
Definition isComplete (workId : string) (doc : ManifestDoc) : bool :=
  match get workId doc with
  | None => false
  | Some processing =>
      forallb (fun a => is_status completed a || is_status skipped a)
        (agent_pipeline processing)
  end.

(** [complete(workId, finalOutput)] *)
Definition complete (now : Z) (workId : string) (finalOutput : FinalOutput)
    (doc : ManifestDoc) : result (ProcessingRecord * ManifestDoc) :=
  match findIndex (has_work_id workId) (current_processing doc) with
  | None => Err ("Processing item " +:+ workId +:+ " not found")
  | Some index =>
      match nth_error (current_processing doc) index with
      | None => Err "Cannot set properties of undefined"
      | Some p =>
          let processing := {|
            work_id := work_id p; file_path := file_path p;
            record_started_at := record_started_at p;
            agent_pipeline := agent_pipeline p; errors := errors p;
            retries := retries p; retry_count := retry_count p;
            record_completed_at := Some now;
            total_duration_ms := Some (now - record_started_at p);
            final_output := Some finalOutput
          |} in
          Ok (processing,
              with_processing doc (splice1 index (current_processing doc)))
      end
  end.

(** [remove(workId)] *)
Definition remove (workId : string) (doc : ManifestDoc)
  : bool * ManifestDoc :=
  match findIndex (has_work_id workId) (current_processing doc) with
  | None => (false, doc)
  | Some index =>
      (true, with_processing doc (splice1 index (current_processing doc)))
  end.

(** [x || 0] on a counter that may be absent. *)
Definition or_zero (o : option Z) : Z :=
  match o with
  | Some n => n
  | None => 0
  end.

(** [incrementRetry(workId)] *)
Definition incrementRetry (workId : string) (doc : ManifestDoc)
  : result (Z * ManifestDoc) :=
  match find (has_work_id workId) (current_processing doc) with
  | None => Err ("Processing item " +:+ workId +:+ " not found")
  | Some p =>
      let n := or_zero (retries p) + 1 in
      let processing := {|
        work_id := work_id p; file_path := file_path p;
        record_started_at := record_started_at p;
        agent_pipeline := agent_pipeline p; errors := errors p;
        retries := Some n; retry_count := retry_count p;
        record_completed_at := record_completed_at p;
        total_duration_ms := total_duration_ms p;
        final_output := final_output p
      |} in
      Ok (n, with_processing doc
               (replace_first (has_work_id workId) processing
                  (current_processing doc)))
  end.

(** [getNextPendingAgent(workId)]; [None] stands for [null] (no such
    record) and for [undefined] (no pending stage). *)
Definition getNextPendingAgent (workId : string) (doc : ManifestDoc)
  : option AgentEntry :=
  match find (has_work_id workId) (current_processing doc) with
  | None => None
  | Some processing => find (is_status pending) (agent_pipeline processing)
  end.

End Manifest.

(** ** completion-log.js *)

Module CompletionLog.

Record ExecutedAgent := {
  name : string;
  status : Manifest.Status;
  duration_ms : Z;
  started_at : option Z;
  completed_at : option Z
}.

Record CompletionRecord := {
  work_id : string;
  file_path : string;
  final_path : string;
  started_at_rec : Z;
  completed_at_rec : Z;
  total_duration_ms : Z;
  agents_executed : list ExecutedAgent;
  metadata : Manifest.FinalOutput;
  errors : list Manifest.ErrorEntry;
  retries : Z
}.

(** [completion-log.json] *)
Record LogDoc := { version : string; completed : list CompletionRecord }.

Definition empty_doc : LogDoc := {| version := "1.0"; completed := [] |}.

Definition executed (a : Manifest.AgentEntry) : ExecutedAgent :=
  {| name := Manifest.name a;
     status := Manifest.status a;
     duration_ms := Manifest.or_zero (Manifest.duration_ms a);
     started_at := Manifest.started_at a;
     completed_at := Manifest.completed_at a |}.

(** [add(processingRecord, finalOutput)] *)
Definition add (now : Z) (processingRecord : Manifest.ProcessingRecord)
    (finalOutput : Manifest.FinalOutput) (log : LogDoc)
  : CompletionRecord * LogDoc :=
  let completedRecord := {|
    work_id := Manifest.work_id processingRecord;
    file_path := Manifest.file_path processingRecord;
    final_path :=
      match truthy_string (Manifest.final_path finalOutput) with
      | Some p => p
      | None => Manifest.file_path processingRecord
      end;
    started_at_rec := Manifest.record_started_at processingRecord;
    completed_at_rec :=
      match Manifest.record_completed_at processingRecord with
      | Some t => t
      | None => now
      end;
    total_duration_ms :=
      match Manifest.total_duration_ms processingRecord with
      | Some d => if d =? 0
                  then now - Manifest.record_started_at processingRecord
                  else d
      | None => now - Manifest.record_started_at processingRecord
      end;
    agents_executed := map executed (Manifest.agent_pipeline processingRecord);
    metadata := finalOutput;
    errors := Manifest.errors processingRecord;
    retries := Manifest.or_zero (Manifest.retries processingRecord)
  |} in
  (completedRecord,
   {| version := version log;
      completed := completed log ++ [completedRecord] |}).

(** The [filters] argument of [query]. *)
Record Filters := {
  start_date : option Z;
  end_date : option Z;
  filter_work_id : option string;
  file_path_pattern : option string;
  has_errors : bool;
  has_retries : bool;
  limit : option Z
}.

Definition no_filters : Filters :=
  {| start_date := None; end_date := None; filter_work_id := None;
     file_path_pattern := None; has_errors := false; has_retries := false;
     limit := None |}.

(** [if (x) results = results.filter(p x)] for an optional filter. *)
Definition filterWhen {A B} (x : option A) (p : A -> B -> bool) (l : list B)
  : list B :=
  match x with
  | Some a => List.filter (p a) l
  | None => l
  end.

Definition truthy (o : option string) : option string :=
  match o with
  | Some s => truthy_string s
  | None => None
  end.

(** [(a, b) => new Date(b.completed_at) - new Date(a.completed_at)] *)
Definition newestFirst (a b : CompletionRecord) : Z :=
  completed_at_rec b - completed_at_rec a.

(** [array.slice(0, n)] for an integer [n]; a negative [n] counts from
    the end. *)
Definition slice0 {A} (n : Z) (l : list A) : list A :=
  if 0 <=? n then firstn (Z.to_nat n) l
  else firstn (length l - Z.to_nat (- n)) l.

Definition matchesPath (pattern : string) (r : CompletionRecord) : bool :=
  includes (file_path r) pattern || includes (final_path r) pattern.

(** [query(filters)] *)
Definition query (filters : Filters) (log : LogDoc) : list CompletionRecord :=
  let r1 := filterWhen (start_date filters)
              (fun t r => t <=? completed_at_rec r) (completed log) in
  let r2 := filterWhen (end_date filters)
              (fun t r => completed_at_rec r <=? t) r1 in
  let r3 := filterWhen (truthy (filter_work_id filters))
              (fun i r => String.eqb (work_id r) i) r2 in
  let r4 := filterWhen (truthy (file_path_pattern filters)) matchesPath r3 in
  let r5 := if has_errors filters
            then List.filter (fun r => (0 <? length (errors r))%nat) r4
            else r4 in
  let r6 := if has_retries filters
            then List.filter (fun r => 0 <? retries r) r5
            else r5 in
  let sorted := Js.sort newestFirst r6 in
  match limit filters with
  | Some n => if n =? 0 then sorted else slice0 n sorted
  | None => sorted
  end.

(** [cleanup(daysToKeep)].  [cutoffDate] is the date that
    [setDate(getDate() - daysToKeep)] computes from the clock; the log is
    saved only when something was removed. *)
Definition cleanup (cutoffDate : Z) (log : LogDoc) : Z * LogDoc :=
  let kept := List.filter (fun r => cutoffDate <=? completed_at_rec r)
                (completed log) in
  let removedCount :=
    Z.of_nat (length (completed log)) - Z.of_nat (length kept) in
  if 0 <? removedCount
  then (removedCount, {| version := version log; completed := kept |})
  else (removedCount, log).

(** [getRecent(limit)] *)
Definition getRecent (n : Z) (log : LogDoc) : list CompletionRecord :=
  slice0 n (Js.sort newestFirst (completed log)).

Definition isFile (filePath : string) (r : CompletionRecord) : bool :=
  String.eqb (file_path r) filePath || String.eqb (final_path r) filePath.

(** [wasProcessed(filePath)] *)
Definition wasProcessed (filePath : string) (log : LogDoc) : bool :=
  existsb (isFile filePath) (completed log).

(** [getFileHistory(filePath)] *)
Definition getFileHistory (filePath : string) (log : LogDoc)
  : list CompletionRecord :=
  List.filter (isFile filePath) (completed log).

End CompletionLog.

(** ** main-processor.js *)

Module Processor.

(** What one pass through the [try] block of a stage meets: the result
    of [agent.execute(documentState)], or an exception of [loadAgent],
    [loadDocumentState] or [execute]. *)
Inductive Outcome :=
| Completed (duration_ms : Z)
| NotCompleted (error : option string)
| Threw (message : string).

Record DocumentState := {
  doc_path : string;
  keywords : option Z;
  linked_concepts : option Z;
  tags : list string
}.

(** The external collaborators.  [execute n agentName] is what the
    [n]-th execution of the run meets when it runs [agentName]. *)
Record Collaborators := {
  execute : nat -> string -> Outcome;
  loadDocumentState : string -> result DocumentState;
  dirname : string -> string
}.

Inductive Event :=
| Attempt (agentName : string)
| Sleep (ms : Z).

(** The persisted documents, the clock and the observable history. *)
Record World := {
  queue_doc : Queue.QueueDoc;
  manifest : Manifest.ManifestDoc;
  completionLog : CompletionLog.LogDoc;
  clock : Z;
  executions : nat;
  trace : list Event
}.

Definition with_manifest (w : World) (m : Manifest.ManifestDoc) : World :=
  {| queue_doc := queue_doc w; manifest := m;
     completionLog := completionLog w; clock := clock w;
     executions := executions w; trace := trace w |}.

Definition with_queue (w : World) (q : Queue.QueueDoc) : World :=
  {| queue_doc := q; manifest := manifest w;
     completionLog := completionLog w; clock := clock w;
     executions := executions w; trace := trace w |}.

Definition with_log (w : World) (l : CompletionLog.LogDoc) : World :=
  {| queue_doc := queue_doc w; manifest := manifest w;
     completionLog := l; clock := clock w;
     executions := executions w; trace := trace w |}.

(** How an [async] method ends: it returns, it throws, or the model ran
    out of fuel (which the loops below never do, see
    [ProcessorFacts.whileLoop_fuel]). *)
Inductive Completion (A : Type) : Type :=
| Returned (a : A)
| Thrown (message : string)
| OutOfFuel.
Arguments Returned {A} a.
Arguments Thrown {A} message.
Arguments OutOfFuel {A}.

Definition M (A : Type) : Type := World -> Completion A * World.

Definition ret {A} (a : A) : M A := fun w => (Returned a, w).

Definition throw {A} (message : string) : M A :=
  fun w => (Thrown message, w).

Definition bind {A B} (c : M A) (k : A -> M B) : M B :=
  fun w =>
    match c w with
    | (Returned a, w') => k a w'
    | (Thrown m, w') => (Thrown m, w')
    | (OutOfFuel, w') => (OutOfFuel, w')
    end.

Notation "x <~ c ;; k" := (bind c (fun x => k))
  (at level 100, c at next level, right associativity).

(** [try { c } catch (error) { ... }]: the caught message, if any. *)
Definition catch {A} (c : M A) : M (A + string) :=
  fun w =>
    match c w with
    | (Returned a, w') => (Returned (inl a), w')
    | (Thrown m, w') => (Returned (inr m), w')
    | (OutOfFuel, w') => (OutOfFuel, w')
    end.

(** [await new Promise(resolve => setTimeout(resolve, ms))] *)
Definition sleep (ms : Z) : M unit :=
  fun w =>
    (Returned tt,
     {| queue_doc := queue_doc w; manifest := manifest w;
        completionLog := completionLog w; clock := clock w + ms;
        executions := executions w; trace := trace w ++ [Sleep ms] |}).

Definition updateAgent (workId agentName : string) (st : Manifest.Status)
    (o : option Manifest.Payload) : M unit :=
  fun w =>
    match Manifest.updateAgent (clock w) workId agentName st o (manifest w)
    with
    | Ok m => (Returned tt, with_manifest w m)
    | Err e => (Thrown e, w)
    end.

Definition incrementRetry (workId : string) : M Z :=
  fun w =>
    match Manifest.incrementRetry workId (manifest w) with
    | Ok (n, m) => (Returned n, with_manifest w m)
    | Err e => (Thrown e, w)
    end.

(** The value that the constructor gives [this.maxRetries]. *)
Definition defaultMaxRetries : Z := 3.

(** [error.stack]; only its first line is kept. *)
Definition stackOf (message : string) : string := "Error: " +:+ message.

Section Pipeline.

Variable agents : Collaborators.

(** [this.maxRetries] *)
Variable maxRetries : Z.

Definition attempt (agentName : string) : M Outcome :=
  fun w =>
    (Returned (execute agents (executions w) agentName),
     {| queue_doc := queue_doc w; manifest := manifest w;
        completionLog := completionLog w; clock := clock w;
        executions := S (executions w);
        trace := trace w ++ [Attempt agentName] |}).

(** The [try] block of a stage (lines 105 to 122): it ends normally
    with [success = true], or with an error for the [catch]. *)
Definition tryStage (workId agentName : string) : M unit :=
  outcome <~ attempt agentName ;;
  match outcome with
  | Completed d =>
      updateAgent workId agentName Manifest.completed
        (Some (Manifest.AgentResult d None))
  | NotCompleted e =>
      throw (match e with
             | Some m => match truthy_string m with
                         | Some m' => m'
                         | None => "Agent execution failed"
                         end
             | None => "Agent execution failed"
             end)
  | Threw m => throw m
  end.

(** [while (retries <= this.maxRetries && !success)], lines 104 to
    143.  A successful pass leaves the loop; a failed pass either
    counts a retry, waits [1000 * retries] ms and goes round again, or
    marks the stage failed and throws. *)
Fixpoint whileLoop (fuel : nat) (workId agentName : string) (retries : Z)
  : M unit :=
  if negb (retries <=? maxRetries) then ret tt
  else
    match fuel with
    | O => fun w => (OutOfFuel, w)
    | S fuel' =>
        r <~ catch (tryStage workId agentName) ;;
        match r with
        | inl _ => ret tt
        | inr message =>
            let retries' := retries + 1 in
            if retries' <=? maxRetries then
              _ <~ incrementRetry workId ;;
              _ <~ sleep (1000 * retries') ;;
              whileLoop fuel' workId agentName retries'
            else
              _ <~ updateAgent workId agentName Manifest.failed
                     (Some (Manifest.ErrorInfo message (stackOf message))) ;;
              throw ("Agent " +:+ agentName +:+ " failed: " +:+ message)
        end
    end.

Definition runStage (workId agentName : string) : M unit :=
  _ <~ updateAgent workId agentName Manifest.in_progress None ;;
  whileLoop (S (Z.to_nat maxRetries)) workId agentName 0.

(** [executeAgentPipeline(workItem)]; of [workItem] it reads [id] and
    [required_agents]. *)
Fixpoint executeAgentPipeline (workId : string)
    (required_agents : list string) : M unit :=
  match required_agents with
  | [] => ret tt
  | agentName :: rest =>
      _ <~ runStage workId agentName ;;
      executeAgentPipeline workId rest
  end.

Inductive ProcessResult :=
| Idle
| ItemCompleted (work_id file : string)
| ItemFailed (work_id error : string).

Definition finalOutput (finalState : DocumentState) : Manifest.FinalOutput :=
  {| Manifest.final_path := doc_path finalState;
     Manifest.keywords_extracted := Manifest.or_zero (keywords finalState);
     Manifest.links_created :=
       Manifest.or_zero (linked_concepts finalState);
     Manifest.tags_added := tags finalState;
     Manifest.destination_folder :=
       dirname agents (doc_path finalState) |}.

(** The [try] block of [processNext], lines 46 to 75. *)
Definition processItem (workItem : Queue.WorkItem) : M ProcessResult :=
  _ <~ executeAgentPipeline (Queue.id workItem)
         (Queue.required_agents workItem) ;;
  fun w =>
    match loadDocumentState agents (Queue.path (Queue.file workItem)) with
    | Err e => (Thrown e, w)
    | Ok finalState =>
        match Manifest.complete (clock w) (Queue.id workItem)
                (finalOutput finalState) (manifest w) with
        | Err e => (Thrown e, w)
        | Ok (processingRecord, m) =>
            let w1 := with_manifest w m in
            let log := snd (CompletionLog.add (clock w1) processingRecord
                              (finalOutput finalState)
                              (completionLog w1)) in
            (Returned (ItemCompleted (Queue.id workItem)
                         (doc_path finalState)),
             with_log w1 log)
        end
    end.

(** [processNext()] *)
Definition processNext : M ProcessResult :=
  fun w =>
    match Queue.dequeueNext (clock w) (queue_doc w) with
    | Err e => (Thrown e, w)
    | Ok None => (Returned Idle, w)
    | Ok (Some (workItem, q)) =>
        let w1 := with_queue w q in
        let w2 := with_manifest w1
                    (snd (Manifest.add (clock w1) workItem (manifest w1))) in
        match catch (processItem workItem) w2 with
        | (Returned (inl r), w3) => (Returned r, w3)
        | (Returned (inr message), w3) =>
            (* Remove from manifest on fatal error *)
            let w4 := with_manifest w3
                        (snd (Manifest.remove (Queue.id workItem)
                                (manifest w3))) in
            (Returned (ItemFailed (Queue.id workItem) message), w4)
        | (Thrown e, w3) => (Thrown e, w3)
        | (OutOfFuel, w3) => (OutOfFuel, w3)
        end
    end.

(** The [results] of [processAll]. *)
Record BatchResults := {
  total : Z;
  completedCount : Z;
  failedCount : Z;
  batchErrors : list (string * string)
}.

(** The [while (true)] loop of [processAll], lines 189 to 206. *)
Fixpoint processLoop (fuel : nat) (results : BatchResults)
  : M BatchResults :=
  match fuel with
  | O => fun w => (OutOfFuel, w)
  | S fuel' =>
      result <~ processNext ;;
      match result with
      | Idle => ret results
      | ItemCompleted _ _ =>
          _ <~ sleep 500 ;;
          processLoop fuel'
            {| total := total results;
               completedCount := completedCount results + 1;
               failedCount := failedCount results;
               batchErrors := batchErrors results |}
      | ItemFailed work_id error =>
          _ <~ sleep 500 ;;
          processLoop fuel'
            {| total := total results;
               completedCount := completedCount results;
               failedCount := failedCount results + 1;
               batchErrors := batchErrors results ++ [(work_id, error)] |}
      end
  end.

(** [processAll()] *)
Definition processAll (fuel : nat) : M BatchResults :=
  fun w =>
    processLoop fuel
      {| total := Queue.total_items (Queue.getStats (queue_doc w));
         completedCount := 0; failedCount := 0; batchErrors := [] |} w.

(** [array.slice(array.indexOf(x))]: from the first index of [x], or the
    last element when [indexOf] is [-1]. *)
Definition sliceFrom {A} (index : option nat) (l : list A) : list A :=
  match index with
  | Some i => skipn i l
  | None => skipn (length l - 1) l
  end.

(** The body of the [for] loop of [retryFailed], lines 241 to 271. *)
Definition retryFailedItem (item : Manifest.ProcessingRecord) : M unit :=
  match find (Manifest.is_status Manifest.failed)
          (Manifest.agent_pipeline item) with
  | None => ret tt
  | Some failedAgent =>
      _ <~ updateAgent (Manifest.work_id item) (Manifest.name failedAgent)
             Manifest.pending None ;;
      let remainingAgents :=
        map Manifest.name
          (sliceFrom (findIndex (Manifest.is_status Manifest.failed)
                        (Manifest.agent_pipeline item))
             (Manifest.agent_pipeline item)) in
      _ <~ catch (executeAgentPipeline (Manifest.work_id item)
                    remainingAgents) ;;
      ret tt
  end.

Fixpoint retryFailedItems (items : list Manifest.ProcessingRecord) : M unit :=
  match items with
  | [] => ret tt
  | item :: rest => _ <~ retryFailedItem item ;; retryFailedItems rest
  end.

(** [retryFailed()]: [true] for the [idle] result, [false] for the plain
    return after the loop. *)
Definition retryFailed : M bool :=
  fun w =>
    let failedItems :=
      List.filter
        (fun item => existsb (Manifest.is_status Manifest.failed)
                       (Manifest.agent_pipeline item))
        (Manifest.getAll (manifest w)) in
    if (length failedItems =? 0)%nat then (Returned true, w)
    else (_ <~ retryFailedItems failedItems ;; ret false) w.

End Pipeline.

End Processor.

(** ** recovery-processor.js *)

Module Recovery.

Import Processor.

(** [this.options] after the constructor has filled in the defaults. *)
Record Options := {
  maxRetries : Z;
  retryDelay : Z;
  exponentialBackoff : bool;
  cleanupOldFailures : bool;
  maxFailureAge : Z
}.

Definition default_options : Options :=
  {| maxRetries := 3; retryDelay := 2000; exponentialBackoff := true;
     cleanupOldFailures := true; maxFailureAge := 86400000 |}.

(** [recovery-state.json] *)
Record RecoveryState := {
  retries : gmap string Z;
  lastRetry : gmap string Z;
  permanentFailures : list string
}.

(** What [loadRecoveryState] returns when there is no file yet. *)
Definition default_state : RecoveryState :=
  {| retries := ∅; lastRetry := ∅; permanentFailures := [] |}.

Record RecoveryDetail := {
  detail_work_id : string;
  detail_file : string;
  detail_checkpoint : string;
  detail_retry_count : Z;
  detail_duration_ms : Z;
  detail_timestamp : Z
}.

Record RecoveryError := {
  error_work_id : string;
  error_file : string;
  error_message : string;
  error_retry_count : Z;
  error_timestamp : Z
}.

(** [this.stats] *)
Record Stats := {
  failuresFound : Z;
  recovered : Z;
  permanentFailuresCount : Z;
  skipped : Z;
  errors : list RecoveryError;
  recoveryDetails : list RecoveryDetail
}.

Definition no_stats : Stats :=
  {| failuresFound := 0; recovered := 0; permanentFailuresCount := 0;
     skipped := 0; errors := []; recoveryDetails := [] |}.

(** The recovery processor on top of the processor's world. *)
Record State := {
  world : World;
  recoveryState : RecoveryState;
  stats : Stats
}.

Definition M (A : Type) : Type := State -> Completion A * State.

Definition ret {A} (a : A) : M A := fun s => (Returned a, s).

Definition bind {A B} (c : M A) (k : A -> M B) : M B :=
  fun s =>
    match c s with
    | (Returned a, s') => k a s'
    | (Thrown m, s') => (Thrown m, s')
    | (OutOfFuel, s') => (OutOfFuel, s')
    end.

Notation "x <~~ c ;; k" := (bind c (fun x => k))
  (at level 100, c at next level, right associativity).

Definition catch {A} (c : M A) : M (A + string) :=
  fun s =>
    match c s with
    | (Returned a, s') => (Returned (inl a), s')
    | (Thrown m, s') => (Returned (inr m), s')
    | (OutOfFuel, s') => (OutOfFuel, s')
    end.

(** A call into [this.manifest] or [this.mainProcessor]. *)
Definition lift {A} (c : Processor.M A) : M A :=
  fun s =>
    let (r, w) := c (world s) in
    (r, {| world := w; recoveryState := recoveryState s; stats := stats s |}).

Definition now : M Z := fun s => (Returned (clock (world s)), s).

Definition saveRecoveryState (st : RecoveryState) : M unit :=
  fun s =>
    (Returned tt,
     {| world := world s; recoveryState := st; stats := stats s |}).

Definition loadRecoveryState : M RecoveryState :=
  fun s => (Returned (recoveryState s), s).

Definition update_stats (f : Stats -> Stats) : M unit :=
  fun s =>
    (Returned tt,
     {| world := world s; recoveryState := recoveryState s;
        stats := f (stats s) |}).

Section Engine.

Variable agents : Collaborators.
Variable options : Options.

(** [this.mainProcessor.maxRetries] *)
Variable processorMaxRetries : Z.

Definition hasFailedAgent (item : Manifest.ProcessingRecord) : bool :=
  existsb (Manifest.is_status Manifest.failed)
    (Manifest.agent_pipeline item).

(** [item.retry_count >= this.options.maxRetries]; an absent
    [retry_count] compares false. *)
Definition hasExceededRetries (item : Manifest.ProcessingRecord) : bool :=
  match Manifest.retry_count item with
  | Some n => maxRetries options <=? n
  | None => false
  end.

Definition isRecent (current : Z) (task : Manifest.ProcessingRecord)
  : bool :=
  current - Manifest.record_started_at task <=? maxFailureAge options.

(** [detectFailedTasks()] *)
Definition detectFailedTasks (current : Z) (doc : Manifest.ManifestDoc)
  : list Manifest.ProcessingRecord :=
  let failedTasks :=
    List.filter (fun item => hasFailedAgent item || hasExceededRetries item)
      (Manifest.getAll doc) in
  if cleanupOldFailures options
  then List.filter (isRecent current) failedTasks
  else failedTasks.

Record Checkpoint := {
  checkpoint : string;
  lastCompletedAgent : option Manifest.AgentEntry;
  resumeFromAgent : option string;
  resumeFromIndex : option nat
}.

(** [findLastCheckpoint(task)].  The first branch returns no
    [resumeFromIndex]. *)
Definition findLastCheckpoint (task : Manifest.ProcessingRecord)
  : Checkpoint :=
  let pipeline := Manifest.agent_pipeline task in
  let completedAgents :=
    List.filter (Manifest.is_status Manifest.completed) pipeline in
  match last completedAgents with
  | None =>
      {| checkpoint := "start";
         lastCompletedAgent := None;
         resumeFromAgent :=
           match pipeline with
           | [] => None
           | first :: _ => truthy_string (Manifest.name first)
           end;
         resumeFromIndex := None |}
  | Some lastCompleted =>
      let lastCompletedIndex :=
        findIndex (Manifest.has_name (Manifest.name lastCompleted))
          pipeline in
      let next :=
        match lastCompletedIndex with
        | Some i => S i
        | None => O
        end in
      {| checkpoint := Manifest.name lastCompleted;
         lastCompletedAgent := Some lastCompleted;
         resumeFromAgent :=
           match nth_error pipeline next with
           | Some resumeFrom => truthy_string (Manifest.name resumeFrom)
           | None => None
           end;
         resumeFromIndex := Some next |}
  end.

(** [array.slice(start)], where [start] may be [undefined]. *)
Definition slice {A} (start : option nat) (l : list A) : list A :=
  match start with
  | Some i => skipn i l
  | None => l
  end.

Definition getRetryCount (workId : string) : M Z :=
  st <~~ loadRecoveryState ;;
  ret (Manifest.or_zero (retries st !! workId)).

Definition incrementRetryCount (workId : string) : M Z :=
  st <~~ loadRecoveryState ;;
  t <~~ now ;;
  let n := Manifest.or_zero (retries st !! workId) + 1 in
  _ <~~ saveRecoveryState
          {| retries := <[workId := n]> (retries st);
             lastRetry := <[workId := t]> (lastRetry st);
             permanentFailures := permanentFailures st |} ;;
  ret n.

Definition hasExceededRetryLimit (workId : string) : M bool :=
  retryCount <~~ getRetryCount workId ;;
  ret (maxRetries options <=? retryCount).

Definition includes_id (workId : string) (l : list string) : bool :=
  existsb (String.eqb workId) l.

(** [markPermanentFailure(workId, reason)] *)
Definition markPermanentFailure (workId : string) : M unit :=
  st <~~ loadRecoveryState ;;
  _ <~~ (if includes_id workId (permanentFailures st) then ret tt
         else saveRecoveryState
                {| retries := retries st;
                   lastRetry := lastRetry st;
                   permanentFailures := permanentFailures st ++ [workId] |}) ;;
  lift (fun w =>
          (Returned tt,
           with_manifest w (snd (Manifest.remove workId (manifest w))))).

(** Lines 246 to 251: the stages of [remainingAgents] that the task
    snapshot shows as failed are set back to pending. *)
Fixpoint resetFailed (workId : string)
    (task : Manifest.ProcessingRecord) (remainingAgents : list string)
  : M unit :=
  match remainingAgents with
  | [] => ret tt
  | agentName :: rest =>
      _ <~~ match find (Manifest.has_name agentName)
                    (Manifest.agent_pipeline task) with
            | Some agent =>
                if Manifest.is_status Manifest.failed agent
                then lift (updateAgent workId agentName
                             Manifest.pending None)
                else ret tt
            | None => ret tt
            end ;;
      resetFailed workId task rest
  end.

Inductive RetryResult :=
| PermanentFailure (workId : string) (error : option string)
| Skipped (workId : string)
| Recovered (workId : string) (duration : Z)
| Failed (workId error : string) (retryCount : Z).

Definition countPermanentFailure (st : Stats) : Stats :=
  {| failuresFound := failuresFound st; recovered := recovered st;
     permanentFailuresCount := permanentFailuresCount st + 1;
     skipped := skipped st; errors := errors st;
     recoveryDetails := recoveryDetails st |}.

Definition countSkipped (st : Stats) : Stats :=
  {| failuresFound := failuresFound st; recovered := recovered st;
     permanentFailuresCount := permanentFailuresCount st;
     skipped := skipped st + 1; errors := errors st;
     recoveryDetails := recoveryDetails st |}.

Definition countRecovered (d : RecoveryDetail) (st : Stats) : Stats :=
  {| failuresFound := failuresFound st; recovered := recovered st + 1;
     permanentFailuresCount := permanentFailuresCount st;
     skipped := skipped st; errors := errors st;
     recoveryDetails := recoveryDetails st ++ [d] |}.

Definition pushError (e : RecoveryError) (st : Stats) : Stats :=
  {| failuresFound := failuresFound st; recovered := recovered st;
     permanentFailuresCount := permanentFailuresCount st;
     skipped := skipped st; errors := errors st ++ [e];
     recoveryDetails := recoveryDetails st |}.

(** [Math.pow(2, retryCount - 1)] for a count of at least 1. *)
Definition backoffDelay (retryCount : Z) : Z :=
  if exponentialBackoff options
  then retryDelay options * 2 ^ (retryCount - 1)
  else retryDelay options.

(** [retryTask(task)] *)
Definition retryTask (task : Manifest.ProcessingRecord) : M RetryResult :=
  let workId := Manifest.work_id task in
  exceeded <~~ hasExceededRetryLimit workId ;;
  if (exceeded : bool) then
    _ <~~ markPermanentFailure workId ;;
    _ <~~ update_stats countPermanentFailure ;;
    ret (PermanentFailure workId None)
  else
    let cp := findLastCheckpoint task in
    match resumeFromAgent cp with
    | None =>
        _ <~~ update_stats countSkipped ;;
        ret (Skipped workId)
    | Some _ =>
        retryCount <~~ incrementRetryCount workId ;;
        _ <~~ lift (sleep (backoffDelay retryCount)) ;;
        let remainingAgents :=
          map Manifest.name
            (slice (resumeFromIndex cp) (Manifest.agent_pipeline task)) in
        _ <~~ resetFailed workId task remainingAgents ;;
        startTime <~~ now ;;
        r <~~ catch (lift (executeAgentPipeline agents processorMaxRetries
                             workId remainingAgents)) ;;
        t <~~ now ;;
        match r with
        | inl _ =>
            _ <~~ update_stats
                    (countRecovered
                       {| detail_work_id := workId;
                          detail_file := Manifest.file_path task;
                          detail_checkpoint := checkpoint cp;
                          detail_retry_count := retryCount;
                          detail_duration_ms := t - startTime;
                          detail_timestamp := t |}) ;;
            ret (Recovered workId (t - startTime))
        | inr message =>
            _ <~~ update_stats
                    (pushError
                       {| error_work_id := workId;
                          error_file := Manifest.file_path task;
                          error_message := message;
                          error_retry_count := retryCount;
                          error_timestamp := t |}) ;;
            if maxRetries options <=? retryCount then
              _ <~~ markPermanentFailure workId ;;
              _ <~~ update_stats countPermanentFailure ;;
              ret (PermanentFailure workId (Some message))
            else ret (Failed workId message retryCount)
        end
    end.

Fixpoint retryEach (tasks : list Manifest.ProcessingRecord) : M unit :=
  match tasks with
  | [] => ret tt
  | task :: rest => _ <~~ retryTask task ;; retryEach rest
  end.

(** [recoverAll()]; the report is read off the final [stats]. *)
Definition recoverAll : M Stats :=
  t <~~ now ;;
  failedTasks <~~ lift (fun w =>
                          (Returned (detectFailedTasks t (manifest w)), w)) ;;
  _ <~~ update_stats
          (fun st =>
             {| failuresFound := Z.of_nat (length failedTasks);
                recovered := recovered st;
                permanentFailuresCount := permanentFailuresCount st;
                skipped := skipped st; errors := errors st;
                recoveryDetails := recoveryDetails st |}) ;;
  _ <~~ retryEach failedTasks ;;
  fun s => (Returned (stats s), s).

(** The test of the [for ... in] loop of [cleanup]. *)
Definition cleanable (doc : Manifest.ManifestDoc) (st : RecoveryState)
    (workId : string) : bool :=
  negb (existsb (Manifest.has_work_id workId) (Manifest.getAll doc))
  && negb (includes_id workId (permanentFailures st)).

(** [cleanup()]: the number of entries cleaned and the state saved. *)
Definition cleanup : M (Z * Z) :=
  st <~~ loadRecoveryState ;;
  doc <~~ lift (fun w => (Returned (manifest w), w)) ;;
  let kept :=
    filter (fun kv => cleanable doc st (fst kv) = false) (retries st) in
  let keptLast :=
    filter (fun kv => ¬ (is_Some (retries st !! fst kv)
                         ∧ cleanable doc st (fst kv) = true))
      (lastRetry st) in
  _ <~~ saveRecoveryState
          {| retries := kept; lastRetry := keptLast;
             permanentFailures := permanentFailures st |} ;;
  ret (Z.of_nat (size (retries st)) - Z.of_nat (size kept),
       Z.of_nat (length (permanentFailures st))).

End Engine.

End Recovery.

(** ** filing-agent.js: the filing agent *)

Module Filing.

(** Node's [path] functions and [fs.existsSync], as
    [generateSafeFilename] calls them. *)
Record PathLib := {
  extname : string -> string;
  basename : string -> string -> string;
  dirname : string -> string;
  join : string -> string -> string;
  existsSync : string -> bool
}.

Section Agent.

Variable lib : PathLib.

(** [path.join(dir, `${base}-${counter}${ext}`)] *)
Definition numbered (destinationPath : string) (counter : Z) : string :=
  let ext := extname lib destinationPath in
  let base := basename lib destinationPath ext in
  let dir := dirname lib destinationPath in
  join lib dir (base +:+ "-" +:+ string_of_Z counter +:+ ext).

(** [while (fs.existsSync(safePath))], lines 120 to 127. *)
Fixpoint safeLoop (fuel : nat) (destinationPath safePath : string)
    (counter : Z) : option string :=
  if existsSync lib safePath then
    match fuel with
    | O => None
    | S fuel' =>
        safeLoop fuel' destinationPath (numbered destinationPath counter)
          (counter + 1)
    end
  else Some safePath.

(** [generateSafeFilename(destinationPath)]; [None] when the fuel runs
    out. *)
Definition generateSafeFilename (fuel : nat) (destinationPath : string)
  : option string :=
  safeLoop fuel destinationPath destinationPath 1.

End Agent.




End Filing.

(** ** batch-processor.js *)

Module Batch.

Import Processor.

(** [this.options], as the sequential mode reads them. *)
Record Options := {
  delayBetweenItems : Z;
  stopOnError : bool
}.

Record BatchError := {
  error_work_id : string;
  error_file : string;
  error_message : string;
  error_timestamp : Z
}.

(** [this.stats] *)
Record Stats := {
  totalItems : Z;
  processed : Z;
  completed : Z;
  failed : Z;
  skipped : Z;
  errors : list BatchError;
  processingTimes : list Z;
  currentBatch : list string
}.

Definition no_stats : Stats :=
  {| totalItems := 0; processed := 0; completed := 0; failed := 0;
     skipped := 0; errors := []; processingTimes := [];
     currentBatch := [] |}.

(** The batch processor on top of the processor's world. *)
Record State := {
  world : World;
  stats : Stats
}.

Definition M (A : Type) : Type := State -> Completion A * State.

Definition with_totalItems (st : Stats) (n : Z) : Stats :=
  {| totalItems := n; processed := processed st; completed := completed st;
     failed := failed st; skipped := skipped st; errors := errors st;
     processingTimes := processingTimes st;
     currentBatch := currentBatch st |}.

Definition with_currentBatch (st : Stats) (l : list string) : Stats :=
  {| totalItems := totalItems st; processed := processed st;
     completed := completed st; failed := failed st; skipped := skipped st;
     errors := errors st; processingTimes := processingTimes st;
     currentBatch := l |}.

(** [processingTimes.push(duration); processed++] *)
Definition countProcessed (duration : Z) (st : Stats) : Stats :=
  {| totalItems := totalItems st; processed := processed st + 1;
     completed := completed st; failed := failed st; skipped := skipped st;
     errors := errors st;
     processingTimes := processingTimes st ++ [duration];
     currentBatch := currentBatch st |}.

Definition countCompleted (st : Stats) : Stats :=
  {| totalItems := totalItems st; processed := processed st;
     completed := completed st + 1; failed := failed st;
     skipped := skipped st; errors := errors st;
     processingTimes := processingTimes st;
     currentBatch := currentBatch st |}.

Definition countFailed (e : BatchError) (st : Stats) : Stats :=
  {| totalItems := totalItems st; processed := processed st;
     completed := completed st; failed := failed st + 1;
     skipped := skipped st; errors := errors st ++ [e];
     processingTimes := processingTimes st;
     currentBatch := currentBatch st |}.

Definition countSkipped (st : Stats) : Stats :=
  {| totalItems := totalItems st; processed := processed st;
     completed := completed st; failed := failed st;
     skipped := skipped st + 1; errors := errors st;
     processingTimes := processingTimes st;
     currentBatch := currentBatch st |}.

(** The [finally] block of [processSingleItem]: the first occurrence of
    the id leaves [currentBatch]. *)
Definition leaveBatch (workId : string) (st : Stats) : Stats :=
  match findIndex (String.eqb workId) (currentBatch st) with
  | Some index => with_currentBatch st (splice1 index (currentBatch st))
  | None => st
  end.

Section Sequential.

Variable agents : Collaborators.

(** [this.mainProcessor.maxRetries] *)
Variable maxRetries : Z.

Variable options : Options.

(** [processSingleItem(workItem)] *)
Definition processSingleItem (workItem : Queue.WorkItem) : M unit :=
  fun s =>
    let startTime := clock (world s) in
    let st0 :=
      with_currentBatch (stats s)
        (currentBatch (stats s) ++ [Queue.id workItem]) in
    match processNext agents maxRetries (world s) with
    | (Returned result, w) =>
        let st1 := countProcessed (clock w - startTime) st0 in
        let st2 :=
          match result with
          | ItemCompleted _ _ => countCompleted st1
          | ItemFailed work_id error =>
              countFailed
                {| error_work_id := work_id;
                   error_file := Queue.path (Queue.file workItem);
                   error_message := error;
                   error_timestamp := clock w |} st1
          | Idle => countSkipped st1
          end in
        (Returned tt,
         {| world := w; stats := leaveBatch (Queue.id workItem) st2 |})
    | (Thrown message, w) =>
        let st1 := countProcessed (clock w - startTime) st0 in
        let st2 :=
          countFailed
            {| error_work_id := Queue.id workItem;
               error_file := Queue.path (Queue.file workItem);
               error_message := message;
               error_timestamp := clock w |} st1 in
        (Returned tt,
         {| world := w; stats := leaveBatch (Queue.id workItem) st2 |})
    | (OutOfFuel, w) => (OutOfFuel, {| world := w; stats := st0 |})
    end.

(** The delay between items, lines 110 to 112. *)
Definition pause : M unit :=
  fun s =>
    if 0 <? delayBetweenItems options
    then (Returned tt,
          {| world := snd (sleep (delayBetweenItems options) (world s));
             stats := stats s |})
    else (Returned tt, s).

(** [processSequential()] *)
Fixpoint processSequential (fuel : nat) : M unit :=
  match fuel with
  | O => fun s => (OutOfFuel, s)
  | S fuel' =>
      fun s =>
        match Queue.getNext (queue_doc (world s)) with
        | None => (Returned tt, s)
        | Some nextWork =>
            match processSingleItem nextWork s with
            | (Returned _, s1) =>
                match pause s1 with
                | (Returned _, s2) =>
                    if stopOnError options && (0 <? failed (stats s2))
                    then (Returned tt, s2)
                    else processSequential fuel' s2
                | (Thrown m, s2) => (Thrown m, s2)
                | (OutOfFuel, s2) => (OutOfFuel, s2)
                end
            | (Thrown m, s1) => (Thrown m, s1)
            | (OutOfFuel, s1) => (OutOfFuel, s1)
            end
        end
  end.

(** [processAll()] with [options.parallel] off; the report is read off
    the final [stats]. *)
Definition processAll (fuel : nat) : M Stats :=
  fun s =>
    let total :=
      Queue.total_items (Queue.getStats (queue_doc (world s))) in
    let s0 := {| world := world s;
                 stats := with_totalItems (stats s) total |} in
    if total =? 0 then (Returned (stats s0), s0)
    else
      match processSequential fuel s0 with
      | (Returned _, s') => (Returned (stats s'), s')
      | (Thrown m, s') => (Thrown m, s')
      | (OutOfFuel, s') => (OutOfFuel, s')
      end.

End Sequential.

End Batch.


(** ** Sample documents and collaborators *)

Module Samples.

Import Queue.

(** A vault in which every path names a readable file. *)
Definition vault : FileSystem :=
  {| isAbsolute := fun _ => false;
     join := fun dir file => dir +:+ "/" +:+ file;
     stat := fun _ => Some {| st_size := 120; st_sha256 := Some "9f2c" |} |}.

Definition gitCommit : Metadata := {| meta_source := Some "git-commit" |}.
Definition webClip : Metadata := {| meta_source := Some "web-clipper" |}.

(** Four files dropped one after the other, two of them in the same
    millisecond. *)
Definition history : list Op :=
  [ Enqueue vault "notes/plan.md" no_metadata;
    Elapse 7;
    Enqueue vault "00_Inbox/idea.md" no_metadata;
    Enqueue vault "clips/article.md" webClip;
    Elapse 3;
    Enqueue vault "00_Inbox/later.md" no_metadata ].

(** Item B (priority 3) queued before item A (priority 1). *)
Definition queueBA : QueueDoc :=
  doc (run "vault"
         [ Enqueue vault "00_Inbox/b.md" no_metadata;
           Elapse 1;
           Enqueue vault "commits/a.md" gitCommit ]
         {| clock := 1000; doc := empty_doc |}).

Definition itemA : WorkItem :=
  {| id := "wq-1001"; type := "git-commit"; priority := 1;
     created_at := 1001;
     file := {| path := "commits/a.md"; size_bytes := 120;
                hash := Some "sha256:9f2c"; source := "git-commit" |};
     required_agents :=
       ["normalization"; "keyword-extraction"; "linking"; "tagging"; "filing"];
     context := gitCommit |}.

Definition itemB : WorkItem :=
  {| id := "wq-1000"; type := "inbox-file"; priority := 3;
     created_at := 1000;
     file := {| path := "00_Inbox/b.md"; size_bytes := 120;
                hash := Some "sha256:9f2c"; source := "unknown" |};
     required_agents :=
       ["normalization"; "keyword-extraction"; "linking"; "filing"];
     context := no_metadata |}.

(** The same path with new content: another size and another hash. *)
Definition changedVault : FileSystem :=
  {| isAbsolute := fun _ => false;
     join := fun dir file => dir +:+ "/" +:+ file;
     stat := fun _ => Some {| st_size := 4096; st_sha256 := Some "07be" |} |}.

(** A ledger built by the manifest's own operations: item B is
    registered, its first stage runs and completes. *)
Definition registered : Manifest.ManifestDoc :=
  snd (Manifest.add 1100 itemB Manifest.empty_doc).

Definition orElse {A} (r : Js.result A) (d : A) : A :=
  match r with
  | Js.Ok a => a
  | Js.Err _ => d
  end.


(** Collaborators: agents that always throw, agents that always
    complete, and agents whose first three executions throw. *)
Definition loaded (filePath : string) : Js.result Processor.DocumentState :=
  Js.Ok {| Processor.doc_path := filePath; Processor.keywords := Some 4;
           Processor.linked_concepts := Some 1; Processor.tags := [] |}.

Definition alwaysFails : Processor.Collaborators :=
  {| Processor.execute := fun _ _ => Processor.Threw "network timeout";
     Processor.loadDocumentState := loaded;
     Processor.dirname := fun _ => "3_Resources/General" |}.

Definition alwaysSucceeds : Processor.Collaborators :=
  {| Processor.execute := fun _ _ => Processor.Completed 5;
     Processor.loadDocumentState := loaded;
     Processor.dirname := fun _ => "3_Resources/General" |}.

Definition failsThrice : Processor.Collaborators :=
  {| Processor.execute :=
       fun n _ => if (n <? 3)%nat then Processor.Threw "network timeout"
                  else Processor.Completed 5;
     Processor.loadDocumentState := loaded;
     Processor.dirname := fun _ => "3_Resources/General" |}.

(** The queue holds B and A; nothing is in flight. *)
Definition idle : Processor.World :=
  {| Processor.queue_doc := queueBA;
     Processor.manifest := Manifest.empty_doc;
     Processor.completionLog := CompletionLog.empty_doc;
     Processor.clock := 2000;
     Processor.executions := O;
     Processor.trace := [] |}.

(** Item B has been dispatched and registered. *)
Definition inFlight : Processor.World :=
  {| Processor.queue_doc := Queue.empty_doc;
     Processor.manifest := registered;
     Processor.completionLog := CompletionLog.empty_doc;
     Processor.clock := 1100;
     Processor.executions := O;
     Processor.trace := [] |}.


Fixpoint applyAll (updates : list (Manifest.ManifestDoc
                                   -> Js.result Manifest.ManifestDoc))
    (d : Manifest.ManifestDoc) : Manifest.ManifestDoc :=
  match updates with
  | [] => d
  | u :: rest => applyAll rest (orElse (u d) d)
  end.

(** The ledger of the failure simulation: two stages completed, the
    third failed, the fourth pending. *)
Definition stuck : Manifest.ManifestDoc :=
  applyAll
    [ Manifest.updateAgent 1101 "wq-1000" "normalization"
        Manifest.in_progress None;
      Manifest.updateAgent 1106 "wq-1000" "normalization"
        Manifest.completed (Some (Manifest.AgentResult 5 None));
      Manifest.updateAgent 1107 "wq-1000" "keyword-extraction"
        Manifest.in_progress None;
      Manifest.updateAgent 1122 "wq-1000" "keyword-extraction"
        Manifest.completed (Some (Manifest.AgentResult 15 None));
      Manifest.updateAgent 1123 "wq-1000" "linking"
        Manifest.in_progress None;
      Manifest.updateAgent 1125 "wq-1000" "linking"
        Manifest.failed
        (Some (Manifest.ErrorInfo "network timeout" "Error: network timeout")) ]
    registered.

Definition recovering (ledger : Manifest.ManifestDoc) : Recovery.State :=
  {| Recovery.world :=
       {| Processor.queue_doc := Queue.empty_doc;
          Processor.manifest := ledger;
          Processor.completionLog := CompletionLog.empty_doc;
          Processor.clock := 5000;
          Processor.executions := O;
          Processor.trace := [] |};
     Recovery.recoveryState := Recovery.default_state;
     Recovery.stats := Recovery.no_stats |}.

(** The first record of a ledger, as [detectFailedTasks] hands it on. *)
Definition firstTask (d : Manifest.ManifestDoc) : Manifest.ProcessingRecord :=
  match Manifest.current_processing d with
  | task :: _ => task
  | [] => fst (Manifest.add 0 itemB Manifest.empty_doc)
  end.

(** A run interrupted in its second stage, after the first stage needed
    three retries before it completed. *)
Definition stalled : Manifest.ManifestDoc :=
  applyAll
    [ Manifest.updateAgent 1101 "wq-1000" "normalization"
        Manifest.in_progress None;
      fun d => Js.bind (Manifest.incrementRetry "wq-1000" d)
                 (fun r => Js.Ok (snd r));
      fun d => Js.bind (Manifest.incrementRetry "wq-1000" d)
                 (fun r => Js.Ok (snd r));
      fun d => Js.bind (Manifest.incrementRetry "wq-1000" d)
                 (fun r => Js.Ok (snd r));
      Manifest.updateAgent 7106 "wq-1000" "normalization"
        Manifest.completed (Some (Manifest.AgentResult 5 None));
      Manifest.updateAgent 7107 "wq-1000" "keyword-extraction"
        Manifest.in_progress None ]
    registered.



(** Every stage of item B has run: three completed, one skipped. *)
Definition allDone : Manifest.ManifestDoc :=
  applyAll
    [ Manifest.updateAgent 1106 "wq-1000" "normalization"
        Manifest.completed (Some (Manifest.AgentResult 5 None));
      Manifest.updateAgent 1107 "wq-1000" "keyword-extraction"
        Manifest.skipped None;
      Manifest.updateAgent 1125 "wq-1000" "linking"
        Manifest.completed (Some (Manifest.AgentResult 9 None));
      Manifest.updateAgent 1130 "wq-1000" "filing"
        Manifest.completed (Some (Manifest.AgentResult 2 None)) ]
    registered.

(** A completion log of three dispatches, the middle one logged last. *)
Definition done (workId filePath : string) (finished : Z)
  : CompletionLog.CompletionRecord :=
  {| CompletionLog.work_id := workId;
     CompletionLog.file_path := filePath;
     CompletionLog.final_path := "3_Resources/General/" +:+ filePath;
     CompletionLog.started_at_rec := finished - 40;
     CompletionLog.completed_at_rec := finished;
     CompletionLog.total_duration_ms := 40;
     CompletionLog.agents_executed := [];
     CompletionLog.metadata :=
       {| Manifest.final_path := "3_Resources/General/" +:+ filePath;
          Manifest.keywords_extracted := 4;
          Manifest.links_created := 1;
          Manifest.tags_added := [];
          Manifest.destination_folder := "3_Resources/General" |};
     CompletionLog.errors := [];
     CompletionLog.retries := 0 |}.

Definition threeDone : CompletionLog.LogDoc :=
  {| CompletionLog.version := "1.0";
     CompletionLog.completed :=
       [ done "wq-1000" "b.md" 1040;
         done "wq-3000" "c.md" 3040;
         done "wq-2000" "a.md" 2040 ] |}.

Definition lastTwo : CompletionLog.Filters :=
  {| CompletionLog.start_date := None;
     CompletionLog.end_date := None;
     CompletionLog.filter_work_id := None;
     CompletionLog.file_path_pattern := Some ".md";
     CompletionLog.has_errors := false;
     CompletionLog.has_retries := false;
     CompletionLog.limit := Some 2 |}.

(** A folder that holds [a.md] and [a-1.md]. *)
Definition notesFolder : Filing.PathLib :=
  {| Filing.extname := fun _ => ".md";
     Filing.basename := fun _ _ => "a";
     Filing.dirname := fun _ => "notes";
     Filing.join := fun dir file => dir +:+ "/" +:+ file;
     Filing.existsSync :=
       fun p => String.eqb p "notes/a.md" || String.eqb p "notes/a-1.md" |}.

(** Two files queued within the same millisecond: both get the id
    [wq-1000]. *)
Definition sameMillisecond : QueueDoc :=
  doc (run "vault"
         [ Enqueue vault "00_Inbox/b.md" no_metadata;
           Enqueue vault "commits/a.md" gitCommit ]
         {| clock := 1000; doc := empty_doc |}).

Definition itemA' : WorkItem :=
  {| id := "wq-1000"; type := "git-commit"; priority := 1;
     created_at := 1000;
     file := {| path := "commits/a.md"; size_bytes := 120;
                hash := Some "sha256:9f2c"; source := "git-commit" |};
     required_agents :=
       ["normalization"; "keyword-extraction"; "linking"; "tagging"; "filing"];
     context := gitCommit |}.

End Samples.

(** * Properties *)

(** ** The work queue *)

Module QueueFacts.

Import Queue.



Lemma sort_insert_hd {A} (compare : A -> A -> Z) x sorted :
  hd_error (Js.sort_insert compare x sorted) =
  Some match sorted with
       | [] => x
       | y :: _ => if compare x y <=? 0 then x else y
       end.
Proof.
  destruct sorted as [|y rest]; simpl; [reflexivity|].
  destruct (compare x y <=? 0); reflexivity.
Qed.

(** The head of the sorted copy is the first item, in queue order, of
    the smallest priority. *)
Lemma sort_hd_first_min (l : list WorkItem) :
  match hd_error (Js.sort by_priority l) with
  | None => l = []
  | Some m =>
      exists before after,
        l = before ++ m :: after
        /\ Forall (fun o => priority m < priority o) before
        /\ Forall (fun o => priority m <= priority o) after
  end.
Proof.
  induction l as [|x l IH]; simpl; [reflexivity|].
  rewrite sort_insert_hd.
  destruct (Js.sort by_priority l) as [|y s] eqn:Hs; simpl in IH.
  - subst l. exists [], []. repeat split; constructor.
  - destruct IH as (before & after & Hl & Hb & Ha).
    unfold by_priority.
    destruct (priority x - priority y <=? 0) eqn:Hc.
    + apply Z.leb_le in Hc. exists [], l. repeat split; [constructor|].
      rewrite Hl. apply Forall_app; split.
      * eapply List.Forall_impl; [|exact Hb]. simpl; intros; lia.
      * constructor; [lia|].
        eapply List.Forall_impl; [|exact Ha]. simpl; intros; lia.
    + apply Z.leb_gt in Hc. exists (x :: before), after.
      rewrite Hl. repeat split; [|exact Ha].
      constructor; [lia|exact Hb].
Qed.

Lemma splice1_cons {A} (x : A) l index :
  Js.splice1 (S index) (x :: l) = x :: Js.splice1 index l.
Proof. reflexivity. Qed.

Lemma splice1_incl {A} (l : list A) index y :
  In y (Js.splice1 index l) -> In y l.
Proof.
  revert index; induction l as [|x l IH]; intros [|i] Hy;
    try (exact Hy); try (right; exact Hy).
  rewrite splice1_cons in Hy. destruct Hy as [->|Hy]; [now left|].
  right; eauto.
Qed.






Lemma getNext_spec (d : QueueDoc) :
  match getNext d with
  | None => queue d = []
  | Some m =>
      exists before after,
        queue d = before ++ m :: after
        /\ Forall (fun o => priority m < priority o) before
        /\ Forall (fun o => priority m <= priority o) after
  end.
Proof.
  unfold getNext. destruct (queue d) as [|x l] eqn:Hq; [reflexivity|].
  change (length (x :: l) =? 0)%nat with false. cbv iota.
  pose proof (sort_hd_first_min (x :: l)) as H.
  destruct (hd_error (Js.sort by_priority (x :: l))); [exact H|discriminate].
Qed.


Lemma findIndex_nth {A} (p : A -> bool) (l : list A) index :
  Js.findIndex p l = Some index ->
  exists x, nth_error l index = Some x /\ p x = true.
Proof.
  revert index; induction l as [|y l IH]; intros index H; simpl in H.
  - discriminate.
  - destruct (p y) eqn:Hy.
    + injection H as <-. exists y. split; [reflexivity|exact Hy].
    + destruct (Js.findIndex p l) as [i|]; [|discriminate].
      injection H as <-. simpl. apply IH. reflexivity.
Qed.

Lemma findIndex_found {A} (p : A -> bool) (l : list A) x :
  In x l -> p x = true -> exists index, Js.findIndex p l = Some index.
Proof.
  induction l as [|y l IH]; intros Hin Hp; [destruct Hin|]. simpl.
  destruct (p y) eqn:Hy; [eexists; reflexivity|].
  destruct Hin as [->|Hin]; [congruence|].
  destruct (IH Hin Hp) as [i ->]. eexists; reflexivity.
Qed.

Lemma splice1_length {A} (l : list A) index x :
  nth_error l index = Some x -> length l = S (length (Js.splice1 index l)).
Proof.
  revert index; induction l as [|y l IH]; intros [|i] H; try discriminate.
  - reflexivity.
  - rewrite splice1_cons. simpl. f_equal. apply IH. exact H.
Qed.

(** With distinct keys, what [splice] takes out at an index is the only
    item of its key. *)
Lemma splice1_removes {A B} (f : A -> B) (l : list A) index x :
  List.NoDup (map f l) -> nth_error l index = Some x ->
  forall y, In y (Js.splice1 index l) -> f y <> f x.
Proof.
  revert index; induction l as [|z l IH]; intros [|i] Hnd Hn y Hy;
    try discriminate.
  - injection Hn as ->. inversion Hnd as [|? ? Hnot _]; subst.
    intros Heq. apply Hnot. rewrite <- Heq. apply in_map. exact Hy.
  - rewrite splice1_cons in Hy. inversion Hnd as [|? ? Hnot Hnd']; subst.
    simpl in Hn. destruct Hy as [<-|Hy].
    + intros Heq. apply Hnot. rewrite Heq. apply in_map.
      eapply nth_error_In; exact Hn.
    + eapply IH; eassumption.
Qed.

Lemma nodup_id_eq (l : list WorkItem) x y :
  List.NoDup (map id l) -> In x l -> In y l -> id x = id y -> x = y.
Proof.
  induction l as [|z l IH]; intros Hnd Hx Hy Heq; [destruct Hx|].
  inversion Hnd as [|? ? Hnot Hnd']; subst.
  destruct Hx as [->|Hx], Hy as [->|Hy].
  - reflexivity.
  - exfalso. apply Hnot. rewrite Heq. apply in_map; exact Hy.
  - exfalso. apply Hnot. rewrite <- Heq. apply in_map; exact Hx.
  - apply IH; assumption.
Qed.

Definition pathOf (item : WorkItem) : string := path (file item).

(** No path is queued twice. *)
Definition uniquePaths (d : QueueDoc) : Prop :=
  List.NoDup (map pathOf (queue d)).

Lemma nodup_splice1 {A} (l : list A) index :
  List.NoDup l -> List.NoDup (Js.splice1 index l).
Proof.
  intros H. revert index.
  induction H as [|x l Hx Hl IH]; intros [|i];
    try (constructor; fail); try exact Hl.
  rewrite splice1_cons. constructor; [|apply IH].
  intros Hin. apply Hx. eapply splice1_incl; exact Hin.
Qed.

Lemma nodup_snoc {A} (l : list A) x :
  List.NoDup l -> ~ In x l -> List.NoDup (l ++ [x]).
Proof.
  induction 1 as [|y l Hy Hl IH]; simpl; intros Hx.
  - constructor; [intros []|constructor].
  - constructor.
    + intros Hin. apply in_app_or in Hin. destruct Hin as [Hin|[->|[]]].
      * exact (Hy Hin).
      * apply Hx. left. reflexivity.
    + apply IH. intros Hin. apply Hx. right. exact Hin.
Qed.

Lemma map_splice1_queue {A B} (f : A -> B) index (l : list A) :
  map f (Js.splice1 index l) = Js.splice1 index (map f l).
Proof.
  unfold Js.splice1. rewrite map_app, firstn_map, skipn_map. reflexivity.
Qed.

(** [addToQueue] admits a path only when it is not queued, and the
    removals keep what is left: every queue that the manager builds has
    unique paths. *)
Lemma step_uniquePaths vaultPath st op :
  uniquePaths (doc st) -> uniquePaths (doc (step vaultPath st op)).
Proof.
  unfold uniquePaths. intros H.
  destruct op as [fs filePath metadata|wid|wid|ms]; simpl; [| | |exact H].
  - unfold addToQueue.
    destruct (existsb (path_matches filePath) (queue (doc st))) eqn:Hex;
      [exact H|].
    destruct (stat fs _); [|exact H]. simpl.
    rewrite map_app. simpl. apply nodup_snoc; [exact H|].
    intros Hin. apply in_map_iff in Hin. destruct Hin as (item & Hp & Hin).
    assert (existsb (path_matches filePath) (queue (doc st)) = true);
      [|congruence].
    apply existsb_exists. exists item. split; [exact Hin|].
    unfold path_matches. unfold pathOf in Hp. rewrite Hp.
    apply String.eqb_refl.
  - unfold remove. destruct (Js.findIndex _ _); [|exact H]. simpl.
    rewrite map_splice1_queue. apply nodup_splice1. exact H.
  - unfold startProcessing. destruct (Js.findIndex _ _); [|exact H].
    destruct (nth_error _ _); [|exact H]. simpl.
    rewrite map_splice1_queue. apply nodup_splice1. exact H.
Qed.

Lemma run_uniquePaths vaultPath ops (t0 : Z) :
  uniquePaths (doc (run vaultPath ops {| clock := t0; doc := empty_doc |})).
Proof.
  unfold run.
  assert (H : uniquePaths (doc {| clock := t0; doc := empty_doc |}))
    by constructor.
  revert H. generalize {| clock := t0; doc := empty_doc |}.
  induction ops as [|op ops IH]; intros st H; simpl; [exact H|].
  apply IH. apply step_uniquePaths. exact H.
Qed.

(** C8.  On a queue that holds no path twice (as every queue built by
    the manager does, [run_uniquePaths]), the dequeue of [processNext]
    ([getNext] followed by [startProcessing] of the id it returned)
    reports an empty queue when there is nothing queued, and otherwise
    returns a queued item together with the saved queue, which no longer
    contains that item: it is one item shorter and keeps only items that
    were queued before.  When the ids of the queue are distinct, the item
    returned is the one that [getNext] selects. *)
Theorem dequeueNext_removes_returned (now : Z) (d : QueueDoc) :
  uniquePaths d ->
  match queue d with
  | [] => dequeueNext now d = Ok None
  | _ :: _ =>
      exists item d',
        dequeueNext now d = Ok (Some (item, d'))
        /\ In item (queue d)
        /\ ~ In item (queue d')
        /\ length (queue d) = S (length (queue d'))
        /\ (forall other, In other (queue d') -> In other (queue d))
        /\ (List.NoDup (map id (queue d)) -> getNext d = Some item)
  end.
Proof.
  intros Hpaths. pose proof (getNext_spec d) as Hnext. unfold dequeueNext.
  unfold uniquePaths in Hpaths.
  destruct (queue d) as [|x l] eqn:Hq.
  - unfold getNext. rewrite Hq. reflexivity.
  - rewrite <- Hq in Hpaths.
    destruct (getNext d) as [next|]; [|discriminate].
    destruct Hnext as (before & after & Hl & _).
    assert (Hin : In next (queue d))
      by (rewrite Hq, Hl; apply in_or_app; right; left; reflexivity).
    unfold startProcessing.
    destruct (findIndex_found (has_id (id next)) (queue d) next Hin
                (String.eqb_refl _)) as [index Hindex].
    rewrite Hindex.
    destruct (findIndex_nth _ _ _ Hindex) as (item & Hnth & Hid).
    rewrite Hnth. apply String.eqb_eq in Hid.
    assert (Hitem : In item (queue d)) by (eapply nth_error_In; exact Hnth).
    exists item, {| version := version d; last_updated := Some now;
                    queue := Js.splice1 index (queue d) |}.
    simpl. split; [reflexivity|].
    split; [change (In item (x :: l)); rewrite <- Hq; exact Hitem|].
    split; [|split; [|split]].
    + intros Hbad.
      apply (splice1_removes pathOf (queue d) index item Hpaths Hnth item Hbad).
      reflexivity.
    + rewrite <- (f_equal (@length _) Hq : length (queue d) = S (length l)).
      eapply splice1_length; exact Hnth.
    + intros other Hother. change (In other (x :: l)). rewrite <- Hq.
      eapply splice1_incl; exact Hother.
    + intros Hids. f_equal. symmetry.
      assert (Hids' : List.NoDup (map id (queue d)))
        by (rewrite Hq; exact Hids).
      apply (nodup_id_eq (queue d)); assumption.
Qed.


Lemma dequeueNext_removes_returned_witness :
  uniquePaths Samples.queueBA
  /\ exists d1 d2,
       dequeueNext 2000 Samples.queueBA = Ok (Some (Samples.itemA, d1))
       /\ length (queue d1) = 1%nat
       /\ ~ In Samples.itemA (queue d1)
       /\ dequeueNext 2001 d1 = Ok (Some (Samples.itemB, d2))
       /\ dequeueNext 2002 d2 = Ok None.
Proof.
  assert (H : uniquePaths Samples.queueBA).
  { unfold uniquePaths. vm_compute.
    repeat constructor; simpl; intuition discriminate. }
  split; [exact H|].
  pose proof (dequeueNext_removes_returned 2000 Samples.queueBA H) as Hd.
  change (queue Samples.queueBA) with [Samples.itemB; Samples.itemA] in Hd.
  destruct Hd as (item & d1 & Hdeq & _ & Hnot & Hlen & _).
  assert (Hrun : dequeueNext 2000 Samples.queueBA
                 = Ok (Some (Samples.itemA,
                             {| version := "1.0"; last_updated := Some 2000;
                                queue := [Samples.itemB] |})))
    by reflexivity.
  rewrite Hrun in Hdeq. injection Hdeq as <- <-.
  eexists _, _. split; [exact Hrun|].
  split; [reflexivity|]. split; [exact Hnot|]. split; reflexivity.
Defined.

(** C9.  When the queue already holds an item with the given path,
    [addToQueue] returns [null] and leaves the queue document as it was
    (same items, same length, nothing saved), whatever the file system
    says about the file (its existence, size and content hash) and
    whatever the metadata. *)
Theorem addToQueue_same_path_noop (fs : FileSystem) (vaultPath : string)
    (now : Z) (filePath : string) (metadata : Metadata) (d : QueueDoc) :
  (exists item, In item (queue d) /\ path (file item) = filePath) ->
  addToQueue fs vaultPath now filePath metadata d = (None, d).
Proof.
  intros (item & Hin & Hpath). unfold addToQueue.
  assert (existsb (path_matches filePath) (queue d) = true) as ->.
  { apply existsb_exists. exists item. split; [exact Hin|].
    unfold path_matches. rewrite Hpath. apply String.eqb_refl. }
  reflexivity.
Qed.

Lemma addToQueue_same_path_noop_witness :
  (exists item, In item (queue Samples.queueBA)
                /\ path (file item) = "00_Inbox/b.md")
  /\ addToQueue Samples.changedVault "vault" 5000 "00_Inbox/b.md"
       Samples.gitCommit Samples.queueBA = (None, Samples.queueBA).
Proof.
  assert (H : exists item, In item (queue Samples.queueBA)
                           /\ path (file item) = "00_Inbox/b.md").
  { exists Samples.itemB. split; [left; reflexivity|reflexivity]. }
  split; [exact H|].
  exact (addToQueue_same_path_noop Samples.changedVault "vault" 5000
           "00_Inbox/b.md" Samples.gitCommit Samples.queueBA H).
Defined.

(** The match is on the path alone: a file with the content hash of a
    queued item, at a path that is not queued, is admitted. *)
Lemma addToQueue_other_path_admitted fs vaultPath now filePath metadata d :
  (forall item, In item (queue d) -> path (file item) <> filePath) ->
  isAbsolute fs filePath = true ->
  stat fs filePath <> None ->
  length (queue (snd (addToQueue fs vaultPath now filePath metadata d)))
  = S (length (queue d)).
Proof.
  intros Hfresh Habs Hstat. unfold addToQueue.
  assert (existsb (path_matches filePath) (queue d) = false) as ->.
  { apply not_true_is_false. intros H. apply existsb_exists in H.
    destruct H as (item & Hin & Hm). apply (Hfresh item Hin).
    apply String.eqb_eq. exact Hm. }
  rewrite Habs. destruct (stat fs filePath); [|congruence].
  simpl. rewrite length_app. simpl. lia.
Qed.

(** The stage list that [addToQueue] computes has no repeated name. *)
Lemma determineAgents_distinct filePath metadata :
  List.NoDup (determineAgents filePath metadata).
Proof.
  unfold determineAgents.
  repeat match goal with
         | |- context [if ?c then _ else _] => destruct c
         end;
    repeat constructor; simpl; intuition discriminate.
Qed.

Lemma addToQueue_distinct_agents fs vaultPath now filePath metadata d :
  Forall (fun item => List.NoDup (required_agents item)) (queue d) ->
  Forall (fun item => List.NoDup (required_agents item))
    (queue (snd (addToQueue fs vaultPath now filePath metadata d))).
Proof.
  intros H. unfold addToQueue.
  destruct (existsb _ _); [exact H|].
  destruct (stat fs _); [|exact H]. simpl.
  apply List.Forall_app. split; [exact H|].
  constructor; [apply determineAgents_distinct|constructor].
Qed.

End QueueFacts.


(** ** The processing manifest *)

Module ManifestFacts.

Import Manifest.

(** The status that the ledger holds for a stage of an item: of the first
    record with the work id, the first stage with the name. *)
Definition stageStatus (workId agentName : string) (doc : ManifestDoc)
  : option Status :=
  match get workId doc with
  | Some processing =>
      option_map status
        (find (has_name agentName) (agent_pipeline processing))
  | None => None
  end.

Definition ids (doc : ManifestDoc) : list string :=
  map work_id (current_processing doc).

Lemma find_replace_first {A} (p : A -> bool) x (l : list A) y :
  find p l = Some y -> p x = true -> find p (replace_first p x l) = Some x.
Proof.
  induction l as [|z l IH]; simpl; [discriminate|].
  destruct (p z) eqn:Hz; intros Hy Hx.
  - simpl. rewrite Hx. reflexivity.
  - simpl. rewrite Hz. apply IH; assumption.
Qed.

Lemma map_replace_first {A B} (f : A -> B) (p : A -> bool) x (l : list A) y :
  find p l = Some y -> f x = f y ->
  map f (replace_first p x l) = map f l.
Proof.
  induction l as [|z l IH]; simpl; [discriminate|].
  destruct (p z) eqn:Hz; intros Hy Hx.
  - injection Hy as ->. simpl. rewrite Hx. reflexivity.
  - simpl. f_equal. apply IH; assumption.
Qed.

Lemma set_status_name now st o a : name (set_status now st o a) = name a.
Proof. destruct st; reflexivity. Qed.

Lemma set_status_status now st o a : status (set_status now st o a) = st.
Proof. destruct st; reflexivity. Qed.

Lemma find_has_name agentName l a :
  find (has_name agentName) l = Some a -> name a = agentName.
Proof.
  intros H. apply find_some in H. destruct H as [_ H].
  apply String.eqb_eq. exact H.
Qed.

Lemma find_has_work_id workId l p :
  find (has_work_id workId) l = Some p -> work_id p = workId.
Proof.
  intros H. apply find_some in H. destruct H as [_ H].
  apply String.eqb_eq. exact H.
Qed.

(** What a successful [updateAgent] leaves behind. *)
Lemma updateAgent_ok now workId agentName st o doc doc' :
  updateAgent now workId agentName st o doc = Ok doc' ->
  stageStatus workId agentName doc <> None
  /\ stageStatus workId agentName doc' = Some st
  /\ ids doc' = ids doc.
Proof.
  unfold updateAgent, stageStatus, get, ids.
  destruct (find (has_work_id workId) (current_processing doc))
    as [processing|] eqn:Hp; [|discriminate].
  destruct (find (has_name agentName) (agent_pipeline processing))
    as [agent|] eqn:Ha; [|discriminate].
  intros H. injection H as <-. simpl.
  pose proof (find_has_work_id _ _ _ Hp) as Hid.
  pose proof (find_has_name _ _ _ Ha) as Hname.
  split; [discriminate|]. split.
  - erewrite find_replace_first;
      [|exact Hp|unfold has_work_id; simpl; rewrite Hid; apply String.eqb_refl].
    simpl. erewrite find_replace_first;
      [|exact Ha|unfold has_name; rewrite set_status_name, Hname;
                 apply String.eqb_refl].
    simpl. rewrite set_status_status. reflexivity.
  - eapply map_replace_first; [exact Hp|reflexivity].
Qed.

Lemma updateAgent_err now workId agentName st o doc message :
  updateAgent now workId agentName st o doc = Err message ->
  stageStatus workId agentName doc = None.
Proof.
  unfold updateAgent, stageStatus, get.
  destruct (find (has_work_id workId) (current_processing doc))
    as [processing|]; [|reflexivity].
  destruct (find (has_name agentName) (agent_pipeline processing));
    [discriminate|reflexivity].
Qed.

Lemma findIndex_map {A B} (f : A -> B) (p : B -> bool) (l : list A) :
  findIndex (fun x => p (f x)) l = findIndex p (map f l).
Proof.
  induction l as [|x l IH]; simpl; [reflexivity|].
  destruct (p (f x)); [reflexivity|]. rewrite IH. reflexivity.
Qed.

Lemma map_splice1 {A B} (f : A -> B) index (l : list A) :
  map f (splice1 index l) = splice1 index (map f l).
Proof.
  unfold splice1. rewrite map_app, firstn_map, skipn_map. reflexivity.
Qed.

Lemma findIndex_app_first {A} (q : A -> bool) l1 a l2 :
  (forall y, In y l1 -> q y = false) -> q a = true ->
  findIndex q (l1 ++ a :: l2) = Some (length l1).
Proof.
  induction l1 as [|x l1 IH]; simpl; intros Hl1 Ha.
  - rewrite Ha. reflexivity.
  - rewrite (Hl1 x (or_introl eq_refl)). rewrite IH; auto.
Qed.

Lemma splice1_last {A} (l : list A) x : splice1 (length l) (l ++ [x]) = l.
Proof.
  unfold splice1. rewrite firstn_app, firstn_all, Nat.sub_diag. simpl.
  rewrite app_nil_r. change (l ++ skipn (S (length l)) (l ++ [x]) = l).
  rewrite skipn_all2 by (rewrite length_app; simpl; lia).
  apply app_nil_r.
Qed.

(** The ids that [remove] leaves: the first occurrence of the id is
    taken out. *)
Lemma ids_remove workId doc :
  ids (snd (remove workId doc))
  = match findIndex (fun i => String.eqb i workId) (ids doc) with
    | Some index => splice1 index (ids doc)
    | None => ids doc
    end.
Proof.
  unfold remove, has_work_id, ids.
  rewrite (findIndex_map work_id (fun i => String.eqb i workId)).
  destruct (findIndex _ (map work_id (current_processing doc)));
    simpl; [|reflexivity].
  apply map_splice1.
Qed.

Lemma not_in_ids_get workId doc :
  ~ In workId (ids doc) -> get workId doc = None.
Proof.
  unfold ids, get. intros Hnot.
  destruct (find (has_work_id workId) (current_processing doc)) as [p|] eqn:H;
    [|reflexivity].
  exfalso. apply Hnot. apply find_some in H. destruct H as [Hin Hid].
  apply String.eqb_eq in Hid. rewrite <- Hid. apply in_map. exact Hin.
Qed.

(** The ledger never writes [retry_count]: records are created without
    it and the updates keep it as it is. *)
Definition noRetryCount (doc : ManifestDoc) : Prop :=
  Forall (fun p => retry_count p = None) (current_processing doc).

Lemma replace_first_Forall {A} (P : A -> Prop) (q : A -> bool) x l :
  P x -> Forall P l -> Forall P (replace_first q x l).
Proof.
  intros Hx Hl. induction Hl as [|y l Hy Hl IH]; simpl; [constructor|].
  destruct (q y); constructor; assumption.
Qed.

Lemma add_noRetryCount now item doc :
  noRetryCount doc -> noRetryCount (snd (add now item doc)).
Proof.
  unfold noRetryCount. simpl. intros H.
  apply List.Forall_app. split; [exact H|]. repeat constructor.
Qed.

Lemma updateAgent_noRetryCount now workId agentName st o doc doc' :
  updateAgent now workId agentName st o doc = Ok doc' ->
  noRetryCount doc -> noRetryCount doc'.
Proof.
  unfold updateAgent, noRetryCount.
  destruct (find (has_work_id workId) (current_processing doc))
    as [processing|] eqn:Hp; [|discriminate].
  destruct (find (has_name agentName) (agent_pipeline processing));
    [|discriminate].
  intros H Hall. injection H as <-. simpl.
  apply replace_first_Forall; [|exact Hall]. simpl.
  apply find_some in Hp. destruct Hp as [Hin _].
  exact (proj1 (List.Forall_forall _ _) Hall _ Hin).
Qed.

Lemma incrementRetry_noRetryCount workId doc n doc' :
  incrementRetry workId doc = Ok (n, doc') ->
  noRetryCount doc -> noRetryCount doc'.
Proof.
  unfold incrementRetry, noRetryCount.
  destruct (find (has_work_id workId) (current_processing doc))
    as [p|] eqn:Hp; [|discriminate].
  intros H Hall. injection H as <- <-. simpl.
  apply replace_first_Forall; [|exact Hall]. simpl.
  apply find_some in Hp. destruct Hp as [Hin _].
  exact (proj1 (List.Forall_forall _ _) Hall _ Hin).
Qed.

(** Records registered from queued items have distinct stage names, and
    the updates of the ledger keep the names. *)
Definition distinctStages (doc : ManifestDoc) : Prop :=
  Forall (fun p => List.NoDup (map name (agent_pipeline p)))
    (current_processing doc).

Lemma add_distinctStages now item doc :
  List.NoDup (Queue.required_agents item) ->
  distinctStages doc -> distinctStages (snd (add now item doc)).
Proof.
  unfold distinctStages. simpl. intros Hitem H.
  apply List.Forall_app. split; [exact H|].
  constructor; [|constructor]. simpl.
  rewrite map_map. simpl. rewrite map_id. exact Hitem.
Qed.

Lemma updateAgent_distinctStages now workId agentName st o doc doc' :
  updateAgent now workId agentName st o doc = Ok doc' ->
  distinctStages doc -> distinctStages doc'.
Proof.
  unfold updateAgent, distinctStages.
  destruct (find (has_work_id workId) (current_processing doc))
    as [processing|] eqn:Hp; [|discriminate].
  destruct (find (has_name agentName) (agent_pipeline processing))
    as [agent|] eqn:Ha; [|discriminate].
  intros H Hall. injection H as <-. simpl.
  apply replace_first_Forall; [|exact Hall]. simpl.
  rewrite (map_replace_first name _ _ _ agent Ha (set_status_name _ _ _ _)).
  apply find_some in Hp. destruct Hp as [Hin _].
  exact (proj1 (List.Forall_forall _ _) Hall _ Hin).
Qed.

(** How a call of the executor's [updateAgent] ends. *)
Lemma updateAgent_outcome workId agentName st o (w : Processor.World) :
  match Processor.updateAgent workId agentName st o w with
  | (Processor.Returned _, w') =>
      stageStatus workId agentName (Processor.manifest w) <> None
      /\ stageStatus workId agentName (Processor.manifest w') = Some st
  | (Processor.Thrown _, w') =>
      stageStatus workId agentName (Processor.manifest w) = None /\ w' = w
  | (Processor.OutOfFuel, _) => False
  end.
Proof.
  unfold Processor.updateAgent.
  destruct (updateAgent (Processor.clock w) workId agentName st o
              (Processor.manifest w)) as [doc'|message] eqn:H.
  - apply updateAgent_ok in H. destruct H as (H1 & H2 & _).
    split; assumption.
  - apply updateAgent_err in H. split; [exact H|reflexivity].
Qed.



End ManifestFacts.

(** ** The pipeline executor *)

Module ProcessorFacts.

Import Processor ManifestFacts.

Fixpoint attempts (events : list Event) : nat :=
  match events with
  | [] => O
  | Attempt _ :: rest => S (attempts rest)
  | Sleep _ :: rest => attempts rest
  end.


(** The history of one stage: attempts of that stage only, with a wait
    between one attempt and the next. *)
Inductive stageRun (agentName : string) : list Event -> Prop :=
| run_once : stageRun agentName [Attempt agentName]
| run_again ms events :
    stageRun agentName events ->
    stageRun agentName (Attempt agentName :: Sleep ms :: events).

Definition ofStages (stages : list string) (e : Event) : Prop :=
  match e with
  | Attempt agentName => In agentName stages
  | Sleep _ => True
  end.

(** What no run of the executor touches: which records the ledger
    holds, the queue and the completion log. *)
Definition frame (w w' : World) : Prop :=
  ids (manifest w') = ids (manifest w)
  /\ queue_doc w' = queue_doc w
  /\ completionLog w' = completionLog w.

Lemma frame_refl w : frame w w.
Proof. repeat split. Qed.

Lemma frame_trans w1 w2 w3 : frame w1 w2 -> frame w2 w3 -> frame w1 w3.
Proof.
  intros (A1 & A2 & A3) (B1 & B2 & B3).
  repeat split; etransitivity; eassumption.
Qed.

Lemma bind_returned {A B} (c : M A) (k : A -> M B) w a w' :
  c w = (Returned a, w') -> bind c k w = k a w'.
Proof. intros H. unfold bind. rewrite H. reflexivity. Qed.

Lemma bind_thrown {A B} (c : M A) (k : A -> M B) w m w' :
  c w = (Thrown m, w') -> bind c k w = (Thrown m, w').
Proof. intros H. unfold bind. rewrite H. reflexivity. Qed.

Lemma sleep_spec ms w :
  exists w',
    sleep ms w = (Returned tt, w')
    /\ trace w' = trace w ++ [Sleep ms]
    /\ frame w w'
    /\ manifest w' = manifest w.
Proof. eexists. repeat split. Qed.

Lemma stageRun_ofStages agentName stages events :
  In agentName stages -> stageRun agentName events ->
  Forall (ofStages stages) events.
Proof.
  intros Hin H. induction H; repeat constructor; simpl; assumption.
Qed.

Lemma incrementRetry_found workId agentName doc :
  stageStatus workId agentName doc <> None ->
  exists n doc',
    Manifest.incrementRetry workId doc = Ok (n, doc')
    /\ stageStatus workId agentName doc' = stageStatus workId agentName doc
    /\ ids doc' = ids doc.
Proof.
  unfold Manifest.incrementRetry, stageStatus, Manifest.get, ids.
  destruct (find (Manifest.has_work_id workId) (Manifest.current_processing doc))
    as [p|] eqn:Hp; [|congruence].
  intros _. eexists _, _. split; [reflexivity|]. simpl.
  pose proof (find_has_work_id _ _ _ Hp) as Hid. split.
  - erewrite find_replace_first; [reflexivity|exact Hp|].
    unfold Manifest.has_work_id; simpl. rewrite Hid. apply String.eqb_refl.
  - eapply map_replace_first; [exact Hp|reflexivity].
Qed.

Section Stage.

Variable agents : Collaborators.
Variable maxRetries : Z.
Variable workId agentName : string.

Abbreviation known w := (stageStatus workId agentName (manifest w) <> None).

Lemma updateAgent_known st o w :
  known w ->
  exists w',
    updateAgent workId agentName st o w = (Returned tt, w')
    /\ trace w' = trace w
    /\ frame w w'
    /\ stageStatus workId agentName (manifest w') = Some st.
Proof.
  intros Hk. unfold updateAgent.
  destruct (Manifest.updateAgent (clock w) workId agentName st o (manifest w))
    as [doc'|message] eqn:H.
  - apply updateAgent_ok in H. destruct H as (_ & H2 & H3).
    eexists. split; [reflexivity|]. repeat split; assumption.
  - apply updateAgent_err in H. contradiction.
Qed.

Lemma tryStage_caught w :
  known w ->
  exists r w',
    catch (tryStage agents workId agentName) w = (Returned r, w')
    /\ trace w' = trace w ++ [Attempt agentName]
    /\ frame w w'
    /\ known w'
    /\ match r with
       | inl _ => stageStatus workId agentName (manifest w') = Some Manifest.completed
       | inr _ => True
       end.
Proof.
  intros Hk. unfold catch, tryStage, bind, attempt.
  destruct (execute agents (executions w) agentName) as [d|e|m].
  - match goal with
    | |- context [updateAgent _ _ ?st ?o ?w1] =>
        destruct (updateAgent_known st o w1 Hk) as (w' & -> & Ht & Hf & Hs)
    end.
    exists (inl tt), w'. split; [reflexivity|].
    split; [exact Ht|]. split; [exact Hf|]. split; [congruence|exact Hs].
  - eexists (inr _), _. split; [reflexivity|].
    repeat split; assumption.
  - eexists (inr _), _. split; [reflexivity|].
    repeat split; assumption.
Qed.

Lemma incrementRetry_known w :
  known w ->
  exists n w',
    incrementRetry workId w = (Returned n, w')
    /\ trace w' = trace w
    /\ frame w w'
    /\ known w'.
Proof.
  intros Hk. unfold incrementRetry.
  destruct (incrementRetry_found workId agentName (manifest w) Hk)
    as (n & doc' & -> & Hs & Hi).
  eexists _, _. split; [reflexivity|]. simpl.
  repeat split; [exact Hi|]. rewrite Hs. exact Hk.
Qed.

(** The loop of a stage, from [retries] retries already made. *)
Lemma whileLoop_spec fuel : forall retries w,
  (Z.to_nat (maxRetries + 1 - retries) <= fuel)%nat ->
  known w ->
  exists r w' events,
    whileLoop agents maxRetries fuel workId agentName retries w = (r, w')
    /\ trace w' = trace w ++ events
    /\ frame w w'
    /\ match r with
       | Returned _ =>
           (events = [] /\ maxRetries < retries /\ w' = w)
           \/ (stageRun agentName events
               /\ Z.of_nat (attempts events) <= maxRetries + 1 - retries
               /\ stageStatus workId agentName (manifest w')
                  = Some Manifest.completed)
       | Thrown _ =>
           stageRun agentName events
           /\ Z.of_nat (attempts events) = maxRetries + 1 - retries
           /\ stageStatus workId agentName (manifest w')
              = Some Manifest.failed
       | OutOfFuel => False
       end.
Proof.
  induction fuel as [|fuel IH]; intros retries w Hfuel Hk.
  - exists (Returned tt), w, []. simpl.
    assert ((retries <=? maxRetries) = false) as -> by lia. simpl.
    split; [reflexivity|]. split; [symmetry; apply app_nil_r|].
    split; [apply frame_refl|]. left. repeat split. lia.
  - simpl. destruct (retries <=? maxRetries) eqn:Hle; simpl.
    2:{ exists (Returned tt), w, [].
        split; [reflexivity|]. split; [symmetry; apply app_nil_r|].
        split; [apply frame_refl|]. left. repeat split. lia. }
    apply Z.leb_le in Hle.
    destruct (tryStage_caught w Hk) as (r & w1 & Htry & Ht1 & Hf1 & Hk1 & Hr).
    rewrite (bind_returned _ _ _ _ _ Htry). destruct r as [u|message].
    + exists (Returned tt), w1, [Attempt agentName].
      split; [reflexivity|]. split; [exact Ht1|]. split; [exact Hf1|].
      right. split; [constructor|]. split; [simpl; lia|exact Hr].
    + destruct (retries + 1 <=? maxRetries) eqn:Hnext.
      * apply Z.leb_le in Hnext.
        destruct (incrementRetry_known w1 Hk1)
          as (n & w2 & Hinc & Ht2 & Hf2 & Hk2).
        rewrite (bind_returned _ _ _ _ _ Hinc).
        destruct (sleep_spec (1000 * (retries + 1)) w2)
          as (w3 & Hsleep & Ht3 & Hf3 & Hm3).
        rewrite (bind_returned _ _ _ _ _ Hsleep).
        assert (Hk3 : known w3) by (rewrite Hm3; exact Hk2).
        destruct (IH (retries + 1) w3 ltac:(lia) Hk3)
          as (r & w' & events & Hloop & Ht & Hf & Hr').
        rewrite Hloop.
        exists r, w', (Attempt agentName :: Sleep (1000 * (retries + 1))
                         :: events).
        split; [reflexivity|]. split.
        { rewrite Ht, Ht3, Ht2, Ht1. rewrite <- !app_assoc. reflexivity. }
        split.
        { eapply frame_trans; [exact Hf1|].
          eapply frame_trans; [exact Hf2|].
          eapply frame_trans; [exact Hf3|exact Hf]. }
        destruct r as [u|m|].
        { right. destruct Hr' as [(_ & Hbad & _)|(H1 & H2 & H3)]; [lia|].
          split; [constructor; exact H1|]. split; [simpl; lia|exact H3]. }
        { destruct Hr' as (H1 & H2 & H3).
          split; [constructor; exact H1|]. split; [simpl; lia|exact H3]. }
        { exact Hr'. }
      * apply Z.leb_gt in Hnext.
        destruct (updateAgent_known Manifest.failed
                    (Some (Manifest.ErrorInfo message (stackOf message)))
                    w1 Hk1)
          as (w2 & Hupd & Ht2 & Hf2 & Hs2).
        rewrite (bind_returned _ _ _ _ _ Hupd). unfold throw.
        eexists (Thrown _), w2, [Attempt agentName].
        split; [reflexivity|]. split; [rewrite Ht2; exact Ht1|].
        split; [eapply frame_trans; eassumption|].
        split; [constructor|]. split; [simpl; lia|exact Hs2].
Qed.

(** One stage of the pipeline. *)
Lemma runStage_spec w :
  0 <= maxRetries ->
  exists r w' events,
    runStage agents maxRetries workId agentName w = (r, w')
    /\ trace w' = trace w ++ events
    /\ frame w w'
    /\ match r with
       | Returned _ =>
           stageRun agentName events
           /\ Z.of_nat (attempts events) <= maxRetries + 1
           /\ stageStatus workId agentName (manifest w')
              = Some Manifest.completed
       | Thrown _ =>
           (events = [] /\ w' = w
            /\ stageStatus workId agentName (manifest w) = None)
           \/ (stageRun agentName events
               /\ Z.of_nat (attempts events) = maxRetries + 1
               /\ stageStatus workId agentName (manifest w')
                  = Some Manifest.failed)
       | OutOfFuel => False
       end.
Proof.
  intros Hmax. unfold runStage.
  pose proof (updateAgent_outcome workId agentName
                Manifest.in_progress None w) as Hupd.
  destruct (updateAgent workId agentName Manifest.in_progress None w)
    as [[[]|m|] w1] eqn:H1.
  - destruct Hupd as (Hk & Hs).
    rewrite (bind_returned _ _ _ _ _ H1).
    destruct (updateAgent_known Manifest.in_progress None w Hk)
      as (w1' & H1' & Ht1 & Hf1 & _).
    rewrite H1 in H1'. injection H1' as <-.
    assert (Hk1 : known w1) by congruence.
    destruct (whileLoop_spec (S (Z.to_nat maxRetries)) 0 w1 ltac:(lia) Hk1)
      as (r & w' & events & Hloop & Ht & Hf & Hr).
    exists r, w', events. split; [exact Hloop|].
    split; [rewrite Ht, Ht1; reflexivity|].
    split; [eapply frame_trans; eassumption|].
    destruct r as [u|m|]; [|right|exact Hr].
    + destruct Hr as [(_ & Hbad & _)|(A & B & C)]; [lia|].
      split; [exact A|]. split; [lia|exact C].
    + destruct Hr as (A & B & C). split; [exact A|]. split; [lia|exact C].
  - destruct Hupd as (Hnone & ->).
    rewrite (bind_thrown _ _ _ _ _ H1).
    exists (Thrown m), w, []. split; [reflexivity|].
    split; [symmetry; apply app_nil_r|]. split; [apply frame_refl|].
    left. repeat split. exact Hnone.
  - destruct Hupd.
Qed.

End Stage.


(** A run of the pipeline returns or throws; it attempts stages of its
    list only and leaves the frame alone. *)
Lemma executeAgentPipeline_spec agents maxRetries workId stages :
  0 <= maxRetries ->
  forall w,
  exists r w' events,
    executeAgentPipeline agents maxRetries workId stages w = (r, w')
    /\ trace w' = trace w ++ events
    /\ Forall (ofStages stages) events
    /\ frame w w'
    /\ r <> OutOfFuel.
Proof.
  intros Hmax. induction stages as [|a stages IH]; intros w; simpl.
  - exists (Returned tt), w, []. split; [reflexivity|].
    split; [symmetry; apply app_nil_r|]. split; [constructor|].
    split; [apply frame_refl|discriminate].
  - destruct (runStage_spec agents maxRetries workId a w Hmax)
      as (r & w1 & events & Hrun & Ht & Hf & Hr).
    assert (Hev : Forall (ofStages (a :: stages)) events).
    { destruct r as [u|m|]; [| |destruct Hr].
      - destruct Hr as (A & _). eapply stageRun_ofStages; [left; reflexivity|exact A].
      - destruct Hr as [(-> & _)|(A & _)]; [constructor|].
        eapply stageRun_ofStages; [left; reflexivity|exact A]. }
    destruct r as [[]|m|]; [| |destruct Hr].
    + rewrite (bind_returned _ _ _ _ _ Hrun).
      destruct (IH w1) as (r2 & w2 & events2 & Hrest & Ht2 & Hev2 & Hf2 & Hr2).
      exists r2, w2, (events ++ events2). split; [exact Hrest|].
      split; [rewrite Ht2, Ht, app_assoc; reflexivity|].
      split; [|split; [eapply frame_trans; eassumption|exact Hr2]].
      apply List.Forall_app; split; [exact Hev|].
      eapply List.Forall_impl; [|exact Hev2].
      intros [b|ms]; simpl; [intros Hb; right; exact Hb|trivial].
    + rewrite (bind_thrown _ _ _ _ _ Hrun).
      exists (Thrown m), w1, events. split; [reflexivity|].
      split; [exact Ht|]. split; [exact Hev|]. split; [exact Hf|discriminate].
Qed.




(** How the [try] block of [processNext] ends. *)
Lemma processItem_outcome agents maxRetries item w :
  0 <= maxRetries ->
  match processItem agents maxRetries item w with
  | (Returned r, _) => exists f, r = ItemCompleted (Queue.id item) f
  | (Thrown _, w') => frame w w'
  | (OutOfFuel, _) => False
  end.
Proof.
  intros Hmax. unfold processItem.
  destruct (executeAgentPipeline_spec agents maxRetries (Queue.id item)
              (Queue.required_agents item) Hmax w)
    as (r & w1 & events & Hrun & _ & _ & Hf & Hr).
  destruct r as [[]|m|]; [| |congruence].
  - rewrite (bind_returned _ _ _ _ _ Hrun).
    destruct (loadDocumentState agents (Queue.path (Queue.file item)))
      as [finalState|e]; [|exact Hf].
    destruct (Manifest.complete (clock w1) (Queue.id item)
                (finalOutput agents finalState) (manifest w1))
      as [[processingRecord m]|e]; [|exact Hf].
    eexists. reflexivity.
  - rewrite (bind_thrown _ _ _ _ _ Hrun). exact Hf.
Qed.

(** Whenever [processNext] reports a failed item, the record it had
    registered for the item is gone: the ledger holds the records it
    held before the dispatch. *)
Lemma failed_dispatch_never_retained agents maxRetries w workId message w' :
  0 <= maxRetries ->
  processNext agents maxRetries w
  = (Returned (ItemFailed workId message), w') ->
  ~ In workId (ids (manifest w)) ->
  ids (manifest w') = ids (manifest w)
  /\ Manifest.get workId (manifest w') = None.
Proof.
  intros Hmax Hrun Hfresh. unfold processNext in Hrun.
  destruct (Queue.dequeueNext (clock w) (queue_doc w))
    as [[[item q]|]|e]; try discriminate.
  match type of Hrun with
  | context [catch _ ?w2] =>
      pose proof (processItem_outcome agents maxRetries item w2 Hmax) as Hitem;
      unfold catch in Hrun;
      destruct (processItem agents maxRetries item w2) as [[r|m|] w3]
  end; try discriminate.
  - destruct Hitem as (f & ->). discriminate.
  - injection Hrun as <- <- <-.
    destruct Hitem as (Hids & _). simpl in Hids.
    assert (Hgone : ids (manifest
                           (with_manifest w3
                              (snd (Manifest.remove (Queue.id item)
                                      (manifest w3)))))
                    = ids (manifest w)).
    { simpl. rewrite ids_remove, Hids.
      unfold ids at 1 2. simpl. rewrite !map_app. simpl.
      fold (ids (manifest w)).
      rewrite (findIndex_app_first _ (ids (manifest w)) (Queue.id item) []).
      - apply splice1_last.
      - intros y Hy. apply not_true_is_false. intros Heq.
        apply String.eqb_eq in Heq. subst y. contradiction.
      - apply String.eqb_refl. }
    split; [exact Hgone|].
    apply not_in_ids_get. rewrite Hgone. exact Hfresh.
Qed.

(** C1, the code at a failing dispatch: [processNext] takes item A from
    the queue, registers it, the first stage exhausts its retries and is
    marked failed, and the [catch] of [processNext] then removes the
    record: the ledger is empty afterwards. *)
Theorem failed_dispatch_purges_record :
  let registeredRun :=
    executeAgentPipeline Samples.alwaysFails defaultMaxRetries "wq-1001"
      (Queue.required_agents Samples.itemA)
      (with_manifest Samples.idle
         (snd (Manifest.add 2000 Samples.itemA Manifest.empty_doc))) in
  let out := processNext Samples.alwaysFails defaultMaxRetries Samples.idle in
  stageStatus "wq-1001" "normalization" (manifest (snd registeredRun))
  = Some Manifest.failed
  /\ fst out
     = Returned (ItemFailed "wq-1001"
                   "Agent normalization failed: network timeout")
  /\ Manifest.get "wq-1001" (manifest (snd out)) = None
  /\ Manifest.current_processing (manifest (snd out)) = [].
Proof. vm_compute. repeat split. Qed.

End ProcessorFacts.

(** ** The recovery processor *)

Module RecoveryFacts.

Import Processor Recovery ManifestFacts ProcessorFacts.

(** [recovery_attempts[work_id]], 0 when there is no entry. *)
Definition attemptsOf (workId : string) (s : State) : Z :=
  Manifest.or_zero (retries (recoveryState s) !! workId).

Definition quarantined (workId : string) (s : State) : Prop :=
  In workId (permanentFailures (recoveryState s)).

(** A stretch of a recovery pass that only waits and runs stages of
    [stages]. *)
Definition runs (stages : list string) (w w' : World) : Prop :=
  frame w w'
  /\ exists events,
       trace w' = trace w ++ events /\ Forall (ofStages stages) events.

Lemma runs_refl stages w : runs stages w w.
Proof.
  split; [apply frame_refl|]. exists []. split; [|constructor].
  symmetry; apply app_nil_r.
Qed.

Lemma runs_trans stages w1 w2 w3 :
  runs stages w1 w2 -> runs stages w2 w3 -> runs stages w1 w3.
Proof.
  intros (F1 & e1 & T1 & A1) (F2 & e2 & T2 & A2).
  split; [eapply frame_trans; eassumption|].
  exists (e1 ++ e2). split; [rewrite T2, T1, app_assoc; reflexivity|].
  apply List.Forall_app; split; assumption.
Qed.

Lemma rbind_returned {A B} (c : Recovery.M A) (k : A -> Recovery.M B) s a s' :
  c s = (Returned a, s') -> Recovery.bind c k s = k a s'.
Proof. intros H. unfold Recovery.bind. rewrite H. reflexivity. Qed.

Lemma rbind_thrown {A B} (c : Recovery.M A) (k : A -> Recovery.M B) s m s' :
  c s = (Thrown m, s') -> Recovery.bind c k s = (Thrown m, s').
Proof. intros H. unfold Recovery.bind. rewrite H. reflexivity. Qed.


Lemma includes_id_In workId l : includes_id workId l = true -> In workId l.
Proof.
  unfold includes_id. intros H. apply existsb_exists in H.
  destruct H as (x & Hin & Heq). apply String.eqb_eq in Heq. subst. exact Hin.
Qed.

Lemma markPermanentFailure_spec workId s :
  exists s',
    markPermanentFailure workId s = (Returned tt, s')
    /\ retries (recoveryState s') = retries (recoveryState s)
    /\ quarantined workId s'
    /\ world s'
       = with_manifest (world s)
           (snd (Manifest.remove workId (manifest (world s))))
    /\ stats s' = stats s.
Proof.
  unfold markPermanentFailure, quarantined, Recovery.bind, loadRecoveryState,
    saveRecoveryState, lift, Recovery.ret.
  destruct (includes_id workId (permanentFailures (recoveryState s))) eqn:Hin.
  - eexists. split; [reflexivity|]. simpl.
    repeat split. apply includes_id_In. exact Hin.
  - eexists. split; [reflexivity|]. simpl.
    repeat split. apply in_or_app. right. left. reflexivity.
Qed.

Lemma updateAgent_frame workId agentName st o w :
  exists r w',
    updateAgent workId agentName st o w = (r, w')
    /\ frame w w' /\ trace w' = trace w /\ r <> OutOfFuel.
Proof.
  unfold updateAgent.
  destruct (Manifest.updateAgent (clock w) workId agentName st o (manifest w))
    as [doc'|message] eqn:H.
  - apply updateAgent_ok in H. destruct H as (_ & _ & H).
    eexists _, _. split; [reflexivity|]. repeat split; [exact H|discriminate].
  - eexists _, _. split; [reflexivity|].
    split; [apply frame_refl|]. split; [reflexivity|discriminate].
Qed.

Lemma resetFailed_spec workId task remainingAgents : forall s,
  exists r s',
    resetFailed workId task remainingAgents s = (r, s')
    /\ recoveryState s' = recoveryState s
    /\ frame (world s) (world s')
    /\ trace (world s') = trace (world s)
    /\ r <> OutOfFuel.
Proof.
  induction remainingAgents as [|agentName rest IH]; intros s; simpl.
  - eexists _, _. split; [reflexivity|].
    repeat split. discriminate.
  - assert (Hstep : exists r s1,
               match find (Manifest.has_name agentName)
                       (Manifest.agent_pipeline task) with
               | Some agent =>
                   if Manifest.is_status Manifest.failed agent
                   then lift (updateAgent workId agentName
                                Manifest.pending None)
                   else Recovery.ret tt
               | None => Recovery.ret tt
               end s = (r, s1)
               /\ recoveryState s1 = recoveryState s
               /\ frame (world s) (world s1)
               /\ trace (world s1) = trace (world s)
               /\ r <> OutOfFuel).
    { destruct (find _ _) as [agent|];
        [destruct (Manifest.is_status Manifest.failed agent)|];
        try (eexists _, _; split; [reflexivity|];
             split; [reflexivity|]; split; [apply frame_refl|];
             split; [reflexivity|discriminate]).
      unfold lift.
      destruct (updateAgent_frame workId agentName Manifest.pending None
                  (world s)) as (r & w' & -> & Hf & Ht & Hr).
      eexists _, _. split; [reflexivity|]. simpl.
      repeat split; try apply Hf; assumption. }
    destruct Hstep as (r & s1 & Hrun & H1 & H2 & H3 & H4).
    destruct r as [[]|m|]; [| |congruence].
    + rewrite (rbind_returned _ _ _ _ _ Hrun).
      destruct (IH s1) as (r' & s' & Hrest & A1 & A2 & A3 & A4).
      exists r', s'. split; [exact Hrest|].
      split; [congruence|]. split; [eapply frame_trans; eassumption|].
      split; [congruence|exact A4].
    + rewrite (rbind_thrown _ _ _ _ _ Hrun).
      exists (Thrown m), s1.
      repeat split; try apply H2; try assumption; try discriminate.
Qed.

Lemma pipeline_caught agents maxRetries workId stages s :
  0 <= maxRetries ->
  exists r s',
    Recovery.catch
      (lift (executeAgentPipeline agents maxRetries workId stages)) s
    = (Returned r, s')
    /\ recoveryState s' = recoveryState s
    /\ stats s' = stats s
    /\ runs stages (world s) (world s').
Proof.
  intros Hmax. unfold Recovery.catch, lift.
  destruct (executeAgentPipeline_spec agents maxRetries workId stages Hmax
              (world s)) as (r & w' & events & -> & Ht & Hev & Hf & Hr).
  destruct r as [u|m|]; [| |congruence].
  - eexists (inl u), _. split; [reflexivity|]. simpl.
    repeat split; try apply Hf. exists events. split; assumption.
  - eexists (inr m), _. split; [reflexivity|]. simpl.
    repeat split; try apply Hf. exists events. split; assumption.
Qed.

(** Split the conjunctions of a goal and close the parts at hand. *)
Ltac conjuncts :=
  repeat match goal with |- _ /\ _ => split end;
  try first [assumption | reflexivity | lia].

Section Pass.

Variable agents : Collaborators.
Variable options : Options.
Variable processorMaxRetries : Z.
Hypothesis processorMaxRetries_nonneg : 0 <= processorMaxRetries.

(** [remainingAgents] of [retryTask], lines 241 to 243. *)
Definition remainingAgents (task : Manifest.ProcessingRecord) : list string :=
  map Manifest.name
    (slice (resumeFromIndex (findLastCheckpoint task))
       (Manifest.agent_pipeline task)).

Lemma lift_sleep ms s :
  exists s',
    lift (sleep ms) s = (Returned tt, s')
    /\ recoveryState s' = recoveryState s
    /\ stats s' = stats s
    /\ forall stages, runs stages (world s) (world s').
Proof.
  eexists. split; [reflexivity|]. simpl. repeat split.
  exists [Sleep ms]. split; [reflexivity|]. repeat constructor.
Qed.

Lemma runs_quiet stages w w' :
  frame w w' -> trace w' = trace w -> runs stages w w'.
Proof.
  intros Hf Ht. split; [exact Hf|]. exists [].
  split; [rewrite Ht; symmetry; apply app_nil_r|constructor].
Qed.

(** What one call of [retryTask] does to the retry counter, to the set
    of permanent failures, to the ledger and to the history, by the way
    it ends. *)
Lemma retryTask_spec task s :
  exists r s',
    retryTask agents options processorMaxRetries task s = (r, s')
    /\ match r with
       | Returned (PermanentFailure _ None) =>
           maxRetries options <= attemptsOf (Manifest.work_id task) s
           /\ retries (recoveryState s') = retries (recoveryState s)
           /\ quarantined (Manifest.work_id task) s'
           /\ world s'
              = with_manifest (world s)
                  (snd (Manifest.remove (Manifest.work_id task)
                          (manifest (world s))))
       | Returned (Skipped _) =>
           attemptsOf (Manifest.work_id task) s < maxRetries options
           /\ resumeFromAgent (findLastCheckpoint task) = None
           /\ recoveryState s' = recoveryState s
           /\ world s' = world s
       | Returned (Recovered _ _) =>
           attemptsOf (Manifest.work_id task) s < maxRetries options
           /\ retries (recoveryState s')
              = <[Manifest.work_id task :=
                    attemptsOf (Manifest.work_id task) s + 1]>
                  (retries (recoveryState s))
           /\ permanentFailures (recoveryState s')
              = permanentFailures (recoveryState s)
           /\ runs (remainingAgents task) (world s) (world s')
       | Returned (Failed _ _ n) =>
           attemptsOf (Manifest.work_id task) s < maxRetries options
           /\ n = attemptsOf (Manifest.work_id task) s + 1
           /\ n < maxRetries options
           /\ retries (recoveryState s')
              = <[Manifest.work_id task := n]> (retries (recoveryState s))
           /\ permanentFailures (recoveryState s')
              = permanentFailures (recoveryState s)
           /\ runs (remainingAgents task) (world s) (world s')
       | Returned (PermanentFailure _ (Some _)) =>
           attemptsOf (Manifest.work_id task) s < maxRetries options
           /\ maxRetries options <= attemptsOf (Manifest.work_id task) s + 1
           /\ retries (recoveryState s')
              = <[Manifest.work_id task :=
                    attemptsOf (Manifest.work_id task) s + 1]>
                  (retries (recoveryState s))
           /\ quarantined (Manifest.work_id task) s'
           /\ exists w,
                runs (remainingAgents task) (world s) w
                /\ world s'
                   = with_manifest w
                       (snd (Manifest.remove (Manifest.work_id task)
                               (manifest w)))
       | Thrown _ =>
           attemptsOf (Manifest.work_id task) s < maxRetries options
           /\ retries (recoveryState s')
              = <[Manifest.work_id task :=
                    attemptsOf (Manifest.work_id task) s + 1]>
                  (retries (recoveryState s))
           /\ permanentFailures (recoveryState s')
              = permanentFailures (recoveryState s)
           /\ runs (remainingAgents task) (world s) (world s')
       | OutOfFuel => False
       end.
Proof.
  cbv beta iota zeta delta [retryTask hasExceededRetryLimit getRetryCount
    loadRecoveryState Recovery.bind Recovery.ret update_stats
    incrementRetryCount saveRecoveryState now].
  unfold attemptsOf. fold (remainingAgents task).
  set (c := Manifest.or_zero
              (retries (recoveryState s) !! Manifest.work_id task)).
  destruct (maxRetries options <=? c) eqn:Hexceeded.
  { apply Z.leb_le in Hexceeded.
    destruct (markPermanentFailure_spec (Manifest.work_id task) s)
      as (s1 & -> & R1 & Q1 & W1 & _).
    eexists _, _. split; [reflexivity|]. unfold quarantined in *. simpl.
    conjuncts. }
  apply Z.leb_gt in Hexceeded.
  destruct (resumeFromAgent (findLastCheckpoint task)) as [resume|] eqn:Hresume.
  2:{ eexists _, _. split; [reflexivity|]. simpl. conjuncts. }
  match goal with
  | |- context [lift (sleep ?ms) ?st] =>
      destruct (lift_sleep ms st) as (s2 & -> & R2 & _ & Run2)
  end.
  simpl in R2. specialize (Run2 (remainingAgents task)). simpl in Run2.
  destruct (resetFailed_spec (Manifest.work_id task) task
              (remainingAgents task) s2)
    as (r3 & s3 & -> & R3 & F3 & T3 & Hr3).
  pose proof (runs_trans _ _ _ _ Run2 (runs_quiet _ _ _ F3 T3)) as Run3.
  destruct r3 as [[]|m|]; [| |congruence].
  2:{ eexists _, _. split; [reflexivity|]. simpl.
      rewrite R3, R2. simpl. conjuncts. }
  destruct (pipeline_caught agents processorMaxRetries (Manifest.work_id task)
              (remainingAgents task) s3 processorMaxRetries_nonneg)
    as (r4 & s4 & -> & R4 & _ & Run4).
  pose proof (runs_trans _ _ _ _ Run3 Run4) as Run.
  destruct r4 as [[]|message].
  { eexists _, _. split; [reflexivity|]. simpl.
    rewrite R4, R3, R2. simpl. conjuncts. }
  subst c.
  destruct (maxRetries options <=?
            Manifest.or_zero
              (retries (recoveryState s) !! Manifest.work_id task) + 1)
    eqn:Hreached.
  - apply Z.leb_le in Hreached.
    match goal with
    | |- context [markPermanentFailure ?wid ?st] =>
        destruct (markPermanentFailure_spec wid st)
          as (s5 & -> & R5 & Q5 & W5 & _)
    end.
    simpl in R5, W5.
    eexists _, _. split; [reflexivity|]. unfold quarantined in *. simpl.
    rewrite R5, R4, R3, R2. simpl.
    conjuncts. exists (world s4). split; assumption.
  - apply Z.leb_gt in Hreached.
    eexists _, _. split; [reflexivity|]. simpl.
    rewrite R4, R3, R2. simpl. conjuncts.
Qed.




End Pass.


(** *** Checkpoints *)














(** C2, the code at a successful recovery: the remaining stages
    complete and [retryTask] returns [recovered], yet the record is still
    in the ledger (all stages completed), the completion log has no
    record, and the retry entry of the item is still there, also after
    [cleanup]. *)
Theorem recovered_item_stays_in_ledger :
  let out := retryTask Samples.alwaysSucceeds default_options 3
               (Samples.firstTask Samples.stuck)
               (Samples.recovering Samples.stuck) in
  let cleaned := snd (cleanup (snd out)) in
  fst out = Returned (Recovered "wq-1000" 0)
  /\ option_map (fun p => map Manifest.status (Manifest.agent_pipeline p))
       (Manifest.get "wq-1000" (manifest (world (snd out))))
     = Some [Manifest.completed; Manifest.completed; Manifest.completed;
             Manifest.completed]
  /\ CompletionLog.completed (completionLog (world (snd out))) = []
  /\ retries (recoveryState (snd out)) !! "wq-1000" = Some 1
  /\ lastRetry (recoveryState (snd out)) !! "wq-1000" = Some 5000
  /\ retries (recoveryState cleaned) !! "wq-1000" = Some 1
  /\ lastRetry (recoveryState cleaned) !! "wq-1000" = Some 5000.
Proof. vm_compute. repeat split. Qed.

(** On every successful recovery the ledger keeps its records, the
    completion log is as before and the retry entry remains. *)
Lemma recovered_keeps_record agents options processorMaxRetries task s
    workId duration s' :
  0 <= processorMaxRetries ->
  retryTask agents options processorMaxRetries task s
  = (Returned (Recovered workId duration), s') ->
  ids (manifest (world s')) = ids (manifest (world s))
  /\ completionLog (world s') = completionLog (world s)
  /\ retries (recoveryState s') !! Manifest.work_id task
     = Some (attemptsOf (Manifest.work_id task) s + 1).
Proof.
  intros Hmax Hrun.
  destruct (retryTask_spec agents options processorMaxRetries Hmax task s)
    as (r & s'' & Hrun' & Hr).
  rewrite Hrun in Hrun'. injection Hrun' as <- <-.
  destruct Hr as (_ & Hret & _ & ((Hids & _ & Hlog) & _)).
  conjuncts. rewrite Hret. apply lookup_insert_eq.
Qed.

(** C6, the code at a stalled record: the ledger counts three local
    retries for the item ([retries = 3]), no stage is failed, and
    [detectFailedTasks] returns nothing, because it reads [retry_count],
    which the ledger never writes. *)
Theorem stalled_record_not_detected :
  option_map Manifest.retries (Manifest.get "wq-1000" Samples.stalled)
  = Some (Some 3)
  /\ option_map Manifest.retry_count (Manifest.get "wq-1000" Samples.stalled)
     = Some None
  /\ option_map (fun p => map Manifest.status (Manifest.agent_pipeline p))
       (Manifest.get "wq-1000" Samples.stalled)
     = Some [Manifest.completed; Manifest.in_progress; Manifest.pending;
             Manifest.pending]
  /\ detectFailedTasks default_options 9000 Samples.stalled = [].
Proof. vm_compute. repeat split. Qed.

(** For records without a [retry_count] field, which is how the ledger
    creates them, the candidates are the records with a failed stage (and,
    with the age filter on, young enough), whatever their [retries]. *)
Lemma detectFailedTasks_ledger_records options current doc :
  Forall (fun p => Manifest.retry_count p = None)
    (Manifest.current_processing doc) ->
  detectFailedTasks options current doc
  = List.filter (fun p => hasFailedAgent p
                          && (negb (cleanupOldFailures options)
                              || isRecent options current p))
      (Manifest.current_processing doc).
Proof.
  unfold detectFailedTasks, Manifest.getAll. intros Hall.
  destruct (cleanupOldFailures options); simpl;
    induction Hall as [|p l Hp _ IH]; simpl; try reflexivity;
    unfold hasExceededRetries at 1; rewrite Hp, orb_false_r;
    destruct (hasFailedAgent p); simpl; try exact IH;
    try destruct (isRecent options current p); rewrite IH; reflexivity.
Qed.

End RecoveryFacts.


(** * Further properties of the sources *)

(** ** Arrays *)

Module JsFacts.

Import QueueFacts.

Lemma findIndex_split {A} (p : A -> bool) (l : list A) index :
  findIndex p l = Some index ->
  exists before x after,
    l = before ++ x :: after
    /\ length before = index
    /\ p x = true
    /\ Forall (fun y => p y = false) before
    /\ nth_error l index = Some x
    /\ splice1 index l = before ++ after.
Proof.
  revert index; induction l as [|y l IH]; intros index H; simpl in H.
  - discriminate.
  - destruct (p y) eqn:Hy.
    + injection H as <-. exists [], y, l. repeat split; auto.
    + destruct (findIndex p l) as [i|]; [|discriminate].
      injection H as <-.
      destruct (IH i eq_refl) as (before & x & after & -> & Hlen & Hx & Hb
                                  & Hn & Hs).
      exists (y :: before), x, after. simpl.
      repeat split; auto.
      rewrite splice1_cons, Hs. reflexivity.
Qed.

Lemma findIndex_none {A} (p : A -> bool) (l : list A) :
  findIndex p l = None -> forall x, In x l -> p x = false.
Proof.
  induction l as [|y l IH]; simpl; [intros _ x []|].
  destruct (p y) eqn:Hy; [discriminate|].
  destruct (findIndex p l); [discriminate|].
  intros _ x [<-|Hin]; auto.
Qed.

Lemma find_findIndex {A} (p : A -> bool) (l : list A) :
  find p l = match findIndex p l with
             | Some index => nth_error l index
             | None => None
             end.
Proof.
  induction l as [|y l IH]; simpl; [reflexivity|].
  destruct (p y); [reflexivity|]. rewrite IH.
  destruct (findIndex p l); reflexivity.
Qed.

Lemma find_split {A} (p : A -> bool) (l : list A) x :
  find p l = Some x ->
  exists before after,
    l = before ++ x :: after
    /\ p x = true
    /\ Forall (fun y => p y = false) before.
Proof.
  induction l as [|y l IH]; simpl; [discriminate|].
  destruct (p y) eqn:Hy.
  - intros [= <-]. exists [], l. repeat split; auto.
  - intros H. destruct (IH H) as (before & after & -> & Hx & Hb).
    exists (y :: before), after. repeat split; auto.
Qed.

Lemma find_none {A} (p : A -> bool) (l : list A) :
  find p l = None -> Forall (fun y => p y = false) l.
Proof.
  induction l as [|y l IH]; simpl; [constructor|].
  destruct (p y) eqn:Hy; [discriminate|]. intros H. constructor; auto.
Qed.

Lemma find_app_first {A} (p : A -> bool) (l1 l2 : list A) :
  find p (l1 ++ l2) = match find p l1 with
                      | Some x => Some x
                      | None => find p l2
                      end.
Proof.
  induction l1 as [|y l1 IH]; simpl; [reflexivity|].
  destruct (p y); [reflexivity|exact IH].
Qed.

Lemma find_skip {A} (p : A -> bool) (before : list A) x after :
  Forall (fun y => p y = false) before ->
  find p (before ++ x :: after) = if p x then Some x else find p after.
Proof.
  induction 1 as [|y before Hy _ IH]; simpl; [reflexivity|].
  rewrite Hy. exact IH.
Qed.

Lemma replace_first_skip {A} (p : A -> bool) x' (before : list A) x after :
  Forall (fun y => p y = false) before -> p x = true ->
  Manifest.replace_first p x' (before ++ x :: after) = before ++ x' :: after.
Proof.
  intros Hb Hx. induction Hb as [|y before Hy _ IH]; simpl.
  - rewrite Hx. reflexivity.
  - rewrite Hy, IH. reflexivity.
Qed.

Section Sorting.

Context {A : Type} (compare : A -> A -> Z) (key : A -> Z).

Hypothesis compare_key :
  forall x y, (compare x y <=? 0) = (key x <=? key y).

Definition ascending (x y : A) : Prop := key x <= key y.

Lemma sort_insert_perm x l : Permutation (sort_insert compare x l) (x :: l).
Proof.
  induction l as [|y l IH]; simpl; [reflexivity|].
  destruct (compare x y <=? 0); [reflexivity|].
  rewrite IH. apply perm_swap.
Qed.

Lemma sort_perm l : Permutation (sort compare l) l.
Proof.
  induction l as [|x l IH]; simpl; [reflexivity|].
  rewrite sort_insert_perm, IH. reflexivity.
Qed.

Lemma sort_insert_sorted x l :
  StronglySorted ascending l ->
  StronglySorted ascending (sort_insert compare x l).
Proof.
  induction 1 as [|y l Hl IH Hy]; simpl.
  - repeat constructor.
  - rewrite compare_key. destruct (key x <=? key y) eqn:Hxy.
    + apply Z.leb_le in Hxy. constructor; [constructor; assumption|].
      constructor; [exact Hxy|].
      eapply List.Forall_impl; [|exact Hy]. unfold ascending. intros. lia.
    + apply Z.leb_gt in Hxy. constructor; [exact IH|].
      eapply Permutation.Permutation_Forall.
      * symmetry. apply sort_insert_perm.
      * constructor; [unfold ascending; lia|exact Hy].
Qed.

Lemma sort_sorted l : StronglySorted ascending (sort compare l).
Proof.
  induction l as [|x l IH]; simpl; [constructor|].
  apply sort_insert_sorted. exact IH.
Qed.

(** The sort is stable: an array that is in order stays as it is. *)
Lemma sort_sorted_id l : StronglySorted ascending l -> sort compare l = l.
Proof.
  induction 1 as [|x l Hl IH Hx]; simpl; [reflexivity|].
  rewrite IH. destruct l as [|y l]; simpl; [reflexivity|].
  rewrite compare_key. inversion Hx as [|? ? Hxy _]; subst.
  apply Z.leb_le in Hxy. rewrite Hxy. reflexivity.
Qed.

End Sorting.

Lemma filter_length_all {A} (p : A -> bool) (l : list A) :
  length (List.filter p l) = length l -> List.filter p l = l.
Proof.
  induction l as [|x l IH]; simpl; [reflexivity|].
  destruct (p x); simpl; intros H.
  - f_equal. apply IH. lia.
  - pose proof (List.filter_length_le p l). lia.
Qed.

Lemma filter_idem {A} (p : A -> bool) (l : list A) :
  List.filter p (List.filter p l) = List.filter p l.
Proof.
  induction l as [|x l IH]; simpl; [reflexivity|].
  destruct (p x) eqn:Hx; simpl; [rewrite Hx; f_equal|]; exact IH.
Qed.

End JsFacts.

(** ** queue-manager.js *)

Module QueueCoverage.

Import Queue QueueFacts JsFacts.

(** X1.  Type, priority and stage list go together: a file is a git
    commit with priority 1 and the five stages, a web clip with priority
    2, an inbox file with priority 3 (both with the four stages without
    tagging), or unknown with priority 4 and the stages normalization and
    filing; there is no other combination. *)
Theorem priority_and_stages_follow_type (filePath : string)
    (metadata : Metadata) :
  (detectType filePath metadata = "git-commit"
   /\ calculatePriority filePath metadata = 1
   /\ determineAgents filePath metadata
      = ["normalization"; "keyword-extraction"; "linking"; "tagging";
         "filing"])
  \/ (detectType filePath metadata = "web-clip"
      /\ calculatePriority filePath metadata = 2
      /\ determineAgents filePath metadata
         = ["normalization"; "keyword-extraction"; "linking"; "filing"])
  \/ (detectType filePath metadata = "inbox-file"
      /\ calculatePriority filePath metadata = 3
      /\ determineAgents filePath metadata
         = ["normalization"; "keyword-extraction"; "linking"; "filing"])
  \/ (detectType filePath metadata = "unknown"
      /\ calculatePriority filePath metadata = 4
      /\ determineAgents filePath metadata = ["normalization"; "filing"]).
Proof.
  unfold determineAgents, detectType, calculatePriority.
  destruct (source_is metadata "git-commit"); [left; repeat split|].
  destruct (source_is metadata "web-clipper");
    [right; left; repeat split|].
  destruct (includes filePath "00_Inbox");
    [right; right; left; repeat split|right; right; right; repeat split].
Qed.

Definition resolved (fs : FileSystem) (vaultPath filePath : string) : string :=
  if isAbsolute fs filePath then filePath else join fs vaultPath filePath.

(** X2.  [addToQueue] returns [null] exactly when the path is already
    queued or the file does not exist, and then it leaves the queue
    document as it is; otherwise it appends one item to the end of the
    queue, with the given path, the clock as [created_at], the id
    [wq-<clock>] that it returns, and the priority and stage list of the
    path and metadata, and stamps [last_updated]. *)
Theorem addToQueue_outcome (fs : FileSystem) (vaultPath : string) (now : Z)
    (filePath : string) (metadata : Metadata) (d : QueueDoc) :
  match addToQueue fs vaultPath now filePath metadata d with
  | (None, d') =>
      d' = d
      /\ ((exists item, In item (queue d) /\ path (file item) = filePath)
          \/ stat fs (resolved fs vaultPath filePath) = None)
  | (Some newId, d') =>
      (forall item, In item (queue d) -> path (file item) <> filePath)
      /\ stat fs (resolved fs vaultPath filePath) <> None
      /\ last_updated d' = Some now
      /\ exists item,
           queue d' = queue d ++ [item]
           /\ id item = newId
           /\ newId = "wq-" +:+ string_of_Z now
           /\ path (file item) = filePath
           /\ created_at item = now
           /\ priority item = calculatePriority filePath metadata
           /\ required_agents item = determineAgents filePath metadata
  end.
Proof.
  unfold addToQueue, resolved.
  destruct (existsb (path_matches filePath) (queue d)) eqn:Hex.
  - split; [reflexivity|]. left. apply existsb_exists in Hex.
    destruct Hex as (item & Hin & Hm). exists item. split; [exact Hin|].
    apply String.eqb_eq. exact Hm.
  - destruct (stat fs _) as [stats|] eqn:Hstat.
    + split.
      { intros item Hin Hp.
        assert (existsb (path_matches filePath) (queue d) = true);
          [|congruence].
        apply existsb_exists. exists item. split; [exact Hin|].
        unfold path_matches. rewrite Hp. apply String.eqb_refl. }
      split; [discriminate|]. split; [reflexivity|].
      eexists. repeat split.
    + split; [reflexivity|]. right. reflexivity.
Qed.

(** X3.  [startProcessing] and [remove] agree.  When no queued item has
    the id, [startProcessing] throws and [remove] returns [false], and
    neither saves anything; otherwise [startProcessing] returns a queued
    item of that id and the queue that [remove] also produces, which is
    one item shorter. *)
Theorem startProcessing_agrees_with_remove (now : Z) (workItemId : string)
    (d : QueueDoc) :
  match startProcessing now workItemId d with
  | Ok (item, d') =>
      id item = workItemId
      /\ In item (queue d)
      /\ remove now workItemId d = (true, d')
      /\ length (queue d) = S (length (queue d'))
  | Err _ =>
      (forall item, In item (queue d) -> id item <> workItemId)
      /\ remove now workItemId d = (false, d)
  end.
Proof.
  unfold startProcessing, remove.
  destruct (findIndex (has_id workItemId) (queue d)) as [index|] eqn:Hi.
  - destruct (findIndex_split _ _ _ Hi)
      as (before & x & after & Hq & Hlen & Hx & _ & Hn & _).
    rewrite Hn. simpl. split; [apply String.eqb_eq; exact Hx|].
    split; [eapply nth_error_In; exact Hn|]. split; [reflexivity|].
    eapply splice1_length; exact Hn.
  - split; [|reflexivity]. intros item Hin Heq.
    pose proof (findIndex_none _ _ Hi item Hin) as Hfalse.
    unfold has_id in Hfalse. rewrite Heq, String.eqb_refl in Hfalse.
    discriminate.
Qed.

(** What [addToQueue] makes of every item it admits. *)
Definition wellFormed (now : Z) (item : WorkItem) : Prop :=
  1 <= priority item <= 4
  /\ created_at item <= now
  /\ id item = "wq-" +:+ string_of_Z (created_at item)
  /\ type item = detectType (path (file item)) (context item)
  /\ priority item = calculatePriority (path (file item)) (context item)
  /\ required_agents item = determineAgents (path (file item)) (context item).

Lemma calculatePriority_range filePath metadata :
  1 <= calculatePriority filePath metadata <= 4.
Proof.
  unfold calculatePriority.
  destruct (source_is metadata "git-commit"); [lia|].
  destruct (source_is metadata "web-clipper"); [lia|].
  destruct (includes filePath "00_Inbox"); lia.
Qed.

Lemma step_wellFormed vaultPath st op :
  forward op ->
  Forall (wellFormed (clock st)) (queue (doc st)) ->
  Forall (wellFormed (clock (step vaultPath st op)))
    (queue (doc (step vaultPath st op))).
Proof.
  intros Hop H. destruct op as [fs filePath metadata|wid|wid|ms]; simpl.
  - unfold addToQueue. destruct (existsb _ _); [exact H|].
    destruct (stat fs _); [|exact H]. simpl.
    apply List.Forall_app. split; [exact H|]. constructor; [|constructor].
    unfold wellFormed. simpl.
    split; [apply calculatePriority_range|]. repeat split. lia.
  - unfold remove. destruct (findIndex _ _); [|exact H]. simpl.
    apply List.Forall_forall. intros x Hx.
    apply (proj1 (List.Forall_forall _ _) H). eapply splice1_incl; exact Hx.
  - unfold startProcessing. destruct (findIndex _ _); [|exact H].
    destruct (nth_error _ _); [|exact H]. simpl.
    apply List.Forall_forall. intros x Hx.
    apply (proj1 (List.Forall_forall _ _) H). eapply splice1_incl; exact Hx.
  - simpl in Hop. eapply List.Forall_impl; [|exact H].
    unfold wellFormed. intros item Hitem. repeat split; try apply Hitem.
    destruct Hitem as (_ & Hc & _). lia.
Qed.

(** X4.  Every queue that the manager builds from the empty document,
    with a clock that does not run backwards, holds no path twice, and
    each of its items has a priority from 1 to 4, a [created_at] not
    after the clock, the id [wq-<created_at>], and the type, priority and
    stage list that its own path and metadata determine. *)
Theorem queue_stays_well_formed (vaultPath : string) (t0 : Z)
    (ops : list Op) :
  Forall forward ops ->
  let st := run vaultPath ops {| clock := t0; doc := empty_doc |} in
  List.NoDup (map (fun item => path (file item)) (queue (doc st)))
  /\ Forall (wellFormed (clock st)) (queue (doc st)).
Proof.
  intros Hops. cbv zeta. unfold run.
  assert (H0 : uniquePaths (doc {| clock := t0; doc := empty_doc |})
               /\ Forall (wellFormed (clock {| clock := t0; doc := empty_doc |}))
                    (queue (doc {| clock := t0; doc := empty_doc |})))
    by (split; constructor).
  revert H0. generalize {| clock := t0; doc := empty_doc |}.
  induction Hops as [|op ops Hop _ IH]; intros st [Hp Hw]; simpl.
  - split; assumption.
  - apply IH. split.
    + apply step_uniquePaths. exact Hp.
    + apply step_wellFormed; assumption.
Qed.

Lemma queue_stays_well_formed_witness :
  Forall forward Samples.history
  /\ Forall (wellFormed 10)
       (queue (doc (run "vault" Samples.history
                      {| clock := 0; doc := empty_doc |}))).
Proof.
  assert (H : Forall forward Samples.history)
    by (repeat constructor; simpl; lia).
  split; [exact H|].
  exact (proj2 (queue_stays_well_formed "vault" 0 Samples.history H)).
Defined.

(** X5.  The dispatcher identifies the item by its id: when [getNext]
    selects an item, the dequeue of [processNext] takes out and returns
    the first item in queue order that has the selected item's id, and
    leaves the other items in their order.  (When two queued items share
    an id, that is not always the item selected.) *)
Theorem dequeueNext_takes_first_with_id (now : Z) (d : QueueDoc)
    (next : WorkItem) :
  getNext d = Some next ->
  exists before item after,
    queue d = before ++ item :: after
    /\ id item = id next
    /\ Forall (fun o => id o <> id next) before
    /\ dequeueNext now d
       = Ok (Some (item, {| version := version d;
                            last_updated := Some now;
                            queue := before ++ after |})).
Proof.
  intros Hnext. pose proof (getNext_spec d) as Hspec. rewrite Hnext in Hspec.
  destruct Hspec as (b & a & Hq & _).
  assert (Hin : In next (queue d))
    by (rewrite Hq; apply in_or_app; right; left; reflexivity).
  destruct (findIndex_found (has_id (id next)) (queue d) next Hin
              (String.eqb_refl _)) as [index Hindex].
  destruct (findIndex_split _ _ _ Hindex)
    as (before & item & after & Hl & _ & Hid & Hb & Hn & Hs).
  exists before, item, after. split; [exact Hl|].
  split; [apply String.eqb_eq; exact Hid|]. split.
  - eapply List.Forall_impl; [|exact Hb]. intros o Ho Heq.
    unfold has_id in Ho. rewrite Heq, String.eqb_refl in Ho. discriminate.
  - unfold dequeueNext. rewrite Hnext. unfold startProcessing.
    rewrite Hindex, Hn. simpl. rewrite Hs. reflexivity.
Qed.

Lemma dequeueNext_takes_first_with_id_witness :
  getNext Samples.sameMillisecond = Some Samples.itemA'
  /\ exists item d',
       dequeueNext 1001 Samples.sameMillisecond = Ok (Some (item, d'))
       /\ path (file item) = "00_Inbox/b.md"
       /\ priority item = 3
       /\ map (fun o => path (file o)) (queue d') = ["commits/a.md"].
Proof.
  assert (H : getNext Samples.sameMillisecond = Some Samples.itemA')
    by reflexivity.
  split; [exact H|].
  destruct (dequeueNext_takes_first_with_id 1001 Samples.sameMillisecond
              Samples.itemA' H)
    as (before & item & after & Hq & Hid & Hb & Hrun).
  assert (Hc : dequeueNext 1001 Samples.sameMillisecond
               = Ok (Some (Samples.itemB,
                           {| version := "1.0"; last_updated := Some 1001;
                              queue := [Samples.itemA'] |})))
    by reflexivity.
  rewrite Hc in Hrun. injection Hrun as <- Hafter.
  eexists _, _. split; [exact Hc|]. repeat split.
Defined.

Definition countWhere {A} (p : A -> bool) (l : list A) : nat :=
  length (List.filter p l).

Lemma tally_fold {A} (key : A -> string) (k : string) (l : list A) :
  forall acc : gmap string Z,
    fold_left (fun acc item => tally (key item) acc) l acc !! k
    = if (countWhere (fun item => String.eqb (key item) k) l =? 0)%nat
      then acc !! k
      else Some (match acc !! k with
                 | Some n => n
                 | None => 0
                 end
                 + Z.of_nat (countWhere
                               (fun item => String.eqb (key item) k) l)).
Proof.
  unfold countWhere.
  induction l as [|x l IH]; intros acc; simpl; [reflexivity|].
  rewrite IH. unfold tally.
  destruct (String.eqb (key x) k) eqn:Hk.
  - apply String.eqb_eq in Hk. subst k. rewrite lookup_insert_eq. simpl.
    destruct (length (List.filter _ l) =? 0)%nat eqn:Hz.
    + apply Nat.eqb_eq in Hz. rewrite Hz.
      destruct (acc !! key x); f_equal; lia.
    + destruct (acc !! key x); f_equal; lia.
  - apply String.eqb_neq in Hk. rewrite lookup_insert_ne by exact Hk.
    reflexivity.
Qed.

(** X6.  [getStats] counts: [total_items] is the length of the queue,
    [by_type] has, for each type that occurs, the number of queued items
    of that type and no entry for a type that does not occur, and
    likewise [by_priority] for the keys [priority_<n>]. *)
Theorem getStats_counts (d : QueueDoc) (k : string) :
  total_items (getStats d) = Z.of_nat (length (queue d))
  /\ count_by_type (getStats d) !! k
     = (let n := countWhere (fun item => String.eqb (type item) k) (queue d)
        in if (n =? 0)%nat then None else Some (Z.of_nat n))
  /\ count_by_priority (getStats d) !! k
     = (let n := countWhere (fun item => String.eqb (priorityKey item) k)
                   (queue d)
        in if (n =? 0)%nat then None else Some (Z.of_nat n)).
Proof.
  unfold getStats. simpl. split; [reflexivity|].
  split; rewrite tally_fold, lookup_empty; reflexivity.
Qed.

End QueueCoverage.

(** ** filing-agent.js: the processing manifest *)

Module ManifestCoverage.

Import Manifest ManifestFacts JsFacts.

(** X7.  After [add], a lookup by id finds what it found before, and the
    new record only where it found nothing: a record that is added under
    an id the manifest already holds is never returned by [get].  The new
    record has every stage of the work item in order and pending, no
    errors and the retry counter 0. *)
Theorem add_then_get (now : Z) (workItem : Queue.WorkItem)
    (doc : ManifestDoc) (workId : string) :
  let processing := fst (add now workItem doc) in
  let doc' := snd (add now workItem doc) in
  get workId doc'
  = match get workId doc with
    | Some earlier => Some earlier
    | None => if String.eqb (Queue.id workItem) workId
              then Some processing
              else None
    end
  /\ map name (agent_pipeline processing) = Queue.required_agents workItem
  /\ Forall (fun a => status a = pending) (agent_pipeline processing)
  /\ errors processing = []
  /\ retries processing = Some 0.
Proof.
  cbv zeta. unfold get, add. simpl. split; [|split; [|split]].
  - rewrite find_app_first. simpl. unfold has_work_id at 2. simpl.
    destruct (find (has_work_id workId) (current_processing doc));
      [reflexivity|].
    destruct (String.eqb (Queue.id workItem) workId); reflexivity.
  - rewrite map_map. simpl. apply map_id.
  - apply List.Forall_forall. intros a Ha. apply in_map_iff in Ha.
    destruct Ha as (n & <- & _). reflexivity.
  - split; reflexivity.
Qed.


(** X9.  [incrementRetry] returns the record's counter plus one, an
    absent counter counting as 0, and stores it in the first record with
    the id; the stages and errors of that record and all other records
    stay as they are.  It throws exactly when no record has the id. *)
Theorem incrementRetry_adds_one (workId : string) (doc : ManifestDoc) :
  match incrementRetry workId doc with
  | Ok (n, doc') =>
      exists p p',
        get workId doc = Some p
        /\ get workId doc' = Some p'
        /\ n = or_zero (retries p) + 1
        /\ retries p' = Some n
        /\ agent_pipeline p' = agent_pipeline p
        /\ errors p' = errors p
        /\ ids doc' = ids doc
        /\ forall other, other <> workId -> get other doc' = get other doc
  | Err _ => get workId doc = None
  end.
Proof.
  unfold incrementRetry, get.
  destruct (find (has_work_id workId) (current_processing doc))
    as [p|] eqn:Hp; [|reflexivity].
  destruct (find_split _ _ _ Hp) as (rb & ra & Hrec & Hpid & Hrb).
  eexists p, _. split; [reflexivity|]. simpl.
  rewrite Hrec. rewrite (replace_first_skip _ _ rb p ra Hrb Hpid).
  split.
  { rewrite (find_skip _ rb _ ra Hrb). unfold has_work_id at 1. simpl.
    unfold has_work_id in Hpid. rewrite Hpid. reflexivity. }
  split; [reflexivity|]. split; [reflexivity|]. split; [reflexivity|].
  split; [reflexivity|]. split.
  { unfold ids. simpl. rewrite Hrec, !map_app. reflexivity. }
  intros other Hother. rewrite !find_app_first. simpl.
  apply String.eqb_eq in Hpid.
  assert (He : String.eqb workId other = false)
    by (apply String.eqb_neq; congruence).
  unfold has_work_id. simpl. rewrite Hpid, He. reflexivity.
Qed.

Definition completedAt (now : Z) (finalOutput : FinalOutput)
    (p : ProcessingRecord) : ProcessingRecord :=
  {| work_id := work_id p; file_path := file_path p;
     record_started_at := record_started_at p;
     agent_pipeline := agent_pipeline p; errors := errors p;
     retries := retries p; retry_count := retry_count p;
     record_completed_at := Some now;
     total_duration_ms := Some (now - record_started_at p);
     final_output := Some finalOutput |}.

(** X10.  [complete] is [get] followed by [remove]: it returns the record
    that [get] finds, stamped with the completion time, the duration
    since [started_at] and the final output, and leaves the manifest
    that [remove] leaves, one record shorter.  When no record has the id
    it throws, and [remove] returns [false] and changes nothing. *)
Theorem complete_is_get_then_remove (now : Z) (workId : string)
    (finalOutput : FinalOutput) (doc : ManifestDoc) :
  match complete now workId finalOutput doc with
  | Ok (processing, doc') =>
      exists p,
        get workId doc = Some p
        /\ processing = completedAt now finalOutput p
        /\ remove workId doc = (true, doc')
        /\ length (current_processing doc)
           = S (length (current_processing doc'))
  | Err _ => get workId doc = None /\ remove workId doc = (false, doc)
  end.
Proof.
  unfold complete, remove, get. rewrite find_findIndex.
  destruct (findIndex (has_work_id workId) (current_processing doc))
    as [index|] eqn:Hi; [|split; reflexivity].
  destruct (findIndex_split _ _ _ Hi)
    as (before & x & after & _ & _ & _ & _ & Hn & _).
  rewrite Hn. exists x. split; [reflexivity|]. split; [reflexivity|].
  split; [reflexivity|]. simpl.
  eapply QueueFacts.splice1_length. exact Hn.
Qed.

(** X11.  The three status queries exclude one another: a record that
    [isComplete] reports complete has no failed stage and no next pending
    stage.  For an unknown id all three answer negatively, and a record
    without stages is complete. *)
Theorem status_queries_exclusive (workId : string) (doc : ManifestDoc) :
  (isComplete workId doc = true ->
   hasFailed workId doc = false /\ getNextPendingAgent workId doc = None)
  /\ (get workId doc = None ->
      isComplete workId doc = false
      /\ hasFailed workId doc = false
      /\ getNextPendingAgent workId doc = None)
  /\ (forall p, get workId doc = Some p -> agent_pipeline p = [] ->
      isComplete workId doc = true).
Proof.
  unfold isComplete, hasFailed, getNextPendingAgent, get.
  destruct (find (has_work_id workId) (current_processing doc)) as [p|].
  - split; [|split; [discriminate|]].
    + intros Hall. rewrite forallb_forall in Hall. split.
      * destruct (existsb _ _) eqn:Hex; [|reflexivity].
        apply existsb_exists in Hex. destruct Hex as (a & Ha & Hf).
        specialize (Hall a Ha). unfold is_status in *.
        destruct (status a); discriminate.
      * destruct (find _ _) as [a|] eqn:Hf; [|reflexivity].
        apply find_some in Hf. destruct Hf as [Ha Hp].
        specialize (Hall a Ha). unfold is_status in *.
        destruct (status a); discriminate.
    + intros p' [= <-] ->. reflexivity.
  - split; [discriminate|]. split; [repeat split|discriminate].
Qed.

Lemma status_queries_exclusive_witness :
  isComplete "wq-1000" Samples.allDone = true
  /\ hasFailed "wq-1000" Samples.allDone = false
  /\ getNextPendingAgent "wq-1000" Samples.allDone = None.
Proof.
  assert (H : isComplete "wq-1000" Samples.allDone = true) by reflexivity.
  split; [exact H|].
  exact (proj1 (status_queries_exclusive "wq-1000" Samples.allDone) H).
Defined.

End ManifestCoverage.

(** ** completion-log.js *)

Module CompletionLogFacts.

Import CompletionLog JsFacts.

(** X12.  [add] appends one record at the end of the log; it mirrors the
    pipeline of the processing record, stage by stage, with names and
    statuses in the same order.  After it, [wasProcessed] answers [true]
    for the original path and for the final path of the record, and the
    history of any file is its earlier history, followed by the new
    record when the file is one of these two paths. *)
Theorem add_is_recorded (now : Z) (p : Manifest.ProcessingRecord)
    (finalOutput : Manifest.FinalOutput) (log : LogDoc) (filePath : string) :
  let r := fst (add now p finalOutput log) in
  let log' := snd (add now p finalOutput log) in
  completed log' = completed log ++ [r]
  /\ map name (agents_executed r)
     = map Manifest.name (Manifest.agent_pipeline p)
  /\ map status (agents_executed r)
     = map Manifest.status (Manifest.agent_pipeline p)
  /\ file_path r = Manifest.file_path p
  /\ wasProcessed (file_path r) log' = true
  /\ wasProcessed (final_path r) log' = true
  /\ getFileHistory filePath log'
     = getFileHistory filePath log ++ (if isFile filePath r then [r] else []).
Proof.
  cbv zeta. unfold wasProcessed, getFileHistory, add. simpl.
  split; [reflexivity|]. split; [rewrite map_map; reflexivity|].
  split; [rewrite map_map; reflexivity|]. split; [reflexivity|].
  split; [|split].
  - rewrite existsb_app. simpl. unfold isFile at 2. simpl.
    rewrite String.eqb_refl. simpl. apply orb_true_r.
  - rewrite existsb_app. simpl. unfold isFile at 2. simpl.
    rewrite String.eqb_refl. rewrite !orb_true_r. reflexivity.
  - rewrite List.filter_app. simpl. reflexivity.
Qed.

(** X13.  [wasProcessed] answers [true] exactly for the files that have a
    history, and the history of a file holds the records of that file
    (by original or final path) and no others, in the order of the
    log. *)
Theorem wasProcessed_iff_history (filePath : string) (log : LogDoc) :
  (wasProcessed filePath log = true <-> getFileHistory filePath log <> [])
  /\ (forall r, In r (getFileHistory filePath log)
                <-> In r (completed log)
                    /\ (file_path r = filePath \/ final_path r = filePath)).
Proof.
  unfold wasProcessed, getFileHistory. split.
  - induction (completed log) as [|r l IH]; simpl.
    + split; [discriminate|congruence].
    + destruct (isFile filePath r); simpl; [split; [discriminate|reflexivity]|].
      exact IH.
  - intros r. rewrite filter_In. unfold isFile. rewrite orb_true_iff.
    rewrite !String.eqb_eq. reflexivity.
Qed.

Definition olderThan (cutoffDate : Z) (r : CompletionRecord) : bool :=
  completed_at_rec r <? cutoffDate.

Lemma filter_count_split (cutoffDate : Z) (l : list CompletionRecord) :
  (length (List.filter (fun r => (cutoffDate <=? completed_at_rec r)%Z) l)
   + length (List.filter (olderThan cutoffDate) l))%nat
  = length l.
Proof.
  unfold olderThan. induction l as [|r l IH]; simpl; [reflexivity|].
  destruct (Z.leb_spec cutoffDate (completed_at_rec r));
    destruct (Z.ltb_spec (completed_at_rec r) cutoffDate); simpl; lia.
Qed.

(** X14.  [cleanup] returns the number of records completed before the
    cut-off date and keeps the others in their order.  It leaves the log
    as it was when it finds nothing to remove, and a second clean-up
    with the same cut-off date removes nothing. *)
Theorem cleanup_removes_older (cutoffDate : Z) (log : LogDoc) :
  let removedCount := fst (cleanup cutoffDate log) in
  let log' := snd (cleanup cutoffDate log) in
  removedCount
  = Z.of_nat (length (List.filter (olderThan cutoffDate) (completed log)))
  /\ completed log'
     = List.filter (fun r => negb (olderThan cutoffDate r)) (completed log)
  /\ version log' = version log
  /\ (removedCount = 0 -> log' = log)
  /\ cleanup cutoffDate log' = (0, log').
Proof.
  cbv zeta. unfold cleanup.
  pose proof (filter_count_split cutoffDate (completed log)) as Hsplit.
  assert (Hsame : List.filter (fun r => negb (olderThan cutoffDate r))
                    (completed log)
                  = List.filter (fun r => cutoffDate <=? completed_at_rec r)
                      (completed log)).
  { apply List.filter_ext. intros r. unfold olderThan.
    destruct (Z.leb_spec cutoffDate (completed_at_rec r));
      destruct (Z.ltb_spec (completed_at_rec r) cutoffDate);
      simpl; try reflexivity; lia. }
  rewrite Hsame.
  set (kept := List.filter (fun r => cutoffDate <=? completed_at_rec r)
                 (completed log)) in *.
  destruct (Z.ltb_spec 0 (Z.of_nat (length (completed log))
                          - Z.of_nat (length kept))) as [Hpos|Hzero]; simpl.
  - split; [lia|]. split; [reflexivity|]. split; [reflexivity|].
    split; [lia|].
    assert (Hidem : List.filter (fun r => cutoffDate <=? completed_at_rec r)
                      kept = kept).
    { apply filter_idem. }
    rewrite Hidem. rewrite Z.sub_diag. simpl. reflexivity.
  - assert (Hlen : length kept = length (completed log)) by lia.
    assert (Hall : kept = completed log)
      by (apply filter_length_all; exact Hlen).
    split; [lia|]. split; [symmetry; exact Hall|]. split; [reflexivity|].
    split; [reflexivity|].
    fold kept. rewrite Hall, Z.sub_diag. simpl. reflexivity.
Qed.

(** The records that pass every filter that is set. *)
Definition accepts (filters : Filters) (r : CompletionRecord) : bool :=
  match start_date filters with
  | Some t => t <=? completed_at_rec r
  | None => true
  end
  && match end_date filters with
     | Some t => completed_at_rec r <=? t
     | None => true
     end
  && match truthy (filter_work_id filters) with
     | Some i => String.eqb (work_id r) i
     | None => true
     end
  && match truthy (file_path_pattern filters) with
     | Some pattern => matchesPath pattern r
     | None => true
     end
  && (if has_errors filters then (0 <? length (errors r))%nat else true)
  && (if has_retries filters then 0 <? retries r else true).

Definition unlimited (filters : Filters) : Filters :=
  {| start_date := start_date filters; end_date := end_date filters;
     filter_work_id := filter_work_id filters;
     file_path_pattern := file_path_pattern filters;
     has_errors := has_errors filters; has_retries := has_retries filters;
     limit := None |}.

Definition newerOrSame (a b : CompletionRecord) : Prop :=
  completed_at_rec b <= completed_at_rec a.

Lemma filterWhen_filter {X B} (x : option X) (p : X -> B -> bool)
    (l : list B) :
  filterWhen x p l
  = List.filter (fun r => match x with
                          | Some a => p a r
                          | None => true
                          end) l.
Proof.
  destruct x; simpl; [reflexivity|].
  induction l as [|y l IH]; simpl; [reflexivity|]. f_equal. exact IH.
Qed.

Lemma filter_true {B} (l : list B) : List.filter (fun _ => true) l = l.
Proof.
  induction l as [|y l IH]; simpl; [reflexivity|]. f_equal. exact IH.
Qed.

Lemma filter_and {B} (p q : B -> bool) (l : list B) :
  List.filter q (List.filter p l) = List.filter (fun r => p r && q r) l.
Proof.
  induction l as [|y l IH]; simpl; [reflexivity|].
  destruct (p y); simpl; [|exact IH].
  destruct (q y); simpl; [f_equal|]; exact IH.
Qed.

Lemma query_unlimited (filters : Filters) (log : LogDoc) :
  query (unlimited filters) log
  = Js.sort newestFirst (List.filter (accepts filters) (completed log)).
Proof.
  unfold query, unlimited. simpl. f_equal.
  rewrite !filterWhen_filter.
  assert (He : forall l : list CompletionRecord,
             (if has_errors filters
              then List.filter (fun r => (0 <? length (errors r))%nat) l
              else l)
             = List.filter (fun r => if has_errors filters
                                     then (0 <? length (errors r))%nat
                                     else true) l)
    by (intros l; destruct (has_errors filters);
        [reflexivity|symmetry; apply filter_true]).
  assert (Hr : forall l : list CompletionRecord,
             (if has_retries filters
              then List.filter (fun r => 0 <? retries r) l
              else l)
             = List.filter (fun r => if has_retries filters
                                     then 0 <? retries r
                                     else true) l)
    by (intros l; destruct (has_retries filters);
        [reflexivity|symmetry; apply filter_true]).
  rewrite Hr, He, !filter_and. apply List.filter_ext. intros r.
  unfold accepts. rewrite !andb_assoc. reflexivity.
Qed.

Lemma newestFirst_key x y :
  (newestFirst x y <=? 0)
  = (- completed_at_rec x <=? - completed_at_rec y).
Proof.
  unfold newestFirst.
  destruct (Z.leb_spec (completed_at_rec y - completed_at_rec x) 0);
    destruct (Z.leb_spec (- completed_at_rec x) (- completed_at_rec y));
    try reflexivity; lia.
Qed.

Lemma sorted_newest (l : list CompletionRecord) :
  StronglySorted newerOrSame (Js.sort newestFirst l).
Proof.
  pose proof (sort_sorted newestFirst (fun r => - completed_at_rec r)
                newestFirst_key l) as H.
  induction H as [|x s Hs IH Hx]; constructor; [exact IH|].
  eapply List.Forall_impl; [|exact Hx].
  unfold ascending, newerOrSame. intros. lia.
Qed.

(** X15.  [query] filters, sorts and limits.  Without a limit the result
    holds exactly the records of the log that pass every filter that is
    set, each as often as the log holds it, newest first.  A limit of 0
    is no limit; a positive limit [n] keeps the first [n] of these
    records, and all of them when they are fewer. *)
Theorem query_filters_sorts_limits (filters : Filters) (log : LogDoc) :
  let all := query (unlimited filters) log in
  Permutation all (List.filter (accepts filters) (completed log))
  /\ StronglySorted newerOrSame all
  /\ (limit filters = None \/ limit filters = Some 0 ->
      query filters log = all)
  /\ (forall n, limit filters = Some n -> 0 < n ->
      query filters log = firstn (Z.to_nat n) all
      /\ length (query filters log) = Nat.min (Z.to_nat n) (length all)).
Proof.
  cbv zeta. rewrite query_unlimited. split; [apply sort_perm|].
  split; [apply sorted_newest|].
  assert (Hq : query filters log
               = match limit filters with
                 | Some n =>
                     if n =? 0
                     then Js.sort newestFirst
                            (List.filter (accepts filters) (completed log))
                     else slice0 n
                            (Js.sort newestFirst
                               (List.filter (accepts filters) (completed log)))
                 | None =>
                     Js.sort newestFirst
                       (List.filter (accepts filters) (completed log))
                 end).
  { rewrite <- query_unlimited. unfold query, unlimited. simpl.
    reflexivity. }
  split.
  - intros [Hl|Hl]; rewrite Hq, Hl; reflexivity.
  - intros n Hl Hn. rewrite Hq, Hl.
    destruct (Z.eqb_spec n 0) as [->|_]; [lia|].
    unfold slice0. destruct (Z.leb_spec 0 n); [|lia].
    split; [reflexivity|]. apply length_firstn.
Qed.

Lemma query_filters_sorts_limits_witness :
  limit (Samples.lastTwo) = Some 2
  /\ 0 < 2
  /\ map work_id (query Samples.lastTwo Samples.threeDone)
     = ["wq-3000"; "wq-2000"].
Proof.
  assert (Hl : limit Samples.lastTwo = Some 2) by reflexivity.
  assert (Hn : 0 < 2) by lia.
  split; [exact Hl|]. split; [exact Hn|].
  destruct (query_filters_sorts_limits Samples.lastTwo Samples.threeDone)
    as (_ & _ & _ & Hlimited).
  destruct (Hlimited 2 Hl Hn) as [-> _]. reflexivity.
Defined.

Definition limited (n : Z) : Filters :=
  {| start_date := None; end_date := None; filter_work_id := None;
     file_path_pattern := None; has_errors := false; has_retries := false;
     limit := Some n |}.

(** X16.  [getRecent] and [query] treat the limit 0 differently:
    [getRecent(0)] is empty, a query with the limit 0 returns the whole
    log.  For every other limit [getRecent] is the query that has this
    limit and no filter; both are newest first. *)
Theorem getRecent_is_limited_query (n : Z) (log : LogDoc) :
  getRecent n log = (if n =? 0 then [] else query (limited n) log)
  /\ query (limited 0) log = Js.sort newestFirst (completed log)
  /\ length (query (limited 0) log) = length (completed log)
  /\ StronglySorted newerOrSame (getRecent n log).
Proof.
  assert (Hq : forall m, query (limited m) log
                         = if m =? 0
                           then Js.sort newestFirst (completed log)
                           else slice0 m (Js.sort newestFirst (completed log)))
    by reflexivity.
  split; [|split; [|split]].
  - rewrite Hq. unfold getRecent.
    destruct (Z.eqb_spec n 0) as [->|_]; reflexivity.
  - apply Hq.
  - rewrite Hq. simpl. apply Permutation_length. apply sort_perm.
  - unfold getRecent, slice0.
    pose proof (sorted_newest (completed log)) as Hs.
    revert Hs. generalize (Js.sort newestFirst (completed log)).
    intros l Hs.
    assert (Hfirst : forall k, StronglySorted newerOrSame (firstn k l)).
    { induction Hs as [|x s Hs IH Hx]; intros k.
      - rewrite firstn_nil. constructor.
      - destruct k; simpl; constructor; [apply IH|].
        apply List.Forall_forall. intros y Hy.
        apply (proj1 (List.Forall_forall _ _) Hx).
        rewrite <- (firstn_skipn k s). apply in_or_app. left. exact Hy. }
    destruct (0 <=? n); apply Hfirst.
Qed.

End CompletionLogFacts.

(** ** main-processor.js *)

Module ProcessorCoverage.

Import Processor ManifestFacts ProcessorFacts JsFacts.

Abbreviation ledger w := (Manifest.current_processing (manifest w)).
Abbreviation queued w := (Queue.queue (queue_doc w)).
Abbreviation logged w := (CompletionLog.completed (completionLog w)).

Lemma dequeueNext_some now d next :
  Queue.getNext d = Some next ->
  exists item q,
    Queue.dequeueNext now d = Ok (Some (item, q))
    /\ In item (Queue.queue d)
    /\ length (Queue.queue d) = S (length (Queue.queue q)).
Proof.
  intros Hnext. pose proof (QueueFacts.getNext_spec d) as Hspec.
  rewrite Hnext in Hspec. destruct Hspec as (b & a & Hq & _).
  assert (Hin : In next (Queue.queue d))
    by (rewrite Hq; apply in_or_app; right; left; reflexivity).
  destruct (QueueFacts.findIndex_found (Queue.has_id (Queue.id next))
              (Queue.queue d) next Hin (String.eqb_refl _))
    as [index Hindex].
  destruct (QueueFacts.findIndex_nth _ _ _ Hindex) as (item & Hn & _).
  exists item. eexists. unfold Queue.dequeueNext, Queue.startProcessing.
  rewrite Hnext, Hindex, Hn. simpl. split; [reflexivity|].
  split; [eapply nth_error_In; exact Hn|].
  eapply QueueFacts.splice1_length. exact Hn.
Qed.

Lemma dequeueNext_total now d :
  (Queue.queue d = [] /\ Queue.dequeueNext now d = Ok None)
  \/ exists item q,
       Queue.dequeueNext now d = Ok (Some (item, q))
       /\ In item (Queue.queue d)
       /\ length (Queue.queue d) = S (length (Queue.queue q)).
Proof.
  destruct (Queue.getNext d) as [next|] eqn:Hnext.
  - right. eapply dequeueNext_some. exact Hnext.
  - left. pose proof (QueueFacts.getNext_spec d) as Hspec.
    rewrite Hnext in Hspec. split; [exact Hspec|].
    unfold Queue.dequeueNext. rewrite Hnext. reflexivity.
Qed.

Lemma ids_length doc :
  length (ids doc) = length (Manifest.current_processing doc).
Proof. unfold ids. apply length_map. Qed.

Lemma add_ids now item doc :
  ids (snd (Manifest.add now item doc)) = ids doc ++ [Queue.id item].
Proof. unfold ids. simpl. rewrite map_app. reflexivity. Qed.

Lemma in_ids_findIndex workId doc :
  In workId (ids doc) ->
  exists index p,
    findIndex (Manifest.has_work_id workId) (Manifest.current_processing doc)
    = Some index
    /\ nth_error (Manifest.current_processing doc) index = Some p
    /\ Manifest.work_id p = workId.
Proof.
  intros Hin. unfold ids in Hin. apply in_map_iff in Hin.
  destruct Hin as (p0 & Hid & Hp0).
  assert (Hhas : Manifest.has_work_id workId p0 = true)
    by (unfold Manifest.has_work_id; rewrite Hid; apply String.eqb_refl).
  destruct (QueueFacts.findIndex_found _ _ p0 Hp0 Hhas) as [index Hindex].
  destruct (QueueFacts.findIndex_nth _ _ _ Hindex) as (p & Hn & Hp).
  exists index, p. split; [exact Hindex|]. split; [exact Hn|].
  apply String.eqb_eq. exact Hp.
Qed.

Lemma remove_known workId doc :
  In workId (ids doc) ->
  length (Manifest.current_processing doc)
  = S (length (Manifest.current_processing
                 (snd (Manifest.remove workId doc)))).
Proof.
  intros Hin. destruct (in_ids_findIndex _ _ Hin) as (index & p & Hi & Hn & _).
  unfold Manifest.remove. rewrite Hi. simpl.
  eapply QueueFacts.splice1_length. exact Hn.
Qed.

Lemma complete_known now workId finalOutput doc :
  In workId (ids doc) ->
  exists p doc',
    Manifest.complete now workId finalOutput doc = Ok (p, doc')
    /\ Manifest.work_id p = workId
    /\ doc' = snd (Manifest.remove workId doc)
    /\ option_map Manifest.agent_pipeline (Manifest.get workId doc)
       = Some (Manifest.agent_pipeline p).
Proof.
  intros Hin. destruct (in_ids_findIndex _ _ Hin) as (index & p & Hi & Hn & Hp).
  unfold Manifest.complete, Manifest.remove, Manifest.get.
  rewrite find_findIndex, Hi, Hn. simpl.
  eexists _, _. split; [reflexivity|]. simpl. repeat split. exact Hp.
Qed.

Section Dispatch.

Variable agents : Collaborators.
Variable maxRetries : Z.
Hypothesis maxRetries_nonneg : 0 <= maxRetries.

Lemma processItem_spec item w :
  In (Queue.id item) (ids (manifest w)) ->
  exists r w',
    processItem agents maxRetries item w = (r, w')
    /\ queue_doc w' = queue_doc w
    /\ match r with
       | Returned result =>
           exists file record,
             result = ItemCompleted (Queue.id item) file
             /\ length (ledger w) = S (length (ledger w'))
             /\ logged w' = logged w ++ [record]
             /\ CompletionLog.work_id record = Queue.id item
       | Thrown _ =>
           ids (manifest w') = ids (manifest w)
           /\ completionLog w' = completionLog w
       | OutOfFuel => False
       end.
Proof.
  intros Hin. unfold processItem.
  destruct (executeAgentPipeline_spec agents maxRetries (Queue.id item)
              (Queue.required_agents item) maxRetries_nonneg w)
    as (r & w1 & events & Hrun & _ & _ & (Hids & Hq & Hl) & Hr).
  destruct r as [[]|m|]; [| |congruence].
  - rewrite (bind_returned _ _ _ _ _ Hrun).
    destruct (loadDocumentState agents (Queue.path (Queue.file item)))
      as [finalState|e].
    + assert (Hin1 : In (Queue.id item) (ids (manifest w1)))
        by (rewrite Hids; exact Hin).
      destruct (complete_known (clock w1) (Queue.id item)
                  (finalOutput agents finalState) (manifest w1) Hin1)
        as (p & doc' & -> & Hp & -> & _).
      eexists _, _. split; [reflexivity|]. simpl. split; [exact Hq|].
      eexists _, _. split; [reflexivity|]. split.
      * rewrite <- (remove_known _ _ Hin1), <- !ids_length, Hids.
        reflexivity.
      * split; [rewrite Hl; reflexivity|exact Hp].
    + eexists _, _. split; [reflexivity|]. split; [exact Hq|].
      split; assumption.
  - rewrite (bind_thrown _ _ _ _ _ Hrun).
    eexists _, _. split; [reflexivity|]. split; [exact Hq|].
    split; assumption.
Qed.

Lemma processNext_spec w :
  exists r w',
    processNext agents maxRetries w = (Returned r, w')
    /\ length (ledger w') = length (ledger w)
    /\ match r with
       | Idle => queued w = [] /\ w' = w
       | ItemCompleted workId _ =>
           (exists item, In item (queued w) /\ Queue.id item = workId)
           /\ length (queued w) = S (length (queued w'))
           /\ exists record,
                logged w' = logged w ++ [record]
                /\ CompletionLog.work_id record = workId
       | ItemFailed workId _ =>
           (exists item, In item (queued w) /\ Queue.id item = workId)
           /\ length (queued w) = S (length (queued w'))
           /\ completionLog w' = completionLog w
       end.
Proof.
  unfold processNext.
  destruct (dequeueNext_total (clock w) (queue_doc w))
    as [[Hempty ->]|(item & q & -> & Hin & Hlen)].
  - eexists _, _. split; [reflexivity|]. repeat split. exact Hempty.
  - 
    match goal with
    | |- context [catch _ ?w2] =>
        assert (Hadded : In (Queue.id item) (ids (manifest w2)))
          by (unfold with_manifest, with_queue; cbn [manifest];
              rewrite add_ids; apply in_or_app; right; left; reflexivity);
        destruct (processItem_spec item w2 Hadded)
          as (r & w3 & Hrun & Hq3 & Hr);
        unfold catch; rewrite Hrun
    end.
    unfold with_manifest, with_queue in Hq3, Hr.
    cbn [manifest completionLog queue_doc] in Hq3, Hr.
    destruct r as [result|m|]; [| |contradiction].
    + destruct Hr as (file & record & -> & Hledger & Hlog & Hrec).
      eexists _, _. split; [reflexivity|].
      rewrite <- (ids_length (snd _)), add_ids, length_app, ids_length
        in Hledger.
      simpl in Hledger. split; [lia|].
      split; [exists item; split; [exact Hin|reflexivity]|].
      split; [rewrite Hq3; exact Hlen|].
      exists record. split; assumption.
    + destruct Hr as (Hids & Hlog). rewrite add_ids in Hids.
      eexists _, _. split; [reflexivity|].
      unfold with_manifest. cbn [manifest completionLog queue_doc].
      assert (Hin3 : In (Queue.id item) (ids (manifest w3)))
        by (rewrite Hids; apply in_or_app; right; left; reflexivity).
      pose proof (remove_known _ _ Hin3) as Hrem.
      pose proof (f_equal (@length _) Hids) as Hsame.
      rewrite length_app, !ids_length in Hsame. simpl in Hsame.
      split; [lia|].
      split; [exists item; split; [exact Hin|reflexivity]|].
      split; [rewrite Hq3; exact Hlen|exact Hlog].
Qed.

Lemma processLoop_spec fuel : forall results w,
  (length (queued w) < fuel)%nat ->
  exists results' w',
    processLoop agents maxRetries fuel results w = (Returned results', w')
    /\ queued w' = []
    /\ total results' = total results
    /\ completedCount results' + failedCount results'
       = completedCount results + failedCount results
         + Z.of_nat (length (queued w))
    /\ Z.of_nat (length (batchErrors results')) - failedCount results'
       = Z.of_nat (length (batchErrors results)) - failedCount results
    /\ length (ledger w') = length (ledger w)
    /\ Z.of_nat (length (logged w')) - completedCount results'
       = Z.of_nat (length (logged w)) - completedCount results.
Proof.
  induction fuel as [|fuel IH]; intros results w Hfuel; [lia|].
  simpl. destruct (processNext_spec w) as (r & w1 & Hnext & Hledger & Hr).
  rewrite (bind_returned _ _ _ _ _ Hnext).
  destruct r as [|workId file|workId message].
  - destruct Hr as [Hempty ->]. exists results, w.
    split; [reflexivity|]. rewrite Hempty. simpl.
    repeat split; lia.
  - destruct Hr as (_ & Hlen & record & Hlog & _).
    unfold bind at 1. simpl.
    match goal with
    | |- context [processLoop _ _ _ ?res ?w2] =>
        destruct (IH res w2) as (results' & w' & -> & Hq & Ht & Hc & He
                                 & Hl & Hg); [simpl; lia|]
    end.
    simpl in *. exists results', w'. split; [reflexivity|].
    rewrite Hlog, length_app in Hg. simpl in Hg.
    repeat split; try lia; try assumption.
  - destruct Hr as (_ & Hlen & Hlog).
    unfold bind at 1. simpl.
    match goal with
    | |- context [processLoop _ _ _ ?res ?w2] =>
        destruct (IH res w2) as (results' & w' & -> & Hq & Ht & Hc & He
                                 & Hl & Hg); [simpl; lia|]
    end.
    simpl in *. exists results', w'. split; [reflexivity|].
    rewrite Hlog in Hg. rewrite length_app in He. simpl in He.
    repeat split; try lia; try assumption.
Qed.

End Dispatch.

(** X17.  [processNext] never throws.  On an empty queue it returns
    [idle] and changes nothing.  Otherwise it takes exactly one item out
    of the queue and reports it completed or failed; either way the
    ledger holds as many records afterwards as before, and the completion
    log grows by one record of that item's id when the item completed
    and stays as it is when the item failed. *)
Theorem processNext_always_returns (agents : Collaborators)
    (maxRetries : Z) (w : World) :
  0 <= maxRetries ->
  exists r w',
    processNext agents maxRetries w = (Returned r, w')
    /\ length (ledger w') = length (ledger w)
    /\ match r with
       | Idle => queued w = [] /\ w' = w
       | ItemCompleted workId _ =>
           (exists item, In item (queued w) /\ Queue.id item = workId)
           /\ length (queued w) = S (length (queued w'))
           /\ exists record,
                logged w' = logged w ++ [record]
                /\ CompletionLog.work_id record = workId
       | ItemFailed workId _ =>
           (exists item, In item (queued w) /\ Queue.id item = workId)
           /\ length (queued w) = S (length (queued w'))
           /\ completionLog w' = completionLog w
       end.
Proof.
  intros Hmax. exact (processNext_spec agents maxRetries Hmax w).
Qed.

Lemma processNext_always_returns_witness :
  0 <= 3
  /\ exists w',
       processNext Samples.alwaysSucceeds 3 Samples.idle
       = (Returned (ItemCompleted "wq-1001" "commits/a.md"), w')
       /\ length (ledger w') = length (ledger Samples.idle)
       /\ length (queued w') = 1%nat
       /\ length (logged w') = 1%nat.
Proof.
  assert (Hmax : 0 <= 3) by lia.
  split; [exact Hmax|].
  destruct (processNext_always_returns Samples.alwaysSucceeds 3 Samples.idle
              Hmax) as (r & w' & Hrun & Hledger & Hr).
  assert (Hc : fst (processNext Samples.alwaysSucceeds 3 Samples.idle)
               = Returned (ItemCompleted "wq-1001" "commits/a.md"))
    by (vm_compute; reflexivity).
  rewrite Hrun in Hc. simpl in Hc. injection Hc as ->.
  destruct Hr as (_ & Hlen & record & Hlog & _).
  exists w'. split; [exact Hrun|]. split; [exact Hledger|].
  split.
  - simpl in Hlen. lia.
  - rewrite Hlog. reflexivity.
Defined.

(** X18.  [processAll] terminates when the queue is empty, after one
    dispatch per queued item: it reports as [total] the number of items
    that were queued, the completed and the failed items add up to it,
    there is one error entry per failed item, the completion log has
    grown by the number of completed items, and the ledger holds as many
    records as before. *)
Theorem processAll_drains_queue (agents : Collaborators) (maxRetries : Z)
    (fuel : nat) (w : World) :
  0 <= maxRetries ->
  (length (queued w) < fuel)%nat ->
  exists results w',
    processAll agents maxRetries fuel w = (Returned results, w')
    /\ queued w' = []
    /\ total results = Z.of_nat (length (queued w))
    /\ completedCount results + failedCount results = total results
    /\ Z.of_nat (length (batchErrors results)) = failedCount results
    /\ Z.of_nat (length (logged w'))
       = Z.of_nat (length (logged w)) + completedCount results
    /\ length (ledger w') = length (ledger w).
Proof.
  intros Hmax Hfuel. unfold processAll.
  match goal with
  | |- context [processLoop _ _ _ ?res w] =>
      destruct (processLoop_spec agents maxRetries Hmax fuel res w Hfuel)
        as (results & w' & Hrun & Hq & Ht & Hc & He & Hl & Hg)
  end.
  exists results, w'. simpl in *. split; [exact Hrun|].
  repeat split; try lia; assumption.
Qed.

Lemma processAll_drains_queue_witness :
  0 <= 3
  /\ (length (queued Samples.idle) < 3)%nat
  /\ exists results w',
       processAll Samples.failsThrice 3 3 Samples.idle
       = (Returned results, w')
       /\ queued w' = []
       /\ total results = 2
       /\ completedCount results + failedCount results = 2.
Proof.
  assert (Hmax : 0 <= 3) by lia.
  assert (Hfuel : (length (queued Samples.idle) < 3)%nat)
    by (vm_compute; lia).
  split; [exact Hmax|]. split; [exact Hfuel|].
  destruct (processAll_drains_queue Samples.failsThrice 3 3 Samples.idle
              Hmax Hfuel)
    as (results & w' & Hrun & Hq & Ht & Hc & _).
  exists results, w'. split; [exact Hrun|]. split; [exact Hq|].
  split; [exact Ht|]. rewrite Hc. exact Ht.
Defined.

(** *** A dispatch whose agents all complete *)

Definition namesOf (workId : string) (doc : Manifest.ManifestDoc)
  : option (list string) :=
  option_map (fun p => map Manifest.name (Manifest.agent_pipeline p))
    (Manifest.get workId doc).

Lemma find_replace_first_other {A} (p q : A -> bool) x (l : list A) :
  (forall y, p y = true -> q y = false) -> q x = false ->
  find q (Manifest.replace_first p x l) = find q l.
Proof.
  intros Hpq Hx. induction l as [|y l IH]; simpl; [reflexivity|].
  destruct (p y) eqn:Hy; simpl.
  - rewrite Hx, (Hpq y Hy). reflexivity.
  - rewrite IH. reflexivity.
Qed.

Lemma has_name_other a other s :
  other <> a -> Manifest.has_name a s = true ->
  Manifest.has_name other s = false.
Proof.
  unfold Manifest.has_name. intros Hother Hs. apply String.eqb_eq in Hs.
  apply String.eqb_neq. congruence.
Qed.

Lemma updateAgent_stage_frame now workId a st o doc doc' :
  Manifest.updateAgent now workId a st o doc = Ok doc' ->
  namesOf workId doc' = namesOf workId doc
  /\ forall other, other <> a ->
       stageStatus workId other doc' = stageStatus workId other doc.
Proof.
  unfold Manifest.updateAgent, namesOf, stageStatus, Manifest.get.
  destruct (find (Manifest.has_work_id workId)
              (Manifest.current_processing doc)) as [p|] eqn:Hp;
    [|discriminate].
  destruct (find (Manifest.has_name a) (Manifest.agent_pipeline p))
    as [s|] eqn:Hs; [|discriminate].
  intros [= <-]. cbn [Manifest.current_processing Manifest.with_processing].
  erewrite find_replace_first;
    [|exact Hp
     |unfold Manifest.has_work_id; simpl;
      rewrite (find_has_work_id _ _ _ Hp); apply String.eqb_refl].
  simpl. split.
  - f_equal. apply (map_replace_first _ _ _ _ _ Hs). apply set_status_name.
  - intros other Hother. f_equal. apply find_replace_first_other.
    + intros y Hy. eapply has_name_other; eassumption.
    + apply (has_name_other a); [exact Hother|].
      unfold Manifest.has_name. rewrite set_status_name.
      rewrite (find_has_name _ _ _ Hs). apply String.eqb_refl.
Qed.

Lemma find_name_in a (l : list Manifest.AgentEntry) :
  In a (map Manifest.name l) -> find (Manifest.has_name a) l <> None.
Proof.
  intros Hin. apply in_map_iff in Hin. destruct Hin as (s & Hs & Hin).
  intros Hnone. pose proof (find_none _ _ Hnone) as Hall.
  pose proof (proj1 (List.Forall_forall _ _) Hall s Hin) as Hfalse.
  unfold Manifest.has_name in Hfalse. rewrite Hs, String.eqb_refl in Hfalse.
  discriminate.
Qed.

Lemma find_name_nodup (l : list Manifest.AgentEntry) s :
  List.NoDup (map Manifest.name l) -> In s l ->
  find (Manifest.has_name (Manifest.name s)) l = Some s.
Proof.
  induction l as [|y l IH]; simpl; [intros _ []|].
  intros Hnd [->|Hin].
  - unfold Manifest.has_name. rewrite String.eqb_refl. reflexivity.
  - inversion Hnd as [|? ? Hy Hl]; subst.
    destruct (Manifest.has_name (Manifest.name s) y) eqn:Hsy.
    + apply String.eqb_eq in Hsy. exfalso. apply Hy. rewrite Hsy.
      apply in_map. exact Hin.
    + apply IH; assumption.
Qed.

Lemma add_get_fresh now item doc :
  ~ In (Queue.id item) (ids doc) ->
  Manifest.get (Queue.id item) (snd (Manifest.add now item doc))
  = Some (fst (Manifest.add now item doc)).
Proof.
  intros Hfresh. pose proof (not_in_ids_get _ _ Hfresh) as Hnone.
  unfold Manifest.get in *. simpl. rewrite find_app_first, Hnone. simpl.
  unfold Manifest.has_work_id. simpl. rewrite String.eqb_refl. reflexivity.
Qed.

Lemma ids_remove_last workId doc base :
  ~ In workId base -> ids doc = base ++ [workId] ->
  ids (snd (Manifest.remove workId doc)) = base.
Proof.
  intros Hfresh Hids. rewrite ids_remove, Hids.
  rewrite (findIndex_app_first _ base workId []).
  - apply splice1_last.
  - intros y Hy. apply not_true_is_false. intros Heq.
    apply String.eqb_eq in Heq. subst y. contradiction.
  - apply String.eqb_refl.
Qed.

Section Completing.

Variable agents : Collaborators.
Variable maxRetries : Z.
Hypothesis maxRetries_nonneg : 0 <= maxRetries.
Variable workId : string.

Lemma whileLoop_first_try fuel a d w m :
  execute agents (executions w) a = Completed d ->
  Manifest.updateAgent (clock w) workId a Manifest.completed
    (Some (Manifest.AgentResult d None)) (manifest w) = Ok m ->
  whileLoop agents maxRetries (S fuel) workId a 0 w
  = (Returned tt,
     {| queue_doc := queue_doc w; manifest := m;
        completionLog := completionLog w; clock := clock w;
        executions := S (executions w);
        trace := trace w ++ [Attempt a] |}).
Proof.
  intros Hexec Hm. simpl.
  destruct (Z.leb_spec 0 maxRetries) as [_|]; [|lia]. simpl.
  unfold bind, catch, tryStage, bind, attempt. rewrite Hexec.
  unfold updateAgent. simpl. rewrite Hm. reflexivity.
Qed.

Lemma runStage_completes a d w :
  stageStatus workId a (manifest w) <> None ->
  execute agents (executions w) a = Completed d ->
  exists w',
    runStage agents maxRetries workId a w = (Returned tt, w')
    /\ trace w' = trace w ++ [Attempt a]
    /\ executions w' = S (executions w)
    /\ clock w' = clock w
    /\ frame w w'
    /\ stageStatus workId a (manifest w') = Some Manifest.completed
    /\ namesOf workId (manifest w') = namesOf workId (manifest w)
    /\ (forall other, other <> a ->
          stageStatus workId other (manifest w')
          = stageStatus workId other (manifest w)).
Proof.
  intros Hknown Hexec.
  destruct (Manifest.updateAgent (clock w) workId a Manifest.in_progress
              None (manifest w)) as [m1|e] eqn:H1;
    [|apply updateAgent_err in H1; contradiction].
  destruct (updateAgent_ok _ _ _ _ _ _ _ H1) as (_ & Hs1 & Hids1).
  destruct (updateAgent_stage_frame _ _ _ _ _ _ _ H1) as (Hn1 & Ho1).
  destruct (Manifest.updateAgent (clock w) workId a Manifest.completed
              (Some (Manifest.AgentResult d None)) m1) as [m2|e] eqn:H2;
    [|apply updateAgent_err in H2; congruence].
  destruct (updateAgent_ok _ _ _ _ _ _ _ H2) as (_ & Hs2 & Hids2).
  destruct (updateAgent_stage_frame _ _ _ _ _ _ _ H2) as (Hn2 & Ho2).
  eexists. split.
  - unfold runStage, bind. unfold updateAgent at 1. rewrite H1.
    apply (whileLoop_first_try _ a d (with_manifest w m1) m2);
      [exact Hexec|exact H2].
  - simpl. split; [reflexivity|]. split; [reflexivity|].
    split; [reflexivity|]. split.
    { unfold frame. simpl. split; [congruence|]. split; reflexivity. }
    split; [exact Hs2|]. split; [congruence|].
    intros other Hother. rewrite (Ho2 other Hother). apply Ho1. exact Hother.
Qed.

Hypothesis agents_complete :
  forall n a, exists d, execute agents n a = Completed d.

Lemma pipeline_completes : forall stages w,
  List.NoDup stages ->
  (forall a, In a stages -> stageStatus workId a (manifest w) <> None) ->
  exists w',
    executeAgentPipeline agents maxRetries workId stages w = (Returned tt, w')
    /\ trace w' = trace w ++ map Attempt stages
    /\ clock w' = clock w
    /\ frame w w'
    /\ namesOf workId (manifest w') = namesOf workId (manifest w)
    /\ (forall a, In a stages ->
          stageStatus workId a (manifest w') = Some Manifest.completed)
    /\ (forall other, ~ In other stages ->
          stageStatus workId other (manifest w')
          = stageStatus workId other (manifest w)).
Proof.
  induction stages as [|a rest IH]; intros w Hnd Hknown.
  - exists w. simpl. split; [reflexivity|].
    split; [symmetry; apply app_nil_r|]. split; [reflexivity|].
    split; [apply frame_refl|]. split; [reflexivity|].
    split; [intros a []|reflexivity].
  - inversion Hnd as [|? ? Ha Hrest]; subst.
    destruct (agents_complete (executions w) a) as [d Hexec].
    destruct (runStage_completes a d w (Hknown a (or_introl eq_refl)) Hexec)
      as (w1 & Hrun1 & Ht1 & _ & Hc1 & Hf1 & Hs1 & Hn1 & Ho1).
    assert (Hknown1 : forall b, In b rest ->
              stageStatus workId b (manifest w1) <> None).
    { intros b Hb. rewrite Ho1; [apply Hknown; right; exact Hb|].
      intros ->. contradiction. }
    destruct (IH w1 Hrest Hknown1)
      as (w' & Hrun & Ht & Hc & Hf & Hn & Hdone & Ho).
    exists w'. split.
    { simpl. rewrite (bind_returned _ _ _ _ _ Hrun1). exact Hrun. }
    split; [rewrite Ht, Ht1, <- app_assoc; reflexivity|].
    split; [congruence|]. split; [eapply frame_trans; eassumption|].
    split; [congruence|]. split.
    + intros b [<-|Hb]; [|apply Hdone; exact Hb].
      rewrite (Ho a Ha). exact Hs1.
    + intros other Hother. rewrite Ho; [apply Ho1|]; intros Heq;
        apply Hother; [left; congruence|right; exact Heq].
Qed.

End Completing.

Lemma dispatch_completes agents maxRetries w item q finalState :
  0 <= maxRetries ->
  Queue.dequeueNext (clock w) (queue_doc w) = Ok (Some (item, q)) ->
  ~ In (Queue.id item) (ids (manifest w)) ->
  List.NoDup (Queue.required_agents item) ->
  (forall n a, exists d, execute agents n a = Completed d) ->
  loadDocumentState agents (Queue.path (Queue.file item)) = Ok finalState ->
  exists w' record,
    processNext agents maxRetries w
    = (Returned (ItemCompleted (Queue.id item) (doc_path finalState)), w')
    /\ trace w' = trace w ++ map Attempt (Queue.required_agents item)
    /\ clock w' = clock w
    /\ queue_doc w' = q
    /\ ids (manifest w') = ids (manifest w)
    /\ logged w' = logged w ++ [record]
    /\ CompletionLog.work_id record = Queue.id item
    /\ map CompletionLog.name (CompletionLog.agents_executed record)
       = Queue.required_agents item
    /\ Forall (fun a => CompletionLog.status a = Manifest.completed)
         (CompletionLog.agents_executed record).
Proof.
  intros Hmax Hdeq Hfresh Hnd Hagents Hload.
  unfold processNext. rewrite Hdeq.
  set (w2 := with_manifest (with_queue w q)
               (snd (Manifest.add (clock (with_queue w q)) item
                       (manifest (with_queue w q))))).
  assert (Hget2 : Manifest.get (Queue.id item) (manifest w2)
                  = Some (fst (Manifest.add (clock w) item (manifest w))))
    by (apply add_get_fresh; exact Hfresh).
  assert (Hnames2 : namesOf (Queue.id item) (manifest w2)
                    = Some (Queue.required_agents item)).
  { unfold namesOf. rewrite Hget2. simpl. rewrite map_map. simpl.
    rewrite map_id. reflexivity. }
  assert (Hknown2 : forall a, In a (Queue.required_agents item) ->
            stageStatus (Queue.id item) a (manifest w2) <> None).
  { intros a Ha. unfold stageStatus. rewrite Hget2.
    cbn [fst Manifest.add Manifest.agent_pipeline].
    pose proof (find_name_in a
                  (map Manifest.pending_entry (Queue.required_agents item)))
      as Hfind.
    rewrite map_map in Hfind. simpl in Hfind. rewrite map_id in Hfind.
    specialize (Hfind Ha).
    destruct (find _ _); [discriminate|contradiction]. }
  destruct (pipeline_completes agents maxRetries Hmax (Queue.id item) Hagents
              (Queue.required_agents item) w2 Hnd Hknown2)
    as (w3 & Hrun & Ht & Hc & (Hids & Hq & Hl) & Hn & Hdone & _).
  assert (Hids3 : ids (manifest w3) = ids (manifest w) ++ [Queue.id item])
    by (rewrite Hids; apply add_ids).
  assert (Hin3 : In (Queue.id item) (ids (manifest w3)))
    by (rewrite Hids3; apply in_or_app; right; left; reflexivity).
  destruct (complete_known (clock w3) (Queue.id item)
              (finalOutput agents finalState) (manifest w3) Hin3)
    as (p & doc' & Hcomplete & Hp & -> & Hpipe).
  unfold catch, processItem. rewrite (bind_returned _ _ _ _ _ Hrun).
  rewrite Hload, Hcomplete.
  eexists _, _. split; [reflexivity|].
  cbn [trace clock queue_doc manifest completionLog with_log with_manifest].
  split; [exact Ht|]. split; [exact Hc|]. split; [exact Hq|].
  split; [apply ids_remove_last; assumption|].
  split; [rewrite Hl; reflexivity|]. split; [exact Hp|].
  assert (Hpl : Manifest.get (Queue.id item) (manifest w3) <> None)
    by (intros Hnone; rewrite Hnone in Hpipe; discriminate).
  destruct (Manifest.get (Queue.id item) (manifest w3)) as [p3|] eqn:Hget3;
    [|contradiction].
  simpl in Hpipe. injection Hpipe as Hpipe.
  assert (Hnames3 : map Manifest.name (Manifest.agent_pipeline p)
                    = Queue.required_agents item).
  { rewrite Hnames2 in Hn. unfold namesOf in Hn. rewrite Hget3 in Hn.
    simpl in Hn. rewrite <- Hpipe. congruence. }
  split.
  - simpl. rewrite map_map. simpl. exact Hnames3.
  - simpl. apply List.Forall_forall. intros e He.
    apply in_map_iff in He. destruct He as (s & <- & Hs). simpl.
    assert (Hname : In (Manifest.name s) (Queue.required_agents item))
      by (rewrite <- Hnames3; apply in_map; exact Hs).
    pose proof (Hdone _ Hname) as Hstatus. unfold stageStatus in Hstatus.
    rewrite Hget3, Hpipe in Hstatus.
    rewrite (find_name_nodup _ s) in Hstatus;
      [|rewrite Hnames3; exact Hnd|exact Hs].
    simpl in Hstatus. congruence.
Qed.

(** X19.  A dispatch whose agents all complete.  When the dispatched
    item has an id that the ledger does not hold and its stage names are
    distinct, every execution completes and the final document state
    loads, [processNext] runs every stage exactly once in the order of
    [required_agents], without waiting, and reports the item completed.
    The ledger then holds the records it held before, and the completion
    log has one more record: it has the item's id and the item's stages
    in order, each with the status [completed]. *)
Theorem dispatch_with_completing_agents (agents : Collaborators)
    (maxRetries : Z) (w : World) (item : Queue.WorkItem)
    (q : Queue.QueueDoc) (finalState : DocumentState) :
  0 <= maxRetries ->
  Queue.dequeueNext (clock w) (queue_doc w) = Ok (Some (item, q)) ->
  ~ In (Queue.id item) (ids (manifest w)) ->
  List.NoDup (Queue.required_agents item) ->
  (forall n a, exists d, execute agents n a = Completed d) ->
  loadDocumentState agents (Queue.path (Queue.file item)) = Ok finalState ->
  exists w' record,
    processNext agents maxRetries w
    = (Returned (ItemCompleted (Queue.id item) (doc_path finalState)), w')
    /\ trace w' = trace w ++ map Attempt (Queue.required_agents item)
    /\ clock w' = clock w
    /\ queue_doc w' = q
    /\ ids (manifest w') = ids (manifest w)
    /\ logged w' = logged w ++ [record]
    /\ CompletionLog.work_id record = Queue.id item
    /\ map CompletionLog.name (CompletionLog.agents_executed record)
       = Queue.required_agents item
    /\ Forall (fun a => CompletionLog.status a = Manifest.completed)
         (CompletionLog.agents_executed record).
Proof.
  exact (dispatch_completes agents maxRetries w item q finalState).
Qed.

Lemma dispatch_with_completing_agents_witness :
  0 <= 3
  /\ ~ In (Queue.id Samples.itemA) (ids (manifest Samples.idle))
  /\ List.NoDup (Queue.required_agents Samples.itemA)
  /\ (forall n a, exists d,
        execute Samples.alwaysSucceeds n a = Completed d)
  /\ exists w' record,
       processNext Samples.alwaysSucceeds 3 Samples.idle
       = (Returned (ItemCompleted "wq-1001" "commits/a.md"), w')
       /\ trace w'
          = [Attempt "normalization"; Attempt "keyword-extraction";
             Attempt "linking"; Attempt "tagging"; Attempt "filing"]
       /\ ledger w' = []
       /\ logged w' = [record]
       /\ Forall (fun a => CompletionLog.status a = Manifest.completed)
            (CompletionLog.agents_executed record).
Proof.
  assert (Hmax : 0 <= 3) by lia.
  assert (Hfresh : ~ In (Queue.id Samples.itemA)
                     (ids (manifest Samples.idle)))
    by (intros []).
  assert (Hnd : List.NoDup (Queue.required_agents Samples.itemA))
    by exact (QueueFacts.determineAgents_distinct "commits/a.md"
                Samples.gitCommit).
  assert (Hagents : forall n a, exists d,
             execute Samples.alwaysSucceeds n a = Completed d)
    by (intros n a; exists 5; reflexivity).
  split; [exact Hmax|]. split; [exact Hfresh|]. split; [exact Hnd|].
  split; [exact Hagents|].
  destruct (dispatch_with_completing_agents Samples.alwaysSucceeds 3
              Samples.idle Samples.itemA
              {| Queue.version := "1.0"; Queue.last_updated := Some 2000;
                 Queue.queue := [Samples.itemB] |}
              {| doc_path := "commits/a.md"; keywords := Some 4;
                 linked_concepts := Some 1; tags := [] |}
              Hmax eq_refl Hfresh Hnd Hagents eq_refl)
    as (w' & record & Hrun & Ht & _ & _ & Hids & Hlog & _ & _ & Hall).
  exists w', record. split; [exact Hrun|]. split; [exact Ht|].
  split; [|split; [exact Hlog|exact Hall]].
  unfold ids in Hids. simpl in Hids.
  destruct (ledger w'); [reflexivity|discriminate].
Defined.

(** *** Retrying the failed records of the ledger *)

Section Retrying.

Variable agents : Collaborators.
Variable maxRetries : Z.
Hypothesis maxRetries_nonneg : 0 <= maxRetries.

Lemma retryFailedItem_frame item w :
  exists r w',
    retryFailedItem agents maxRetries item w = (r, w')
    /\ r <> OutOfFuel
    /\ frame w w'.
Proof.
  unfold retryFailedItem.
  destruct (find (Manifest.is_status Manifest.failed)
              (Manifest.agent_pipeline item)) as [failedAgent|].
  - unfold bind at 1, updateAgent.
    destruct (Manifest.updateAgent (clock w) (Manifest.work_id item)
                (Manifest.name failedAgent) Manifest.pending None
                (manifest w)) as [m|e] eqn:Hupdate.
    + destruct (updateAgent_ok _ _ _ _ _ _ _ Hupdate) as (_ & _ & Hids).
      match goal with
      | |- context [catch (executeAgentPipeline _ _ ?i ?stages)] =>
          destruct (executeAgentPipeline_spec agents maxRetries i stages
                      maxRetries_nonneg (with_manifest w m))
            as (r & w1 & events & Hrun & _ & _ & (Hids1 & Hq1 & Hl1) & Hr)
      end.
      unfold bind, catch. rewrite Hrun.
      destruct r as [[]|message|]; [| |congruence];
        (eexists _, _; split; [reflexivity|]; split; [discriminate|];
         unfold frame; simpl in *; repeat split; congruence).
    + eexists _, _. split; [reflexivity|]. split; [discriminate|].
      apply frame_refl.
  - eexists _, _. split; [reflexivity|]. split; [discriminate|].
    apply frame_refl.
Qed.

Lemma retryFailedItems_frame items : forall w,
  exists r w',
    retryFailedItems agents maxRetries items w = (r, w')
    /\ r <> OutOfFuel
    /\ frame w w'.
Proof.
  induction items as [|item rest IH]; intros w; simpl.
  - eexists _, _. split; [reflexivity|]. split; [discriminate|].
    apply frame_refl.
  - destruct (retryFailedItem_frame item w) as (r & w1 & Hrun & Hr & Hf).
    destruct r as [[]|message|]; [| |congruence].
    + rewrite (bind_returned _ _ _ _ _ Hrun).
      destruct (IH w1) as (r' & w' & Hrest & Hr' & Hf').
      exists r', w'. split; [exact Hrest|]. split; [exact Hr'|].
      eapply frame_trans; eassumption.
    + rewrite (bind_thrown _ _ _ _ _ Hrun).
      eexists _, _. split; [reflexivity|]. split; [discriminate|exact Hf].
Qed.

Definition hasFailedStage (item : Manifest.ProcessingRecord) : bool :=
  existsb (Manifest.is_status Manifest.failed) (Manifest.agent_pipeline item).

Lemma retryFailed_spec w :
  exists r w',
    retryFailed agents maxRetries w = (r, w')
    /\ r <> OutOfFuel
    /\ frame w w'
    /\ (r = Returned true <->
        Forall (fun item => hasFailedStage item = false) (ledger w))
    /\ (r = Returned true -> w' = w).
Proof.
  unfold retryFailed, Manifest.getAll. fold hasFailedStage.
  destruct (List.filter hasFailedStage (ledger w)) as [|item rest] eqn:Hfilter.
  - simpl. eexists _, _. split; [reflexivity|]. split; [discriminate|].
    split; [apply frame_refl|]. split; [|reflexivity].
    split; [intros _|reflexivity].
    apply List.Forall_forall. intros x Hx.
    destruct (hasFailedStage x) eqn:Hfx; [|reflexivity].
    assert (Hin : In x (List.filter hasFailedStage (ledger w)))
      by (apply filter_In; split; assumption).
    rewrite Hfilter in Hin. destruct Hin.
  - simpl.
    destruct (retryFailedItems_frame (item :: rest) w)
      as (r & w' & Hrun & Hr & Hf).
    assert (Hsome : In item (List.filter hasFailedStage (ledger w)))
      by (rewrite Hfilter; left; reflexivity).
    apply filter_In in Hsome. destruct Hsome as [Hin Hfailed].
    assert (Hnot : ~ Forall (fun item => hasFailedStage item = false)
                     (ledger w)).
    { intros Hall.
      pose proof (proj1 (List.Forall_forall _ _) Hall item Hin). congruence. }
    change (bind (bind (retryFailedItem agents maxRetries item)
                    (fun _ => retryFailedItems agents maxRetries rest))
              (fun _ => ret false) w)
      with (bind (retryFailedItems agents maxRetries (item :: rest))
              (fun _ => ret false) w).
    unfold bind at 1. rewrite Hrun.
    destruct r as [[]|message|]; [| |congruence];
      (eexists _, _; split; [reflexivity|]; split; [discriminate|];
       split; [exact Hf|]; split;
       [split; [discriminate|intros; contradiction]|discriminate]).
Qed.

End Retrying.

(** X20.  [retryFailed] never finishes an item: whatever the retried
    stages do, the ledger holds the same records afterwards (by id, in
    the same order), and the queue and the completion log are as they
    were.  It returns the idle result exactly when no record of the
    ledger has a failed stage, and then it changes nothing. *)
Theorem retryFailed_keeps_every_record (agents : Collaborators)
    (maxRetries : Z) (w : World) :
  0 <= maxRetries ->
  exists r w',
    retryFailed agents maxRetries w = (r, w')
    /\ r <> OutOfFuel
    /\ ids (manifest w') = ids (manifest w)
    /\ queue_doc w' = queue_doc w
    /\ completionLog w' = completionLog w
    /\ (r = Returned true <->
        Forall (fun item => hasFailedStage item = false) (ledger w))
    /\ (r = Returned true -> w' = w).
Proof.
  intros Hmax.
  destruct (retryFailed_spec agents maxRetries Hmax w)
    as (r & w' & Hrun & Hr & (Hids & Hq & Hl) & Hidle & Hsame).
  exists r, w'. repeat split; try assumption; apply Hidle.
Qed.

Lemma retryFailed_keeps_every_record_witness :
  0 <= 3
  /\ exists w',
       retryFailed Samples.alwaysSucceeds 3
         (with_manifest Samples.inFlight Samples.stuck)
       = (Returned false, w')
       /\ ids (manifest w') = ["wq-1000"]
       /\ Manifest.isComplete "wq-1000" (manifest w') = true
       /\ logged w' = [].
Proof.
  assert (Hmax : 0 <= 3) by lia.
  split; [exact Hmax|].
  destruct (retryFailed_keeps_every_record Samples.alwaysSucceeds 3
              (with_manifest Samples.inFlight Samples.stuck) Hmax)
    as (r & w' & Hrun & _ & Hids & _ & Hlog & _).
  assert (Hr : fst (retryFailed Samples.alwaysSucceeds 3
                      (with_manifest Samples.inFlight Samples.stuck))
               = Returned false)
    by (vm_compute; reflexivity).
  assert (Hdone : Manifest.isComplete "wq-1000"
                    (manifest
                       (snd (retryFailed Samples.alwaysSucceeds 3
                               (with_manifest Samples.inFlight
                                  Samples.stuck))))
                  = true)
    by (vm_compute; reflexivity).
  rewrite Hrun in Hr, Hdone. cbn [fst snd] in Hr, Hdone. subst r.
  exists w'. split; [exact Hrun|]. split.
  - rewrite Hids. vm_compute. reflexivity.
  - split; [exact Hdone|]. rewrite Hlog. reflexivity.
Defined.

End ProcessorCoverage.

(** ** recovery-processor.js *)

Module RecoveryCoverage.

Import Processor Recovery ManifestFacts ProcessorFacts RecoveryFacts.

(** The recovery state after [incrementRetryCount(workId)]. *)
Definition bumped (workId : string) (s : State) : RecoveryState :=
  {| retries :=
       <[workId := attemptsOf workId s + 1]> (retries (recoveryState s));
     lastRetry :=
       <[workId := clock (world s)]> (lastRetry (recoveryState s));
     permanentFailures := permanentFailures (recoveryState s) |}.

(** The recovery state after [markPermanentFailure(workId)]. *)
Definition quarantine (workId : string) (st : RecoveryState)
  : RecoveryState :=
  {| retries := retries st;
     lastRetry := lastRetry st;
     permanentFailures :=
       if includes_id workId (permanentFailures st)
       then permanentFailures st
       else permanentFailures st ++ [workId] |}.

Lemma markPermanentFailure_effects workId s :
  exists s',
    markPermanentFailure workId s = (Returned tt, s')
    /\ recoveryState s' = quarantine workId (recoveryState s)
    /\ stats s' = stats s
    /\ world s'
       = with_manifest (world s)
           (snd (Manifest.remove workId (manifest (world s)))).
Proof.
  destruct s as [w [r l p] st].
  unfold markPermanentFailure, quarantine, Recovery.bind, loadRecoveryState,
    saveRecoveryState, lift, Recovery.ret. simpl.
  destruct (includes_id workId p); eexists; (split; [reflexivity|]);
    simpl; repeat split.
Qed.

Lemma resetFailed_stats workId task remainingAgents : forall s,
  stats (snd (resetFailed workId task remainingAgents s)) = stats s.
Proof.
  induction remainingAgents as [|agentName rest IH]; intros s; simpl;
    [reflexivity|].
  unfold Recovery.bind.
  destruct (find (Manifest.has_name agentName) (Manifest.agent_pipeline task))
    as [agent|]; [destruct (Manifest.is_status Manifest.failed agent)|];
    try (unfold Recovery.ret; apply IH).
  unfold lift.
  destruct (updateAgent workId agentName Manifest.pending None (world s))
    as [[[]|m|] w']; simpl; try reflexivity.
  rewrite IH. reflexivity.
Qed.

Section Pass.

Variable agents : Collaborators.
Variable options : Options.
Variable processorMaxRetries : Z.
Hypothesis processorMaxRetries_nonneg : 0 <= processorMaxRetries.

(** The history of a pass that gets as far as the wait. *)
Definition started (task : Manifest.ProcessingRecord) (s s' : State) : Prop :=
  exists events,
    trace (world s')
    = trace (world s)
      ++ Sleep (backoffDelay options
                  (attemptsOf (Manifest.work_id task) s + 1)) :: events.

Lemma retryTask_effects task s :
  exists r s',
    retryTask agents options processorMaxRetries task s = (r, s')
    /\ match r with
       | Returned (PermanentFailure _ None) =>
           maxRetries options <= attemptsOf (Manifest.work_id task) s
           /\ recoveryState s'
              = quarantine (Manifest.work_id task) (recoveryState s)
           /\ stats s' = countPermanentFailure (stats s)
           /\ trace (world s') = trace (world s)
       | Returned (Skipped _) =>
           attemptsOf (Manifest.work_id task) s < maxRetries options
           /\ resumeFromAgent (findLastCheckpoint task) = None
           /\ recoveryState s' = recoveryState s
           /\ stats s' = countSkipped (stats s)
           /\ world s' = world s
       | Returned (Recovered _ _) =>
           attemptsOf (Manifest.work_id task) s < maxRetries options
           /\ resumeFromAgent (findLastCheckpoint task) <> None
           /\ recoveryState s' = bumped (Manifest.work_id task) s
           /\ (exists detail,
                 stats s' = countRecovered detail (stats s)
                 /\ detail_retry_count detail
                    = attemptsOf (Manifest.work_id task) s + 1)
           /\ started task s s'
       | Returned (Failed _ _ n) =>
           attemptsOf (Manifest.work_id task) s < maxRetries options
           /\ resumeFromAgent (findLastCheckpoint task) <> None
           /\ n = attemptsOf (Manifest.work_id task) s + 1
           /\ recoveryState s' = bumped (Manifest.work_id task) s
           /\ (exists e, stats s' = pushError e (stats s))
           /\ started task s s'
       | Returned (PermanentFailure _ (Some _)) =>
           attemptsOf (Manifest.work_id task) s < maxRetries options
           /\ resumeFromAgent (findLastCheckpoint task) <> None
           /\ recoveryState s'
              = quarantine (Manifest.work_id task)
                  (bumped (Manifest.work_id task) s)
           /\ (exists e,
                 stats s' = countPermanentFailure (pushError e (stats s)))
           /\ started task s s'
       | Thrown _ =>
           attemptsOf (Manifest.work_id task) s < maxRetries options
           /\ resumeFromAgent (findLastCheckpoint task) <> None
           /\ recoveryState s' = bumped (Manifest.work_id task) s
           /\ stats s' = stats s
           /\ started task s s'
       | OutOfFuel => False
       end.
Proof.
  cbv beta iota zeta delta [retryTask hasExceededRetryLimit getRetryCount
    loadRecoveryState Recovery.bind Recovery.ret update_stats
    incrementRetryCount saveRecoveryState now].
  unfold started, bumped, attemptsOf. fold (remainingAgents task).
  destruct (maxRetries options <=?
            Manifest.or_zero
              (retries (recoveryState s) !! Manifest.work_id task))
    eqn:Hexceeded.
  { apply Z.leb_le in Hexceeded.
    destruct (markPermanentFailure_effects (Manifest.work_id task) s)
      as (s1 & -> & R1 & S1 & W1).
    eexists _, _. split; [reflexivity|]. simpl.
    rewrite R1, S1, W1. conjuncts. }
  apply Z.leb_gt in Hexceeded.
  destruct (resumeFromAgent (findLastCheckpoint task)) as [resume|] eqn:Hresume.
  2:{ eexists _, _. split; [reflexivity|]. simpl. conjuncts. }
  assert (Hsome : Some resume <> None) by discriminate.
  unfold lift at 1. cbn [sleep world recoveryState stats].
  match goal with
  | |- context [resetFailed ?wid task (remainingAgents task) ?st] =>
      destruct (resetFailed_spec wid task (remainingAgents task) st)
        as (r3 & s3 & Hreset & R3 & _ & T3 & Hr3);
      pose proof (resetFailed_stats wid task (remainingAgents task) st) as S3;
      rewrite Hreset in S3 |- *
  end.
  cbn [snd world recoveryState stats trace] in R3, T3, S3.
  destruct r3 as [[]|m|]; [| |congruence].
  2:{ eexists _, _. split; [reflexivity|]. simpl.
      rewrite R3, S3, T3. conjuncts. eexists. reflexivity. }
  destruct (pipeline_caught agents processorMaxRetries (Manifest.work_id task)
              (remainingAgents task) s3 processorMaxRetries_nonneg)
    as (r4 & s4 & -> & R4 & S4 & (_ & events & T4 & _)).
  assert (Htrace : trace (world s4)
                   = trace (world s)
                     ++ Sleep (backoffDelay options
                                 (Manifest.or_zero
                                    (retries (recoveryState s)
                                     !! Manifest.work_id task) + 1))
                        :: events)
    by (rewrite T4, T3, <- app_assoc; reflexivity).
  destruct r4 as [[]|message].
  { eexists _, _. split; [reflexivity|]. simpl.
    rewrite R4, R3, S4, S3. conjuncts.
    - eexists. split; reflexivity.
    - eexists. exact Htrace. }
  destruct (maxRetries options <=?
            Manifest.or_zero
              (retries (recoveryState s) !! Manifest.work_id task) + 1)
    eqn:Hreached.
  - match goal with
    | |- context [markPermanentFailure ?wid ?st] =>
        destruct (markPermanentFailure_effects wid st)
          as (s5 & -> & R5 & S5 & W5)
    end.
    cbn [world recoveryState stats] in R5, S5, W5.
    eexists _, _. split; [reflexivity|]. simpl.
    rewrite R5, S5, W5, R4, R3, S4, S3. simpl. conjuncts.
    + eexists. reflexivity.
    + eexists. exact Htrace.
  - eexists _, _. split; [reflexivity|]. simpl.
    rewrite R4, R3, S4, S3. conjuncts.
    + eexists. reflexivity.
    + eexists. exact Htrace.
Qed.

End Pass.

(** *** The bookkeeping of a recovery run *)

(** No id is quarantined twice. *)
Definition listedOnce (st : RecoveryState) : Prop :=
  List.NoDup (permanentFailures st).

(** Every id that has a retry count has the time of its last retry. *)
Definition dated (st : RecoveryState) : Prop :=
  dom (retries st) = dom (lastRetry st).

Definition consistent (st st' : RecoveryState) : Prop :=
  (listedOnce st -> listedOnce st') /\ (dated st -> dated st').

(** Quarantined ids stay quarantined and no retry count goes down. *)
Definition grows (st st' : RecoveryState) : Prop :=
  (forall workId,
      In workId (permanentFailures st) -> In workId (permanentFailures st'))
  /\ (forall workId,
        Manifest.or_zero (retries st !! workId)
        <= Manifest.or_zero (retries st' !! workId)).

Lemma includes_id_iff workId l : includes_id workId l = true <-> In workId l.
Proof.
  unfold includes_id. rewrite existsb_exists. split.
  - intros (x & Hx & He). apply String.eqb_eq in He. subst. exact Hx.
  - intros H. exists workId. split; [exact H|apply String.eqb_refl].
Qed.

Lemma quarantine_consistent workId st :
  consistent st (quarantine workId st).
Proof.
  unfold consistent, listedOnce, dated, quarantine. simpl.
  split; [|auto]. intros Hnd.
  destruct (includes_id workId (permanentFailures st)) eqn:Hin;
    [exact Hnd|].
  apply QueueFacts.nodup_snoc; [exact Hnd|]. intros H.
  apply includes_id_iff in H. congruence.
Qed.

Lemma quarantine_grows workId st : grows st (quarantine workId st).
Proof.
  split; simpl; [|intros; lia]. intros i Hin.
  destruct (includes_id workId (permanentFailures st)); [exact Hin|].
  apply in_or_app. left. exact Hin.
Qed.

Lemma bumped_consistent workId s :
  consistent (recoveryState s) (bumped workId s).
Proof.
  unfold consistent, listedOnce, dated, bumped. simpl.
  split; [auto|]. intros Hdom. rewrite !dom_insert_L, Hdom. reflexivity.
Qed.

Lemma consistent_refl st : consistent st st.
Proof. split; auto. Qed.

Lemma consistent_trans st1 st2 st3 :
  consistent st1 st2 -> consistent st2 st3 -> consistent st1 st3.
Proof. intros [A1 B1] [A2 B2]. split; auto. Qed.

Lemma bumped_grows workId s : grows (recoveryState s) (bumped workId s).
Proof.
  split; simpl; [auto|]. intros i. unfold attemptsOf.
  destruct (decide (workId = i)) as [->|Hne].
  - rewrite lookup_insert_eq. simpl. lia.
  - rewrite lookup_insert_ne by exact Hne. lia.
Qed.

Lemma grows_refl st : grows st st.
Proof. split; intros; [assumption|lia]. Qed.

Lemma grows_trans st1 st2 st3 : grows st1 st2 -> grows st2 st3 -> grows st1 st3.
Proof.
  intros [P1 C1] [P2 C2]. split; intros i; [auto|].
  specialize (C1 i). specialize (C2 i). lia.
Qed.

(** The sums that the report shows. *)
Definition settled (st : Stats) : Z :=
  Recovery.recovered st + Recovery.skipped st + permanentFailuresCount st.

Definition reported (st : Stats) : Z :=
  Recovery.recovered st + Recovery.skipped st
  + Z.of_nat (length (Recovery.errors st)).

Definition accounts (n : Z) (st st' : Stats) : Prop :=
  failuresFound st' = failuresFound st
  /\ Recovery.recovered st' - Z.of_nat (length (recoveryDetails st'))
     = Recovery.recovered st - Z.of_nat (length (recoveryDetails st))
  /\ settled st' <= settled st + n
  /\ reported st' <= reported st + n.

Definition accountsFully (n : Z) (st st' : Stats) : Prop :=
  settled st + Z.of_nat (length (Recovery.errors st)) + n
  <= settled st' + Z.of_nat (length (Recovery.errors st')).

Section Run.

Variable agents : Collaborators.
Variable options : Options.
Variable processorMaxRetries : Z.
Hypothesis processorMaxRetries_nonneg : 0 <= processorMaxRetries.

Lemma retryTask_bookkeeping task s :
  exists r s',
    retryTask agents options processorMaxRetries task s = (r, s')
    /\ r <> OutOfFuel
    /\ consistent (recoveryState s) (recoveryState s')
    /\ grows (recoveryState s) (recoveryState s')
    /\ accounts 1 (stats s) (stats s')
    /\ match r with
       | Returned _ => accountsFully 1 (stats s) (stats s')
       | _ => True
       end.
Proof.
  destruct (retryTask_effects agents options processorMaxRetries
              processorMaxRetries_nonneg task s) as (r & s' & Hrun & Hr).
  exists r, s'. split; [exact Hrun|].
  unfold accounts, accountsFully, settled, reported.
  destruct r as [[wid [message|]|wid|wid d|wid message n]|message|];
    [| | | | | |contradiction].
  - destruct Hr as (_ & _ & -> & (e & ->) & _). simpl.
    rewrite length_app. simpl.
    split; [discriminate|].
    split; [eapply consistent_trans;
            [apply bumped_consistent|apply quarantine_consistent]|].
    split; [eapply grows_trans; [apply bumped_grows|apply quarantine_grows]|].
    repeat split; lia.
  - destruct Hr as (_ & -> & -> & _). simpl.
    split; [discriminate|]. split; [apply quarantine_consistent|].
    split; [apply quarantine_grows|]. repeat split; lia.
  - destruct Hr as (_ & _ & -> & -> & _). simpl.
    split; [discriminate|]. split; [apply consistent_refl|].
    split; [apply grows_refl|]. repeat split; lia.
  - destruct Hr as (_ & _ & -> & (detail & -> & _) & _). simpl.
    rewrite length_app. simpl.
    split; [discriminate|]. split; [apply bumped_consistent|].
    split; [apply bumped_grows|]. repeat split; lia.
  - destruct Hr as (_ & _ & _ & -> & (e & ->) & _). simpl.
    rewrite length_app. simpl.
    split; [discriminate|]. split; [apply bumped_consistent|].
    split; [apply bumped_grows|]. repeat split; lia.
  - destruct Hr as (_ & _ & -> & -> & _).
    split; [discriminate|]. split; [apply bumped_consistent|].
    split; [apply bumped_grows|]. repeat split; lia.
Qed.

Lemma retryEach_bookkeeping tasks : forall s,
  exists r s',
    retryEach agents options processorMaxRetries tasks s = (r, s')
    /\ r <> OutOfFuel
    /\ consistent (recoveryState s) (recoveryState s')
    /\ grows (recoveryState s) (recoveryState s')
    /\ accounts (Z.of_nat (length tasks)) (stats s) (stats s')
    /\ match r with
       | Returned _ =>
           accountsFully (Z.of_nat (length tasks)) (stats s) (stats s')
       | _ => True
       end.
Proof.
  induction tasks as [|task rest IH]; intros s.
  - exists (Returned tt), s. split; [reflexivity|]. split; [discriminate|].
    split; [apply consistent_refl|]. split; [apply grows_refl|].
    unfold accounts, accountsFully. simpl. repeat split; lia.
  - destruct (retryTask_bookkeeping task s)
      as (r & s1 & Hrun & Hr & Hc1 & Hg1 & Ha1 & Hf1).
    cbn [retryEach].
    destruct r as [result|message|]; [| |congruence].
    + rewrite (rbind_returned _ _ _ _ _ Hrun).
      destruct (IH s1) as (r' & s' & Hrest & Hr' & Hc & Hg & Ha & Hf).
      exists r', s'. split; [exact Hrest|]. split; [exact Hr'|].
      split; [eapply consistent_trans; eassumption|].
      split; [eapply grows_trans; eassumption|].
      unfold accounts, accountsFully in *. cbn [length].
      rewrite !Nat2Z.inj_succ. split; [repeat split; lia|].
      destruct r'; try exact I. lia.
    + rewrite (rbind_thrown _ _ _ _ _ Hrun).
      exists (Thrown message), s1. split; [reflexivity|].
      split; [discriminate|]. split; [exact Hc1|]. split; [exact Hg1|].
      unfold accounts in *. cbn [length]. rewrite !Nat2Z.inj_succ.
      split; [repeat split; lia|exact I].
Qed.

Lemma recoverAll_spec s :
  exists r s',
    recoverAll agents options processorMaxRetries s = (r, s')
    /\ r <> OutOfFuel
    /\ consistent (recoveryState s) (recoveryState s')
    /\ grows (recoveryState s) (recoveryState s')
    /\ (stats s = no_stats ->
        let found :=
          Z.of_nat (length (detectFailedTasks options (clock (world s))
                              (manifest (world s)))) in
        failuresFound (stats s') = found
        /\ Recovery.recovered (stats s')
           = Z.of_nat (length (recoveryDetails (stats s')))
        /\ settled (stats s') <= found
        /\ reported (stats s') <= found
        /\ match r with
           | Returned report =>
               report = stats s'
               /\ found
                  <= settled report
                     + Z.of_nat (length (Recovery.errors report))
           | _ => True
           end).
Proof.
  unfold recoverAll, Recovery.bind, now, lift, update_stats. simpl.
  match goal with
  | |- context [retryEach _ _ _ ?tasks ?s1] =>
      destruct (retryEach_bookkeeping tasks s1)
        as (r & s' & -> & Hr & Hc & Hg & Ha & Hf)
  end.
  simpl in Hc, Hg, Ha, Hf.
  destruct r as [[]|message|]; [| |congruence];
    (eexists _, _; split; [reflexivity|]; split; [discriminate|];
     split; [exact Hc|]; split; [exact Hg|]);
    intros Hfresh; rewrite Hfresh in Ha; try rewrite Hfresh in Hf;
    unfold accounts, accountsFully, settled, reported in *;
    simpl in *; repeat split; lia.
Qed.

End Run.

(** X21.  A recovery run keeps its bookkeeping in order, however it
    ends: it returns or throws, no id is listed twice among the permanent
    failures if none was, every id with a retry count has a last-retry
    time if that held before, an id that is quarantined stays
    quarantined, and no retry count goes down. *)
Theorem recoverAll_keeps_bookkeeping (agents : Collaborators)
    (options : Options) (processorMaxRetries : Z) (s : State) :
  0 <= processorMaxRetries ->
  exists r s',
    recoverAll agents options processorMaxRetries s = (r, s')
    /\ r <> OutOfFuel
    /\ (List.NoDup (permanentFailures (recoveryState s)) ->
        List.NoDup (permanentFailures (recoveryState s')))
    /\ (dom (retries (recoveryState s)) = dom (lastRetry (recoveryState s)) ->
        dom (retries (recoveryState s')) = dom (lastRetry (recoveryState s')))
    /\ (forall workId, quarantined workId s -> quarantined workId s')
    /\ (forall workId, attemptsOf workId s <= attemptsOf workId s').
Proof.
  intros Hmax.
  destruct (recoverAll_spec agents options processorMaxRetries Hmax s)
    as (r & s' & Hrun & Hr & (Hnd & Hd) & (Hq & Ha) & _).
  exists r, s'. split; [exact Hrun|]. split; [exact Hr|].
  split; [exact Hnd|]. split; [exact Hd|]. split; [exact Hq|exact Ha].
Qed.

Lemma recoverAll_keeps_bookkeeping_witness :
  0 <= 3
  /\ exists r s',
       recoverAll Samples.alwaysFails default_options 3
         (Samples.recovering Samples.stuck) = (r, s')
       /\ r <> OutOfFuel
       /\ attemptsOf "wq-1000" (Samples.recovering Samples.stuck)
          <= attemptsOf "wq-1000" s'.
Proof.
  assert (Hmax : 0 <= 3) by lia.
  split; [exact Hmax|].
  destruct (recoverAll_keeps_bookkeeping Samples.alwaysFails default_options 3
              (Samples.recovering Samples.stuck) Hmax)
    as (r & s' & Hrun & Hr & _ & _ & _ & Ha).
  exists r, s'. split; [exact Hrun|]. split; [exact Hr|apply Ha].
Defined.



(** X23.  The report of a recovery run adds up.  Starting from the
    counters of a new processor, [failuresFound] is the number of
    detected tasks, [recovered] is the number of recovery details,
    neither recovered + skipped + permanent failures nor recovered +
    skipped + errors exceeds it, and when the run returns, every detected
    task is counted: the recovered, skipped, permanent failures and
    errors together are at least [failuresFound]. *)
Theorem recoverAll_report_adds_up (agents : Collaborators) (options : Options)
    (processorMaxRetries : Z) (s : State) :
  0 <= processorMaxRetries ->
  stats s = no_stats ->
  exists r s',
    recoverAll agents options processorMaxRetries s = (r, s')
    /\ r <> OutOfFuel
    /\ failuresFound (stats s')
       = Z.of_nat (length (detectFailedTasks options (clock (world s))
                             (manifest (world s))))
    /\ Recovery.recovered (stats s')
       = Z.of_nat (length (recoveryDetails (stats s')))
    /\ Recovery.recovered (stats s') + Recovery.skipped (stats s')
       + permanentFailuresCount (stats s')
       <= failuresFound (stats s')
    /\ Recovery.recovered (stats s') + Recovery.skipped (stats s')
       + Z.of_nat (length (Recovery.errors (stats s')))
       <= failuresFound (stats s')
    /\ match r with
       | Returned report =>
           report = stats s'
           /\ failuresFound report
              <= Recovery.recovered report + Recovery.skipped report
                 + permanentFailuresCount report
                 + Z.of_nat (length (Recovery.errors report))
       | _ => True
       end.
Proof.
  intros Hmax Hfresh.
  destruct (recoverAll_spec agents options processorMaxRetries Hmax s)
    as (r & s' & Hrun & Hr & _ & _ & Hstats).
  destruct (Hstats Hfresh) as (Hfound & Hdetails & Hsettled & Hreported & Hall).
  unfold settled, reported in *.
  exists r, s'. split; [exact Hrun|]. split; [exact Hr|].
  split; [exact Hfound|]. split; [exact Hdetails|].
  split; [lia|]. split; [lia|].
  destruct r as [report|message|]; try exact I.
  destruct Hall as [-> Hsum]. split; [reflexivity|]. lia.
Qed.

Lemma recoverAll_report_adds_up_witness :
  0 <= 3
  /\ stats (Samples.recovering Samples.stuck) = no_stats
  /\ exists report s',
       recoverAll Samples.alwaysFails default_options 3
         (Samples.recovering Samples.stuck) = (Returned report, s')
       /\ failuresFound report = 1
       /\ Recovery.recovered report = 0
       /\ length (Recovery.errors report) = 1%nat.
Proof.
  assert (Hmax : 0 <= 3) by lia.
  assert (Hfresh : stats (Samples.recovering Samples.stuck) = no_stats)
    by reflexivity.
  split; [exact Hmax|]. split; [exact Hfresh|].
  destruct (recoverAll_report_adds_up Samples.alwaysFails default_options 3
              (Samples.recovering Samples.stuck) Hmax Hfresh)
    as (r & s' & Hrun & _ & Hfound & _ & _ & _ & Hall).
  assert (Hc : fst (recoverAll Samples.alwaysFails default_options 3
                      (Samples.recovering Samples.stuck))
               = Returned
                   (stats (snd (recoverAll Samples.alwaysFails
                                  default_options 3
                                  (Samples.recovering Samples.stuck)))))
    by (vm_compute; reflexivity).
  assert (Hn : Z.of_nat (length (detectFailedTasks default_options
                                   (clock (world (Samples.recovering
                                                    Samples.stuck)))
                                   (manifest (world (Samples.recovering
                                                       Samples.stuck)))))
               = 1)
    by (vm_compute; reflexivity).
  assert (Hv : Recovery.recovered
                 (stats (snd (recoverAll Samples.alwaysFails
                                default_options 3
                                (Samples.recovering Samples.stuck)))) = 0
               /\ length (Recovery.errors
                            (stats (snd (recoverAll Samples.alwaysFails
                                           default_options 3
                                           (Samples.recovering
                                              Samples.stuck)))))
                  = 1%nat)
    by (vm_compute; split; reflexivity).
  rewrite Hrun in Hc, Hv. cbn [fst snd] in Hc, Hv. subst r.
  rewrite Hn in Hfound.
  exists (stats s'), s'. split; [exact Hrun|]. split; [exact Hfound|].
  exact Hv.
Defined.

(** *** Cleaning the recovery state *)

Lemma in_ids_existsb workId doc :
  existsb (Manifest.has_work_id workId) (Manifest.getAll doc) = true
  <-> In workId (ids doc).
Proof.
  unfold ids, Manifest.getAll. rewrite existsb_exists, in_map_iff.
  unfold Manifest.has_work_id.
  split; intros (p & H1 & H2).
  - exists p. split; [apply String.eqb_eq; exact H2|exact H1].
  - exists p. split; [exact H2|apply String.eqb_eq; exact H1].
Qed.

Lemma cleanable_spec doc st workId :
  cleanable doc st workId = true
  <-> ~ In workId (ids doc) /\ ~ In workId (permanentFailures st).
Proof.
  unfold cleanable.
  rewrite andb_true_iff, !negb_true_iff, <- in_ids_existsb,
    <- includes_id_iff.
  split; intros [H1 H2]; split;
    first [congruence | apply not_true_is_false; assumption].
Qed.

Lemma cleanable_false doc st workId :
  In workId (ids doc) \/ In workId (permanentFailures st) ->
  cleanable doc st workId = false.
Proof.
  intros Hkept. apply not_true_is_false. intros Hc.
  apply cleanable_spec in Hc. tauto.
Qed.

(** X24.  [cleanup] forgets the retry bookkeeping of finished items and
    of nothing else.  For an id that has a record in the ledger or is
    quarantined, the retry count and the last-retry time stay as they
    are; for any other id the retry count is deleted, and with it the
    last-retry time.  The ledger, the counters of the report and the list
    of permanent failures are untouched, the returned number is the
    number of retry counts deleted, and a second clean-up deletes
    nothing. *)
Theorem cleanup_forgets_only_finished (s : State) :
  exists cleaned s',
    cleanup s
    = (Returned (cleaned,
                 Z.of_nat (length (permanentFailures (recoveryState s)))),
       s')
    /\ world s' = world s
    /\ stats s' = stats s
    /\ permanentFailures (recoveryState s')
       = permanentFailures (recoveryState s)
    /\ (forall workId,
          In workId (ids (manifest (world s))) \/ quarantined workId s ->
          retries (recoveryState s') !! workId
          = retries (recoveryState s) !! workId
          /\ lastRetry (recoveryState s') !! workId
             = lastRetry (recoveryState s) !! workId)
    /\ (forall workId,
          ~ In workId (ids (manifest (world s))) ->
          ~ quarantined workId s ->
          retries (recoveryState s') !! workId = None
          /\ (retries (recoveryState s) !! workId <> None ->
              lastRetry (recoveryState s') !! workId = None))
    /\ cleaned
       = Z.of_nat (size (retries (recoveryState s)))
         - Z.of_nat (size (retries (recoveryState s')))
    /\ 0 <= cleaned
    /\ exists s'',
         cleanup s'
         = (Returned (0,
                      Z.of_nat (length (permanentFailures (recoveryState s)))),
            s'')
         /\ recoveryState s'' = recoveryState s'.
Proof.
  unfold cleanup, Recovery.bind, loadRecoveryState, lift, saveRecoveryState,
    Recovery.ret, quarantined.
  cbn [world recoveryState stats retries lastRetry permanentFailures].
  set (doc := manifest (world s)). set (st := recoveryState s).
  set (kept := filter (fun kv : string * Z => cleanable doc st (fst kv) = false)
                 (retries st)).
  set (keptLast := filter (fun kv : string * Z =>
                             ¬ (is_Some (retries st !! fst kv)
                                ∧ cleanable doc st (fst kv) = true))
                     (lastRetry st)).
  eexists _, _. split; [reflexivity|].
  cbn [world recoveryState stats retries lastRetry permanentFailures].
  split; [reflexivity|]. split; [reflexivity|]. split; [reflexivity|].
  assert (Hkept : forall workId,
             cleanable doc st workId = false ->
             kept !! workId = retries st !! workId
             /\ keptLast !! workId = lastRetry st !! workId).
  { intros workId Hc. split.
    - destruct (retries st !! workId) as [n|] eqn:Hn.
      + apply map_lookup_filter_Some. split; [exact Hn|exact Hc].
      + apply map_lookup_filter_None. left. exact Hn.
    - destruct (lastRetry st !! workId) as [t|] eqn:Ht.
      + apply map_lookup_filter_Some. split; [exact Ht|].
        simpl. intros [_ Hyes]. congruence.
      + apply map_lookup_filter_None. left. exact Ht. }
  assert (Hgone : forall workId,
             cleanable doc st workId = true ->
             kept !! workId = None
             /\ (retries st !! workId <> None -> keptLast !! workId = None)).
  { intros workId Hc. split.
    - apply map_lookup_filter_None. right. intros n _. simpl. congruence.
    - intros Hsome. apply map_lookup_filter_None. right. intros t _ Hnot.
      apply Hnot. simpl. split; [|exact Hc].
      destruct (retries st !! workId); [eexists; reflexivity|contradiction]. }
  split.
  { intros workId Hin. apply Hkept. apply cleanable_false. exact Hin. }
  split.
  { intros workId H1 H2. apply Hgone. apply cleanable_spec.
    split; assumption. }
  split; [reflexivity|]. split.
  { pose proof (map_subseteq_size kept (retries st)
                  (map_filter_subseteq _ _)). lia. }
  assert (Hid1 : filter (fun kv : string * Z =>
                           cleanable doc
                             {| retries := kept; lastRetry := keptLast;
                                permanentFailures := permanentFailures st |}
                             (fst kv) = false) kept = kept).
  { apply map_filter_id. intros i x Hx.
    apply map_lookup_filter_Some in Hx. exact (proj2 Hx). }
  assert (Hid2 : filter (fun kv : string * Z =>
                           ¬ (is_Some (kept !! fst kv)
                              ∧ cleanable doc
                                  {| retries := kept; lastRetry := keptLast;
                                     permanentFailures :=
                                       permanentFailures st |}
                                  (fst kv) = true)) keptLast = keptLast).
  { apply map_filter_id. intros i x Hx. simpl. intros [[n Hn] Hc].
    apply map_lookup_filter_Some in Hn. simpl in Hn.
    unfold cleanable in Hc, Hn. simpl in Hc, Hn. destruct Hn as [_ Hn].
    congruence. }
  eexists. split.
  - fold doc. rewrite Hid1, Hid2, Z.sub_diag. reflexivity.
  - reflexivity.
Qed.

(** *** Records with nothing left to run *)

Lemma nothing_follows task :
  List.NoDup (map Manifest.name (Manifest.agent_pipeline task)) ->
  (Manifest.agent_pipeline task = []
   \/ exists before a,
        Manifest.agent_pipeline task = before ++ [a]
        /\ Manifest.status a = Manifest.completed) ->
  resumeFromAgent (findLastCheckpoint task) = None.
Proof.
  intros Hnd [Hempty|(before & a & Hp & Ha)]; unfold findLastCheckpoint.
  - rewrite Hempty. reflexivity.
  - rewrite Hp in *. rewrite List.filter_app. simpl.
    assert (Hdone : Manifest.is_status Manifest.completed a = true)
      by (unfold Manifest.is_status; rewrite Ha; reflexivity).
    rewrite Hdone, last_snoc.
    rewrite (findIndex_app_first _ before a []).
    + cbn [resumeFromAgent].
      assert (Hout : nth_error (before ++ [a]) (S (length before)) = None)
        by (apply nth_error_None; rewrite length_app; simpl; lia).
      rewrite Hout. reflexivity.
    + intros y Hy. apply not_true_is_false. intros Heq.
      apply String.eqb_eq in Heq. rewrite map_app in Hnd.
      apply NoDup_remove_2 in Hnd. apply Hnd. rewrite app_nil_r.
      simpl. rewrite <- Heq. apply in_map. exact Hy.
    + apply String.eqb_refl.
Qed.

(** X25.  A record with nothing left to run is skipped.  When the
    pipeline of a detected task is empty, or its last stage is completed
    (stage names being distinct), a recovery pass below the retry limit
    returns [skipped]: it counts the task as skipped and touches neither
    the retry count nor the ledger, and no stage is run. *)
Theorem finished_pipeline_is_skipped (agents : Collaborators)
    (options : Options) (processorMaxRetries : Z)
    (task : Manifest.ProcessingRecord) (s : State) :
  attemptsOf (Manifest.work_id task) s < maxRetries options ->
  List.NoDup (map Manifest.name (Manifest.agent_pipeline task)) ->
  (Manifest.agent_pipeline task = []
   \/ exists before a,
        Manifest.agent_pipeline task = before ++ [a]
        /\ Manifest.status a = Manifest.completed) ->
  exists s',
    retryTask agents options processorMaxRetries task s
    = (Returned (Skipped (Manifest.work_id task)), s')
    /\ world s' = world s
    /\ recoveryState s' = recoveryState s
    /\ stats s' = countSkipped (stats s).
Proof.
  intros Hbelow Hnd Hlast.
  pose proof (nothing_follows task Hnd Hlast) as Hnone.
  cbv beta iota zeta delta [retryTask hasExceededRetryLimit getRetryCount
    loadRecoveryState Recovery.bind Recovery.ret update_stats].
  unfold attemptsOf in Hbelow.
  destruct (Z.leb_spec (maxRetries options)
              (Manifest.or_zero
                 (retries (recoveryState s) !! Manifest.work_id task)));
    [lia|].
  rewrite Hnone. eexists. split; [reflexivity|]. repeat split.
Qed.

Lemma finished_pipeline_is_skipped_witness :
  attemptsOf "wq-1000" (Samples.recovering Samples.allDone) < 3
  /\ map Manifest.status
       (Manifest.agent_pipeline (Samples.firstTask Samples.allDone))
     = [Manifest.completed; Manifest.skipped; Manifest.completed;
        Manifest.completed]
  /\ exists s',
       retryTask Samples.alwaysFails default_options 3
         (Samples.firstTask Samples.allDone)
         (Samples.recovering Samples.allDone)
       = (Returned (Skipped "wq-1000"), s')
       /\ world s' = world (Samples.recovering Samples.allDone)
       /\ Recovery.skipped (stats s') = 1.
Proof.
  assert (Hbelow : attemptsOf (Manifest.work_id
                                 (Samples.firstTask Samples.allDone))
                     (Samples.recovering Samples.allDone)
                   < maxRetries default_options)
    by (vm_compute; reflexivity).
  assert (Hnd : List.NoDup
                  (map Manifest.name
                     (Manifest.agent_pipeline
                        (Samples.firstTask Samples.allDone))))
    by (vm_compute; repeat constructor; simpl; intuition discriminate).
  assert (Hlast : Manifest.agent_pipeline (Samples.firstTask Samples.allDone)
                  = []
                  \/ exists before a,
                       Manifest.agent_pipeline
                         (Samples.firstTask Samples.allDone)
                       = before ++ [a]
                       /\ Manifest.status a = Manifest.completed).
  { right.
    exists (firstn 3 (Manifest.agent_pipeline
                        (Samples.firstTask Samples.allDone))),
           (List.nth 3 (Manifest.agent_pipeline
                          (Samples.firstTask Samples.allDone))
              (Manifest.pending_entry "")).
    split; vm_compute; reflexivity. }
  split; [exact Hbelow|]. split; [vm_compute; reflexivity|].
  destruct (finished_pipeline_is_skipped Samples.alwaysFails default_options 3
              (Samples.firstTask Samples.allDone)
              (Samples.recovering Samples.allDone) Hbelow Hnd Hlast)
    as (s' & Hrun & Hw & _ & Hs).
  exists s'. split; [exact Hrun|]. split; [exact Hw|].
  rewrite Hs. reflexivity.
Defined.

End RecoveryCoverage.

(** ** filing-agent.js: the filing agent *)

Module FilingFacts.

Import Filing.

Lemma safeLoop_reaches lib destinationPath : forall n fuel c,
  (n <= fuel)%nat ->
  (forall j, c <= j < c + Z.of_nat n ->
     existsSync lib (numbered lib destinationPath j) = true) ->
  existsSync lib (numbered lib destinationPath (c + Z.of_nat n)) = false ->
  safeLoop lib fuel destinationPath (numbered lib destinationPath c) (c + 1)
  = Some (numbered lib destinationPath (c + Z.of_nat n)).
Proof.
  induction n as [|n IH]; intros fuel c Hfuel Htaken Hfree.
  - replace (c + Z.of_nat 0) with c in * by lia.
    destruct fuel; simpl; rewrite Hfree; reflexivity.
  - destruct fuel as [|fuel]; [lia|]. simpl.
    rewrite (Htaken c) by lia.
    replace (c + Z.of_nat (S n)) with (c + 1 + Z.of_nat n) in * by lia.
    apply IH; [lia| |exact Hfree].
    intros j Hj. apply Htaken. lia.
Qed.

Lemma safeLoop_free lib destinationPath : forall fuel safePath counter r,
  safeLoop lib fuel destinationPath safePath counter = Some r ->
  existsSync lib r = false.
Proof.
  induction fuel as [|fuel IH]; intros safePath counter r; simpl;
    destruct (existsSync lib safePath) eqn:He; try discriminate;
    try (intros [= <-]; exact He).
  apply IH.
Qed.

(** X26.  [generateSafeFilename] returns the first free name: the
    destination path itself when nothing exists there, and otherwise
    [base-k.ext] for the least [k >= 1] for which no such file exists;
    the loop needs [k] rounds.  Whatever it returns does not exist. *)
Theorem generateSafeFilename_first_free (lib : PathLib) (fuel : nat)
    (destinationPath : string) :
  (existsSync lib destinationPath = false ->
   generateSafeFilename lib fuel destinationPath = Some destinationPath)
  /\ (forall k,
        1 <= k -> (Z.to_nat k <= fuel)%nat ->
        existsSync lib destinationPath = true ->
        (forall j, 1 <= j < k ->
           existsSync lib (numbered lib destinationPath j) = true) ->
        existsSync lib (numbered lib destinationPath k) = false ->
        generateSafeFilename lib fuel destinationPath
        = Some (numbered lib destinationPath k))
  /\ (forall r,
        generateSafeFilename lib fuel destinationPath = Some r ->
        existsSync lib r = false).
Proof.
  unfold generateSafeFilename. split; [|split].
  - intros Hfree. destruct fuel; simpl; rewrite Hfree; reflexivity.
  - intros k Hk Hfuel Hthere Htaken Hfree.
    destruct fuel as [|fuel]; [lia|]. simpl. rewrite Hthere.
    pose proof (safeLoop_reaches lib destinationPath (Z.to_nat (k - 1))
                  fuel 1) as Hloop.
    replace (1 + Z.of_nat (Z.to_nat (k - 1))) with k in Hloop by lia.
    apply Hloop; [lia| |exact Hfree].
    intros j Hj. apply Htaken. lia.
  - intros r. apply safeLoop_free.
Qed.

Lemma generateSafeFilename_first_free_witness :
  Filing.existsSync Samples.notesFolder "notes/a.md" = true
  /\ Filing.existsSync Samples.notesFolder "notes/a-1.md" = true
  /\ generateSafeFilename Samples.notesFolder 2 "notes/a.md"
     = Some "notes/a-2.md".
Proof.
  split; [reflexivity|]. split; [reflexivity|].
  apply (proj1 (proj2 (generateSafeFilename_first_free Samples.notesFolder 2
                         "notes/a.md")) 2).
  - lia.
  - simpl. lia.
  - reflexivity.
  - intros j Hj. assert (j = 1) by lia. subst j. reflexivity.
  - reflexivity.
Defined.






End FilingFacts.

(** ** batch-processor.js *)

Module BatchFacts.

Import Processor Batch ProcessorFacts ProcessorCoverage.

Abbreviation waiting s := (Queue.queue (queue_doc (world s))).

(** What [n] dispatched items add to the counters. *)
Definition tallied (n : Z) (st st' : Stats) : Prop :=
  totalItems st' = totalItems st
  /\ processed st' = processed st + n
  /\ completed st' + failed st' = completed st + failed st + n
  /\ completed st <= completed st'
  /\ failed st <= failed st'
  /\ failed st' <= failed st + n
  /\ skipped st' = skipped st
  /\ Z.of_nat (length (errors st')) - failed st'
     = Z.of_nat (length (errors st)) - failed st
  /\ Z.of_nat (length (processingTimes st'))
     = Z.of_nat (length (processingTimes st)) + n
  /\ (currentBatch st = [] -> currentBatch st' = []).

Lemma tallied_refl st : tallied 0 st st.
Proof. unfold tallied. repeat split; try lia. auto. Qed.

Lemma tallied_trans n m st1 st2 st3 :
  0 <= n -> 0 <= m ->
  tallied n st1 st2 -> tallied m st2 st3 -> tallied (n + m) st1 st3.
Proof.
  unfold tallied.
  intros Hn Hm (A1 & A2 & A3 & A4 & A5 & A6 & A7 & A8 & A9 & A10)
         (B1 & B2 & B3 & B4 & B5 & B6 & B7 & B8 & B9 & B10).
  repeat split; try lia. auto.
Qed.

Lemma leaveBatch_alone workId st :
  currentBatch st = [workId] -> currentBatch (leaveBatch workId st) = [].
Proof.
  unfold leaveBatch. intros ->. simpl. rewrite String.eqb_refl. reflexivity.
Qed.

Lemma leaveBatch_counters workId st :
  totalItems (leaveBatch workId st) = totalItems st
  /\ processed (leaveBatch workId st) = processed st
  /\ completed (leaveBatch workId st) = completed st
  /\ failed (leaveBatch workId st) = failed st
  /\ skipped (leaveBatch workId st) = skipped st
  /\ errors (leaveBatch workId st) = errors st
  /\ processingTimes (leaveBatch workId st) = processingTimes st.
Proof.
  unfold leaveBatch.
  destruct (findIndex (String.eqb workId) (currentBatch st)); simpl;
    repeat split.
Qed.

Section Sequential.

Variable agents : Collaborators.
Variable maxRetries : Z.
Variable options : Options.
Hypothesis maxRetries_nonneg : 0 <= maxRetries.

Lemma processSingleItem_spec workItem s :
  waiting s <> [] ->
  exists s',
    processSingleItem agents maxRetries workItem s = (Returned tt, s')
    /\ length (waiting s) = S (length (waiting s'))
    /\ tallied 1 (stats s) (stats s').
Proof.
  intros Hqueue. unfold processSingleItem.
  destruct (processNext_spec agents maxRetries maxRetries_nonneg (world s))
    as (r & w & -> & _ & Hr).
  unfold tallied.
  destruct r as [|workId file|workId message].
  - destruct Hr as [Hempty _]. contradiction.
  - destruct Hr as (_ & Hlen & _).
    eexists. split; [reflexivity|]. cbn [world stats]. split; [exact Hlen|].
    match goal with
    | |- context [leaveBatch ?i ?st2] =>
        destruct (leaveBatch_counters i st2)
          as (C1 & C2 & C3 & C4 & C5 & C6 & C7);
        pose proof (leaveBatch_alone i st2) as Hleave
    end.
    rewrite C1, C2, C3, C4, C5, C6, C7. simpl in *.
    rewrite ?length_app. simpl.
    repeat split; try lia.
    intros Hnil. apply Hleave. rewrite Hnil. reflexivity.
  - destruct Hr as (_ & Hlen & _).
    eexists. split; [reflexivity|]. cbn [world stats]. split; [exact Hlen|].
    match goal with
    | |- context [leaveBatch ?i ?st2] =>
        destruct (leaveBatch_counters i st2)
          as (C1 & C2 & C3 & C4 & C5 & C6 & C7);
        pose proof (leaveBatch_alone i st2) as Hleave
    end.
    rewrite C1, C2, C3, C4, C5, C6, C7. simpl in *.
    rewrite ?length_app. simpl.
    repeat split; try lia.
    intros Hnil. apply Hleave. rewrite Hnil. reflexivity.
Qed.

Lemma pause_spec s :
  exists s',
    pause options s = (Returned tt, s')
    /\ stats s' = stats s
    /\ waiting s' = waiting s.
Proof.
  unfold pause. destruct (0 <? delayBetweenItems options);
    eexists; (split; [reflexivity|]); split; reflexivity.
Qed.

Lemma processSequential_spec fuel : forall s,
  (length (waiting s) < fuel)%nat ->
  exists s',
    processSequential agents maxRetries options fuel s = (Returned tt, s')
    /\ (length (waiting s') <= length (waiting s))%nat
    /\ tallied (Z.of_nat (length (waiting s))
                - Z.of_nat (length (waiting s')))
         (stats s) (stats s')
    /\ (waiting s' = []
        \/ (stopOnError options = true /\ 0 < failed (stats s')))
    /\ (stopOnError options = true -> failed (stats s) <= 0 ->
        failed (stats s') <= 1).
Proof.
  induction fuel as [|fuel IH]; intros s Hfuel; [lia|].
  cbn [processSequential].
  pose proof (QueueFacts.getNext_spec (queue_doc (world s))) as Hnext.
  destruct (Queue.getNext (queue_doc (world s))) as [nextWork|].
  - assert (Hqueue : waiting s <> []).
    { destruct Hnext as (b & a & Hq & _). rewrite Hq.
      destruct b; discriminate. }
    destruct (processSingleItem_spec nextWork s Hqueue)
      as (s1 & -> & Hlen & Hone).
    destruct (pause_spec s1) as (s2 & -> & Hstats & Hwait).
    rewrite <- Hstats, <- Hwait in *.
    destruct (stopOnError options && (0 <? failed (stats s2))) eqn:Hstop.
    + apply andb_true_iff in Hstop. destruct Hstop as [Hs Hf].
      apply Z.ltb_lt in Hf.
      exists s2. split; [reflexivity|]. split; [lia|].
      replace (Z.of_nat (length (waiting s)) - Z.of_nat (length (waiting s2)))
        with 1 by lia.
      split; [exact Hone|]. split; [right; split; assumption|].
      intros _ Hzero. unfold tallied in Hone. lia.
    + destruct (IH s2) as (s' & -> & Hle & Htally & Hend & Hcap); [lia|].
      exists s'. split; [reflexivity|]. split; [lia|]. split.
      { replace (Z.of_nat (length (waiting s))
                 - Z.of_nat (length (waiting s')))
          with (1 + (Z.of_nat (length (waiting s2))
                     - Z.of_nat (length (waiting s')))) by lia.
        eapply tallied_trans; [lia|lia|eassumption|eassumption]. }
      split; [exact Hend|].
      intros Hs Hzero. apply Hcap; [exact Hs|].
      rewrite Hs in Hstop. simpl in Hstop. apply Z.ltb_ge in Hstop.
      exact Hstop.
  - exists s. split; [reflexivity|]. split; [lia|].
    rewrite Z.sub_diag. split; [apply tallied_refl|].
    split; [left; exact Hnext|]. intros _ Hzero. lia.
Qed.

End Sequential.

(** X28.  A sequential batch accounts for every item it dispatches.
    Started with fresh counters, [processAll] returns; [total_items] is
    the number of items that were queued, every processed item is
    counted as completed or as failed and none as skipped, there is one
    error entry per failed item and one processing time per processed
    item, no id is left in [currentBatch], and the queue still holds the
    items that were not processed.  Without [stopOnError] the queue is
    drained; with [stopOnError] the batch stops after the first failed
    item, and drains the queue when no item fails. *)
Theorem sequential_batch_accounts (agents : Collaborators) (maxRetries : Z)
    (options : Options) (fuel : nat) (s : State) :
  0 <= maxRetries ->
  stats s = no_stats ->
  (length (waiting s) < fuel)%nat ->
  exists report s',
    processAll agents maxRetries options fuel s = (Returned report, s')
    /\ report = stats s'
    /\ totalItems report = Z.of_nat (length (waiting s))
    /\ processed report = completed report + failed report
    /\ skipped report = 0
    /\ Z.of_nat (length (errors report)) = failed report
    /\ Z.of_nat (length (processingTimes report)) = processed report
    /\ currentBatch report = []
    /\ Z.of_nat (length (waiting s')) = totalItems report - processed report
    /\ (stopOnError options = false ->
        waiting s' = [] /\ processed report = totalItems report)
    /\ (stopOnError options = true ->
        failed report <= 1 /\ (failed report = 0 -> waiting s' = [])).
Proof.
  intros Hmax Hfresh Hfuel. unfold processAll.
  change (Queue.total_items (Queue.getStats (queue_doc (world s))))
    with (Z.of_nat (length (waiting s))).
  destruct (Z.eqb_spec (Z.of_nat (length (waiting s))) 0) as [Hzero|Hsome].
  - eexists _, _. split; [reflexivity|]. cbn [world stats].
    rewrite Hfresh. simpl.
    assert (Hnil : waiting s = [])
      by (destruct (waiting s); [reflexivity|simpl in Hzero; lia]).
    rewrite Hnil. simpl. repeat split; lia.
  - match goal with
    | |- context [processSequential _ _ _ _ ?s0] =>
        destruct (processSequential_spec agents maxRetries options Hmax
                    fuel s0 Hfuel)
          as (s' & -> & Hle & Htally & Hend & Hcap)
    end.
    cbn [world stats] in *. rewrite Hfresh in *.
    unfold tallied in Htally. simpl in Htally, Hcap.
    destruct Htally as (T1 & T2 & T3 & T4 & T5 & T6 & T7 & T8 & T9 & T10).
    exists (stats s'), s'. split; [reflexivity|]. split; [reflexivity|].
    split; [exact T1|]. split; [lia|]. split; [exact T7|].
    split; [lia|]. split; [lia|]. split; [apply T10; reflexivity|].
    split; [lia|]. split.
    + intros Hoff. destruct Hend as [Hnil|[Hon _]]; [|congruence].
      split; [exact Hnil|]. rewrite Hnil in T2. simpl in T2. lia.
    + intros Hon. split; [apply Hcap; [exact Hon|lia]|].
      intros Hnone. destruct Hend as [Hnil|[_ Hfailed]]; [exact Hnil|lia].
Qed.

Lemma sequential_batch_accounts_witness :
  0 <= 3
  /\ (length (waiting {| world := Samples.idle; stats := no_stats |}) < 3)%nat
  /\ exists report s',
       processAll Samples.alwaysFails 3
         {| delayBetweenItems := 500; stopOnError := true |} 3
         {| world := Samples.idle; stats := no_stats |}
       = (Returned report, s')
       /\ totalItems report = 2
       /\ processed report = 1
       /\ failed report = 1
       /\ length (waiting s') = 1%nat.
Proof.
  assert (Hmax : 0 <= 3) by lia.
  assert (Hfuel : (length (waiting {| world := Samples.idle;
                                      stats := no_stats |}) < 3)%nat)
    by (vm_compute; lia).
  split; [exact Hmax|]. split; [exact Hfuel|].
  destruct (sequential_batch_accounts Samples.alwaysFails 3
              {| delayBetweenItems := 500; stopOnError := true |} 3
              {| world := Samples.idle; stats := no_stats |}
              Hmax eq_refl Hfuel)
    as (report & s' & Hrun & Hreport & Htotal & Hsum & _ & _ & _ & _ & Hleft
        & _ & Hstop).
  assert (Hf : failed
                 (stats (snd (processAll Samples.alwaysFails 3
                                {| delayBetweenItems := 500;
                                   stopOnError := true |} 3
                                {| world := Samples.idle;
                                   stats := no_stats |}))) = 1
               /\ processed
                    (stats (snd (processAll Samples.alwaysFails 3
                                   {| delayBetweenItems := 500;
                                      stopOnError := true |} 3
                                   {| world := Samples.idle;
                                      stats := no_stats |}))) = 1)
    by (vm_compute; split; reflexivity).
  rewrite Hrun in Hf. cbn [snd] in Hf. rewrite <- Hreport in Hf.
  destruct Hf as [Hfailed Hprocessed].
  exists report, s'. split; [exact Hrun|].
  assert (Htwo : totalItems report = 2) by (rewrite Htotal; reflexivity).
  split; [exact Htwo|]. split; [exact Hprocessed|]. split; [exact Hfailed|].
  rewrite Htwo, Hprocessed in Hleft. lia.
Defined.

End BatchFacts.
